(** * check_hycu_vm_backup_v2.1.py: a shallow embedding and its properties

    The plugin queries the HYCU REST API, classifies the answer against
    operator thresholds and exits with a Nagios/Centreon code.  This file
    embeds [parse_arguments], [validate_thresholds], [get_entity_uuid] and
    the check handlers as functions over the values the Python code reads,
    and proves the behaviour the specification states about them.

    Conventions of the embedding.

    - Python [int] is [Z]; [str] is [string], the bytes of its UTF-8
      encoding: equality, concatenation, [startswith] and [in] read the
      same on the bytes as on the characters.  [str.lower()],
      [str.upper()] and [int(s)] follow the Unicode tables of the Python
      runtime; they are the methods of the class [Runtime], and every
      property is proved for every runtime.  Their ASCII fragments
      ([ascii_lower], [ascii_upper], [ascii_int]) serve the examples.
    - A JSON object is a record with one optional field per key the code
      reads: [None] is an absent key, [Some v] a key carrying a value of the
      type the API contract gives it.
    - [raise] and [sys.exit] are outcomes of the [result] monad; a handler
      receives what each of its [api_request] calls meets (the document or
      a failure) as an argument.
    - The handlers are embedded at [verbose = False]: the [DEBUG] prints
      under [if verbose] are not part of the model. *)

From Stdlib Require Import ZArith List String Ascii Bool Lia.
From Stdlib Require Import DecimalString.
Import ListNotations.

#[local] Open Scope string_scope.
#[local] Open Scope Z_scope.

(** ** Python values and control flow *)

Module Py.

(** What the process wrote before it stopped: [parser.print_help()], a
    [print] line, or the message [parser.error] sends to stderr. *)
Inductive output :=
| Help
| Line (s : string)
| ErrLine (s : string).

Inductive exn :=
| SystemExit (code : Z) (out : list output)
| HycuAPIError (msg : string)
| KeyError (key : string)
| IndexError
| UnboundLocalError (var : string)
| OverflowError
| ValueError (text : string).

Inductive result (A : Type) :=
| Ok (a : A)
| Raise (e : exn).
Arguments Ok {A} a.
Arguments Raise {A} e.

(** What one [api_request] call meets: the decoded JSON body, one of the
    failures the function turns into [HycuAPIError(msg)], or the
    [ValueError] of the HTTP library for a timeout that is not positive,
    which no [except] clause of the function catches. *)
Inductive response (A : Type) :=
| Json (data : A)
| Failed (msg : string)
| Uncaught (text : string).
Arguments Json {A} data.
Arguments Failed {A} msg.
Arguments Uncaught {A} text.

Definition bind {A B} (m : result A) (k : A -> result B) : result B :=
  match m with
  | Ok a => k a
  | Raise e => Raise e
  end.

(** [except Exception] catches everything but [SystemExit]. *)
Definition is_Exception (e : exn) : bool :=
  match e with
  | SystemExit _ _ => false
  | _ => true
  end.

Definition try_except {A} (body : result A) (handler : exn -> result A) : result A :=
  match body with
  | Ok a => Ok a
  | Raise e => if is_Exception e then handler e else Raise e
  end.

(** [d[key]] on an object whose key may be absent. *)
Definition getitem {A} (key : string) (field : option A) : result A :=
  match field with
  | Some v => Ok v
  | None => Raise (KeyError key)
  end.

(** [d.get(key, default)]. *)
Definition get {A} (field : option A) (default : A) : A :=
  match field with
  | Some v => v
  | None => default
  end.

(** [l[0]]. *)
Definition first {A} (l : list A) : result A :=
  match l with
  | x :: _ => Ok x
  | [] => Raise IndexError
  end.

(** Truth value of a string and of a value that may be [None]. *)
Definition truthy (s : string) : bool := negb (s =? "")%string.

Definition truthy_opt (o : option string) : bool :=
  match o with
  | Some s => truthy s
  | None => false
  end.

(** [x in l] for a string [x] and a list of strings. *)
Definition str_in (x : string) (l : list string) : bool :=
  existsb (String.eqb x) l.

(** [s.startswith(p)]. *)
Fixpoint startswith (p s : string) : bool :=
  match p with
  | EmptyString => true
  | String a p' =>
      match s with
      | String b s' => Ascii.eqb a b && startswith p' s'
      | EmptyString => false
      end
  end.

(** [sub in s] for two strings. *)
Definition contains (sub s : string) : bool :=
  match String.index 0 sub s with
  | Some _ => true
  | None => false
  end.

(** [str(n)] for an integer. *)
Definition str (n : Z) : string := NilZero.string_of_int (Z.to_int n).

Definition is_upper_ascii (c : ascii) : bool :=
  let n := nat_of_ascii c in ((65 <=? n) && (n <=? 90))%nat.

Definition is_lower_ascii (c : ascii) : bool :=
  let n := nat_of_ascii c in ((97 <=? n) && (n <=? 122))%nat.

Definition lower_ascii (c : ascii) : ascii :=
  if is_upper_ascii c then ascii_of_nat (nat_of_ascii c + 32) else c.

Definition upper_ascii (c : ascii) : ascii :=
  if is_lower_ascii c then ascii_of_nat (nat_of_ascii c - 32) else c.

Fixpoint map_string (f : ascii -> ascii) (s : string) : string :=
  match s with
  | EmptyString => EmptyString
  | String c s' => String (f c) (map_string f s')
  end.

(** [s.lower()] and [s.upper()] for a string of ASCII characters. *)
Definition ascii_lower : string -> string := map_string lower_ascii.
Definition ascii_upper : string -> string := map_string upper_ascii.

(** [l[:n]] and [sep.join(l)]. *)
Definition slice_to {A} (n : nat) (l : list A) : list A := firstn n l.
Definition join (sep : string) (l : list string) : string := String.concat sep l.

(** *** [int(s)] on a decimal literal of ASCII characters

    Surrounding white space is dropped, one sign is allowed, and the
    digits may be grouped by single underscores. *)

Definition is_space (c : ascii) : bool :=
  let n := nat_of_ascii c in
  (((9 <=? n) && (n <=? 13)) || ((28 <=? n) && (n <=? 32)))%nat.

Definition digit_of (c : ascii) : option Z :=
  let n := nat_of_ascii c in
  if ((48 <=? n) && (n <=? 57))%nat then Some (Z.of_nat n - 48) else None.

Fixpoint lstrip (s : string) : string :=
  match s with
  | String c s' => if is_space c then lstrip s' else s
  | EmptyString => EmptyString
  end.

Fixpoint rstrip (s : string) : string :=
  match s with
  | EmptyString => EmptyString
  | String c s' =>
      match rstrip s' with
      | EmptyString => if is_space c then EmptyString else String c EmptyString
      | r => String c r
      end
  end.

Definition strip (s : string) : string := rstrip (lstrip s).

(** [digits acc prev_digit s]: the value of the digits of [s], [acc]
    being the value read so far and [prev_digit] telling whether the
    character before was a digit (an underscore needs a digit on both
    sides). *)
Fixpoint digits (acc : Z) (prev_digit : bool) (s : string) : option Z :=
  match s with
  | EmptyString => if prev_digit then Some acc else None
  | String c s' =>
      match digit_of c with
      | Some d => digits (10 * acc + d) true s'
      | None =>
          if (Ascii.eqb c "_" && prev_digit)%bool
          then match s' with
               | String c' _ =>
                   match digit_of c' with
                   | Some _ => digits acc false s'
                   | None => None
                   end
               | EmptyString => None
               end
          else None
      end
  end.

(** [None] stands for [ValueError]. *)
Definition ascii_int (s : string) : option Z :=
  match strip s with
  | String "-" s' => option_map Z.opp (digits 0 false s')
  | String "+" s' => digits 0 false s'
  | s' => digits 0 false s'
  end.

End Py.

Import Py.

(** The three methods whose answer depends on the Unicode tables of the
    runtime: [s.lower()], [s.upper()], and [int(s)], where [None] stands
    for [ValueError]. *)
Class Runtime := {
  lower : string -> string;
  upper : string -> string;
  int : string -> option Z
}.

Notation "x <- m ;; k" := (bind m (fun x => k))
  (at level 61, m at next level, right associativity).
Notation "' pat <- m ;; k" := (bind m (fun x => match x with pat => k end))
  (at level 61, pat pattern, m at next level, right associativity).

(** ** Exit codes and check types *)

Definition EXIT_OK : Z := 0.
Definition EXIT_WARNING : Z := 1.
Definition EXIT_CRITICAL : Z := 2.
Definition EXIT_UNKNOWN : Z := 3.

Definition CHECK_TYPES : list (string * list string) :=
  [ ("objects", ["vm"; "vmid"; "target"; "archive"]);
    ("policies", ["policy"; "policy-advanced"]);
    ("global", ["manager"; "jobs"; "license"; "version"]);
    ("storage", ["shares"; "buckets"]);
    ("validation", ["backup-validation"; "unassigned"]);
    ("network", ["port"]) ].

Definition ALL_CHECK_TYPES : list string := flat_map snd CHECK_TYPES.

(** ** Command line *)

(** The [optparse.Values] object [parser.parse_args()] returns: a string
    option that was not given is [None]; the integer options carry their
    defaults. *)
Record Values := {
  apitoken : option string;
  host : option string;
  vmtarget : option string;
  scantype : option string;
  timeout : Z;
  verbose : bool;
  warning_threshold : Z;
  critical_threshold : Z;
  period_hours : Z
}.

Definition set_vmtarget (o : Values) (v : option string) : Values :=
  {| apitoken := apitoken o; host := host o; vmtarget := v;
     scantype := scantype o; timeout := timeout o; verbose := verbose o;
     warning_threshold := warning_threshold o;
     critical_threshold := critical_threshold o;
     period_hours := period_hours o |}.

(** [sys.exit(code)] after the given output; [parser.error(msg)]. *)
Definition sys_exit {A} (code : Z) (out : list output) : result A :=
  Raise (SystemExit code out).

Definition parser_error {A} (msg : string) : result A :=
  Raise (SystemExit 2 [ErrLine msg]).

Definition validate_thresholds (warning critical : Z) (inverted : bool) : result bool :=
  if (warning <? 0) || (critical <? 0) then
    sys_exit EXIT_UNKNOWN [Line "ERROR: Thresholds must be positive integers"]
  else if inverted then
    if critical >? warning then
      sys_exit EXIT_UNKNOWN
        [Line "ERROR: For license checks, critical threshold must be <= warning threshold"]
    else Ok true
  else
    if critical <? warning then
      sys_exit EXIT_UNKNOWN [Line "ERROR: Critical threshold must be >= warning threshold"]
    else Ok true.

(** [x in l] and [x == s] for an option value that may be [None]. *)
Definition opt_in (x : option string) (l : list string) : bool :=
  match x with
  | Some s => str_in s l
  | None => false
  end.

Definition opt_is (x : option string) (s : string) : bool :=
  match x with
  | Some s' => (s' =? s)%string
  | None => false
  end.

(** [f"{x}"] for an option value. *)
Definition opt_str (x : option string) : string :=
  match x with
  | Some s => s
  | None => "None"
  end.

Definition types_without_vmtarget : list string :=
  ["jobs"; "license"; "version"; "backup-validation"; "shares"; "buckets"; "unassigned"].

Definition types_without_token : list string := ["port"].

Definition when (b : bool) (m : result unit) : result unit :=
  if b then m else Ok tt.

Definition check_period (o : Values) : result unit :=
  when ((period_hours o <? 1) || (period_hours o >? 168))
       (parser_error "Period must be between 1 and 168 hours").

(** The validation [parse_arguments] runs on the parsed options (all that
    follows [parser.parse_args()]).  [category.upper()] is taken on the
    keys of [CHECK_TYPES], ASCII literals of the source, where it is
    [ascii_upper]. *)
Definition parse_arguments `{Runtime} (options : Values) : result Values :=
  options <-
    (if opt_in (scantype options) types_without_vmtarget then
       _ <- (if opt_in (scantype options) types_without_token then
               when (negb (truthy_opt (host options) && truthy_opt (scantype options)))
                    (sys_exit EXIT_UNKNOWN [Help])
             else
               when (negb (truthy_opt (apitoken options) && truthy_opt (host options)
                           && truthy_opt (scantype options)))
                    (sys_exit EXIT_UNKNOWN [Help])) ;;
       if negb (truthy_opt (vmtarget options))
       then Ok (set_vmtarget options (scantype options))
       else Ok options
     else
       _ <- when (negb (truthy_opt (apitoken options) && truthy_opt (host options)
                        && truthy_opt (vmtarget options) && truthy_opt (scantype options)))
                 (sys_exit EXIT_UNKNOWN [Help]) ;;
       Ok options) ;;
  _ <- when (negb (opt_in (scantype options) ALL_CHECK_TYPES))
         (sys_exit EXIT_UNKNOWN
            (Line ("ERROR: Invalid type '" ++ opt_str (scantype options) ++ "'.")
             :: Line (String "010" "Available check types by category:")
             :: map (fun '(category, types) =>
                       Line ("  " ++ ascii_upper category ++ ": " ++ join ", " types))
                    CHECK_TYPES)) ;;
  _ <- when (opt_is (scantype options) "jobs")
         (_ <- validate_thresholds (warning_threshold options) (critical_threshold options) false ;;
          check_period options) ;;
  _ <- when (opt_is (scantype options) "policy-advanced")
         (_ <- validate_thresholds (warning_threshold options) (critical_threshold options) false ;;
          Ok tt) ;;
  _ <- when (opt_is (scantype options) "license")
         (_ <- validate_thresholds (warning_threshold options) (critical_threshold options) true ;;
          Ok tt) ;;
  _ <- when (opt_in (scantype options) ["backup-validation"; "shares"; "buckets"; "unassigned"])
         (_ <- validate_thresholds (warning_threshold options) (critical_threshold options) false ;;
          when (opt_is (scantype options) "backup-validation") (check_period options)) ;;
  _ <- when (opt_is (scantype options) "port")
         (when (truthy_opt (vmtarget options) && negb (opt_is (vmtarget options) "port"))
            (match int (opt_str (vmtarget options)) with
             | Some port_num =>
                 when ((port_num <? 1) || (port_num >? 65535))
                      (parser_error "Port number must be between 1 and 65535")
             | None =>
                 parser_error ("Port number must be an integer, got '"
                               ++ opt_str (vmtarget options) ++ "'")
             end)) ;;
  Ok options.


(** ** API documents *)

(** [api_request]: returns the JSON document or raises [HycuAPIError]. *)
Definition api_request {A} (r : response A) : result A :=
  match r with
  | Json data => Ok data
  | Failed msg => Raise (HycuAPIError msg)
  | Uncaught text => Raise (ValueError text)
  end.

Record Metadata := { grandTotalEntityCount : option Z }.

(** A listing: [{"entities": [...], "metadata": {...}}]. *)
Record listing (A : Type) := {
  entities : option (list A);
  metadata : option Metadata
}.
Arguments entities {A} l.
Arguments metadata {A} l.

(** [data.get('entities', [])]. *)
Definition entities_or_empty {A} (data : listing A) : list A := get (entities data) [].

(** [data.get('metadata', {}).get('grandTotalEntityCount', 0)]. *)
Definition grand_total {A} (data : listing A) : Z :=
  get (grandTotalEntityCount (get (metadata data) {| grandTotalEntityCount := None |})) 0.

(** An entry of the /vms, /targets, /policies, /shares, /applications and
    /volumegroups listings, with the keys the resolver and the storage and
    unassigned handlers read. *)
Module Entity.

Record t := {
  uuid : option string;
  name : option string;
  vmName : option string;
  shareName : option string;
  protectionGroupName : option string;
  protocolTypeList : option (list string);
  status : option string;
  compliancyStatus : option string
}.

(** The string-valued keys, for the subscript [entity[name_field]]. *)
Inductive key := K_uuid | K_name | K_vmName | K_shareName.

Definition key_name (k : key) : string :=
  match k with
  | K_uuid => "uuid"
  | K_name => "name"
  | K_vmName => "vmName"
  | K_shareName => "shareName"
  end.

Definition field (e : t) (k : key) : option string :=
  match k with
  | K_uuid => uuid e
  | K_name => name e
  | K_vmName => vmName e
  | K_shareName => shareName e
  end.

(** [entity[k]]. *)
Definition subscript (e : t) (k : key) : result string :=
  getitem (key_name k) (field e k).

End Entity.

(** An entry of /vms/{uuid}/backups. *)
Module Backup.
Record t := {
  status : option string;
  type : option string;
  vmName : option string;
  numberOfArchives : option Z;
  numberOfFailedArchives : option Z
}.
End Backup.

(** The answer of /targets/{uuid}: the target itself, or a listing whose
    first entry is the target. *)
Module Target.
Record t := {
  name : option string;
  health : option string
}.
Record document := {
  entities : option (list t);
  direct : t
}.

(** [data['entities'][0]] when the answer has a non-empty ['entities'],
    else [data] itself. *)
Definition target_data (data : document) : t :=
  match entities data with
  | Some (t :: _) => t
  | _ => direct data
  end.
End Target.

(** ** A dict with string keys

    Python dicts iterate in insertion order, and assigning to a key that is
    already there keeps its place. *)
Module Dict.

Definition t := list (string * string).

Fixpoint set (k v : string) (d : t) : t :=
  match d with
  | [] => [(k, v)]
  | (k', v') :: d' =>
      if (k' =? k)%string then (k, v) :: d' else (k', v') :: set k v d'
  end.

Fixpoint get (k : string) (d : t) : option string :=
  match d with
  | [] => None
  | (k', v') :: d' => if (k' =? k)%string then Some v' else get k d'
  end.

Definition items (d : t) : list (string * string) := d.

Definition keys (d : t) : list string := map fst d.

End Dict.

(** ** Entity resolver *)

(** The dict comprehension
    [{entity[name_field]: entity['uuid'] for entity in entities}]. *)
Fixpoint entity_dict_from (name_field : Entity.key) (es : list Entity.t)
         (acc : Dict.t) : result Dict.t :=
  match es with
  | [] => Ok acc
  | entity :: es' =>
      k <- Entity.subscript entity name_field ;;
      v <- Entity.subscript entity Entity.K_uuid ;;
      entity_dict_from name_field es' (Dict.set k v acc)
  end.

(** The case-insensitive scan over [entity_dict.items()]. *)
Fixpoint scan_lower `{Runtime} (name_lower : string) (items : list (string * string))
  : option string :=
  match items with
  | [] => None
  | (entity_name, entity_uuid) :: items' =>
      if (lower entity_name =? name_lower)%string then Some entity_uuid
      else scan_lower name_lower items'
  end.

Definition get_entity_uuid `{Runtime} (r : response (listing Entity.t))
           (name : string) (name_field : Entity.key) : result (option string) :=
  data <- api_request r ;;
  entity_dict <- entity_dict_from name_field (entities_or_empty data) [] ;;
  let uuid := Dict.get name entity_dict in
  if truthy_opt uuid then Ok uuid
  else
    let name_lower := lower name in
    Ok (scan_lower name_lower (Dict.items entity_dict)).

(** ** Handlers of shape A: a status read through a table *)

(** A dict literal with distinct string keys, read with [.get(key, default)]. *)
Module Table.

Fixpoint get {V} (table : list (string * V)) (key : string) (default : V) : V :=
  match table with
  | [] => default
  | (k, v) :: table' => if (k =? key)%string then v else get table' key default
  end.

End Table.

Definition check_vm_backup (r : response (listing Backup.t)) (vm_name : string)
  : result (Z * string) :=
  data <- api_request r ;;
  let backup_count := grand_total data in
  if backup_count =? 0 then
    Ok (EXIT_CRITICAL, vm_name ++ " has no backups |backup_status=0;;;")
  else
    es <- getitem "entities" (entities data) ;;
    latest_backup <- first es ;;
    backup_status <- getitem "status" (Backup.status latest_backup) ;;
    backup_type <- getitem "type" (Backup.type latest_backup) ;;
    let vm_name_from_api := get (Backup.vmName latest_backup) vm_name in
    let status_map :=
      [ ("OK", (EXIT_OK, 2));
        ("WARNING", (EXIT_WARNING, 1));
        ("FATAL", (EXIT_CRITICAL, 0)) ] in
    let '(exit_code, numeric_status) :=
      Table.get status_map backup_status (EXIT_UNKNOWN, 1) in
    let output := vm_name_from_api ++ " is " ++ backup_status ++ " for last " ++ backup_type
                  ++ " |backup_status=" ++ str numeric_status ++ ";;;" in
    Ok (exit_code, output).

Definition check_target_health (r : response Target.document) (target_name : string)
  : result (Z * string) :=
  data <- api_request r ;;
  let target_data := Target.target_data data in
  let target_name_from_api := get (Target.name target_data) target_name in
  let target_health := get (Target.health target_data) "UNKNOWN" in
  let health_map :=
    [ ("GREEN", (EXIT_OK, 2));
      ("GREY", (EXIT_WARNING, 1));
      ("RED", (EXIT_CRITICAL, 0));
      ("GRAY", (EXIT_WARNING, 1)) ] in
  let '(exit_code, numeric_status) :=
    Table.get health_map target_health (EXIT_UNKNOWN, 1) in
  let output := target_name_from_api ++ " is " ++ target_health
                ++ " |target_health=" ++ str numeric_status ++ ";;;" in
  Ok (exit_code, output).

Definition check_archive_status (r : response (listing Backup.t)) (vm_name : string)
  : result (Z * string) :=
  data <- api_request r ;;
  let backup_count := grand_total data in
  if backup_count =? 0 then
    Ok (EXIT_CRITICAL, vm_name ++ " has no backups |archive_status=0;;;")
  else
    es <- getitem "entities" (entities data) ;;
    latest_backup <- first es ;;
    let vm_name_from_api := get (Backup.vmName latest_backup) vm_name in
    backup_type <- getitem "type" (Backup.type latest_backup) ;;
    let archives_ok := get (Backup.numberOfArchives latest_backup) 0 in
    let archives_failed := get (Backup.numberOfFailedArchives latest_backup) 0 in
    let '(archive_status, exit_code, numeric_status) :=
      if archives_failed >=? 1 then ("FAILED", EXIT_CRITICAL, 0)
      else if archives_ok >=? 1 then ("OK", EXIT_OK, 2)
      else ("MISSING", EXIT_WARNING, 1) in
    let output := vm_name_from_api ++ " archive is " ++ archive_status ++ " for last "
                  ++ backup_type
                  ++ " |archive_status=" ++ str numeric_status ++ ";;; archives_ok="
                  ++ str archives_ok ++ ";;; archives_failed=" ++ str archives_failed
                  ++ ";;;" in
    Ok (exit_code, output).

(** ** Handlers of shape B: a count compared with the thresholds *)

(** An entry of /jobs. *)
Module Job.
Record t := {
  status : option string;
  type : option string;
  taskName : option string
}.
End Job.

(** *** shares and buckets *)

Module Storage.

Record stats := {
  total : Z;
  protected : Z;
  compliant : Z;
  non_compliant : Z;
  unprotected : Z
}.

Definition zero : stats :=
  {| total := 0; protected := 0; compliant := 0; non_compliant := 0; unprotected := 0 |}.

(** [any(p in ['NFS', 'SMB'] for p in protocols)] and ['S3' in protocols],
    on [protocols = entry.get('protocolTypeList', [])]. *)
Definition is_share (e : Entity.t) : bool :=
  existsb (fun p => str_in p ["NFS"; "SMB"]) (get (Entity.protocolTypeList e) []).

Definition is_bucket (e : Entity.t) : bool :=
  str_in "S3" (get (Entity.protocolTypeList e) []).

(** The part of the loop body after the protocol filter; the two handlers
    have the same text there. *)
Definition count (e : Entity.t) (s : stats) : stats :=
  let status := get (Entity.status e) "UNKNOWN" in
  let compliancy_status := get (Entity.compliancyStatus e) "UNKNOWN" in
  if str_in status ["PROTECTED"; "UNPROTECTED"] then
    let s := {| total := total s + 1; protected := protected s;
                compliant := compliant s; non_compliant := non_compliant s;
                unprotected := unprotected s |} in
    if (status =? "PROTECTED")%string then
      let s := {| total := total s; protected := protected s + 1;
                  compliant := compliant s; non_compliant := non_compliant s;
                  unprotected := unprotected s |} in
      if (compliancy_status =? "GREEN")%string then
        {| total := total s; protected := protected s;
           compliant := compliant s + 1; non_compliant := non_compliant s;
           unprotected := unprotected s |}
      else if str_in compliancy_status ["RED"; "YELLOW"] then
        {| total := total s; protected := protected s;
           compliant := compliant s; non_compliant := non_compliant s + 1;
           unprotected := unprotected s |}
      else s
    else
      {| total := total s; protected := protected s;
         compliant := compliant s; non_compliant := non_compliant s;
         unprotected := unprotected s + 1 |}
  else s.

(** One pass of the loop of [check_shares], and of [check_buckets]. *)
Definition shares_step (s : stats) (share : Entity.t) : stats :=
  if negb (is_share share) then s else count share s.

Definition buckets_step (s : stats) (bucket : Entity.t) : stats :=
  if negb (is_bucket bucket) then s else count bucket s.

Definition shares_stats (data : listing Entity.t) : stats :=
  match entities data with
  | Some es => fold_left shares_step es zero
  | None => zero
  end.

Definition buckets_stats (data : listing Entity.t) : stats :=
  match entities data with
  | Some es => fold_left buckets_step es zero
  | None => zero
  end.

End Storage.

Definition check_shares (r : response (listing Entity.t))
           (warning_threshold critical_threshold : Z) : result (Z * string) :=
  data <- api_request r ;;
  let stats := Storage.shares_stats data in
  let '(exit_code, status_label) :=
    if Storage.non_compliant stats >=? critical_threshold then (EXIT_CRITICAL, "CRITICAL")
    else if Storage.non_compliant stats >=? warning_threshold then (EXIT_WARNING, "WARNING")
    else (EXIT_OK, "OK") in
  let message := status_label ++ ": Shares (NFS/SMB) - "
                 ++ str (Storage.compliant stats) ++ "/" ++ str (Storage.total stats)
                 ++ " compliant, "
                 ++ str (Storage.non_compliant stats) ++ " non-compliant, "
                 ++ str (Storage.unprotected stats) ++ " unprotected" in
  let perfdata := "|"
                  ++ "shares_total=" ++ str (Storage.total stats) ++ ";;;0; "
                  ++ "shares_compliant=" ++ str (Storage.compliant stats) ++ ";;;0; "
                  ++ "shares_non_compliant=" ++ str (Storage.non_compliant stats) ++ ";"
                  ++ str warning_threshold ++ ";" ++ str critical_threshold ++ ";0; "
                  ++ "shares_unprotected=" ++ str (Storage.unprotected stats) ++ ";;;0;" in
  let output := message ++ " " ++ perfdata in
  Ok (exit_code, output).

Definition check_buckets (r : response (listing Entity.t))
           (warning_threshold critical_threshold : Z) : result (Z * string) :=
  data <- api_request r ;;
  let stats := Storage.buckets_stats data in
  let '(exit_code, status_label) :=
    if Storage.non_compliant stats >=? critical_threshold then (EXIT_CRITICAL, "CRITICAL")
    else if Storage.non_compliant stats >=? warning_threshold then (EXIT_WARNING, "WARNING")
    else (EXIT_OK, "OK") in
  let message := status_label ++ ": Buckets (S3) - "
                 ++ str (Storage.compliant stats) ++ "/" ++ str (Storage.total stats)
                 ++ " compliant, "
                 ++ str (Storage.non_compliant stats) ++ " non-compliant, "
                 ++ str (Storage.unprotected stats) ++ " unprotected" in
  let perfdata := "|"
                  ++ "buckets_total=" ++ str (Storage.total stats) ++ ";;;0; "
                  ++ "buckets_compliant=" ++ str (Storage.compliant stats) ++ ";;;0; "
                  ++ "buckets_non_compliant=" ++ str (Storage.non_compliant stats) ++ ";"
                  ++ str warning_threshold ++ ";" ++ str critical_threshold ++ ";0; "
                  ++ "buckets_unprotected=" ++ str (Storage.unprotected stats) ++ ";;;0;" in
  let output := message ++ " " ++ perfdata in
  Ok (exit_code, output).

(** *** backup-validation *)

Module Validation.

Record stats := {
  total : Z;
  ok : Z;
  warning : Z;
  error : Z
}.

Definition zero : stats := {| total := 0; ok := 0; warning := 0; error := 0 |}.

Definition step `{Runtime} (s : stats) (job : Job.t) : stats :=
  let job_type := get (Job.type job) "" in
  if contains "VALIDATION" job_type || contains "RESTORE_VALIDATE" job_type then
    let s := {| total := total s + 1; ok := ok s; warning := warning s; error := error s |} in
    let status := upper (get (Job.status job) "UNKNOWN") in
    if (status =? "OK")%string then
      {| total := total s; ok := ok s + 1; warning := warning s; error := error s |}
    else if (status =? "WARNING")%string then
      {| total := total s; ok := ok s; warning := warning s + 1; error := error s |}
    else if (status =? "ERROR")%string then
      {| total := total s; ok := ok s; warning := warning s; error := error s + 1 |}
    else s
  else s.

Definition count `{Runtime} (data : listing Job.t) : stats :=
  match entities data with
  | Some es => fold_left step es zero
  | None => zero
  end.

(** [stats['failed'] = stats['warning'] + stats['error']]. *)
Definition failed (s : stats) : Z := warning s + error s.

End Validation.

Definition check_backup_validation `{Runtime} (r : response (listing Job.t))
           (period_hours warning_threshold critical_threshold : Z) : result (Z * string) :=
  data <- api_request r ;;
  let stats := Validation.count data in
  let failed := Validation.failed stats in
  let '(exit_code, status_label) :=
    if failed >=? critical_threshold then (EXIT_CRITICAL, "CRITICAL")
    else if failed >=? warning_threshold then (EXIT_WARNING, "WARNING")
    else (EXIT_OK, "OK") in
  let message := status_label ++ ": Backup validations over " ++ str period_hours ++ "h - "
                 ++ str failed ++ " failed (" ++ str (Validation.error stats) ++ " errors, "
                 ++ str (Validation.warning stats) ++ " warnings), "
                 ++ str (Validation.ok stats) ++ " successful" in
  let perfdata := "|"
                  ++ "validations_total=" ++ str (Validation.total stats) ++ ";;;0; "
                  ++ "validations_ok=" ++ str (Validation.ok stats) ++ ";;;0; "
                  ++ "validations_failed=" ++ str failed ++ ";"
                  ++ str warning_threshold ++ ";" ++ str critical_threshold ++ ";0;" in
  let output := message ++ " " ++ perfdata in
  Ok (exit_code, output).

(** *** jobs *)

Module Jobs.

Record stats := {
  total : Z;
  ok : Z;
  warning : Z;
  error : Z;
  running : Z;
  other : Z;
  failed_jobs : list (string * string * string)   (* name, status, type *)
}.

Definition zero : stats :=
  {| total := 0; ok := 0; warning := 0; error := 0; running := 0; other := 0;
     failed_jobs := [] |}.

Definition step `{Runtime} (s : stats) (job : Job.t) : stats :=
  let status := upper (get (Job.status job) "UNKNOWN") in
  let job_type := get (Job.type job) "UNKNOWN" in
  let task_name := get (Job.taskName job) "Unknown task" in
  if (status =? "OK")%string then
    {| total := total s; ok := ok s + 1; warning := warning s; error := error s;
       running := running s; other := other s; failed_jobs := failed_jobs s |}
  else if (status =? "WARNING")%string then
    {| total := total s; ok := ok s; warning := warning s + 1; error := error s;
       running := running s; other := other s;
       failed_jobs := failed_jobs s ++ [(task_name, status, job_type)] |}
  else if (status =? "ERROR")%string then
    {| total := total s; ok := ok s; warning := warning s; error := error s + 1;
       running := running s; other := other s;
       failed_jobs := failed_jobs s ++ [(task_name, status, job_type)] |}
  else if str_in status ["RUNNING"; "QUEUED"; "PENDING"] then
    {| total := total s; ok := ok s; warning := warning s; error := error s;
       running := running s + 1; other := other s; failed_jobs := failed_jobs s |}
  else
    {| total := total s; ok := ok s; warning := warning s; error := error s;
       running := running s; other := other s + 1; failed_jobs := failed_jobs s |}.

Definition count `{Runtime} (data : listing Job.t) : stats :=
  let s :=
    match metadata data with
    | Some m => {| total := get (grandTotalEntityCount m) 0; ok := 0; warning := 0;
                   error := 0; running := 0; other := 0; failed_jobs := [] |}
    | None => zero
    end in
  match entities data with
  | Some es => fold_left step es s
  | None => s
  end.

(** [stats['failed'] = stats['warning'] + stats['error']]. *)
Definition failed (s : stats) : Z := warning s + error s.

End Jobs.

(** The detailed record of /policies/{uuid}. *)
Module Policy.
Record t := {
  name : option string;
  compliancyStatus : option string;
  vmsCount : option Z;
  compliantVmsCount : option Z;
  uncompliantVmsCount : option Z;
  sharesCount : option Z;
  compliantSharesCount : option Z;
  uncompliantSharesCount : option Z;
  appsCount : option Z;
  compliantAppsCount : option Z;
  uncompliantAppsCount : option Z;
  bucketsCount : option Z;
  compliantBucketsCount : option Z;
  uncompliantBucketsCount : option Z;
  vgsCount : option Z;
  compliantVgsCount : option Z;
  uncompliantVgsCount : option Z
}.

(** The three totals of [stats]. *)
Definition total_objects (p : t) : Z :=
  get (vmsCount p) 0 + get (sharesCount p) 0 + get (appsCount p) 0
  + get (bucketsCount p) 0 + get (vgsCount p) 0.

Definition total_compliant (p : t) : Z :=
  get (compliantVmsCount p) 0 + get (compliantSharesCount p) 0
  + get (compliantAppsCount p) 0 + get (compliantBucketsCount p) 0
  + get (compliantVgsCount p) 0.

Definition total_uncompliant (p : t) : Z :=
  get (uncompliantVmsCount p) 0 + get (uncompliantSharesCount p) 0
  + get (uncompliantAppsCount p) 0 + get (uncompliantBucketsCount p) 0
  + get (uncompliantVgsCount p) 0.
End Policy.

(** The record of /administration/license. *)
Module License.
Record t := {
  companyName : option string;
  type : option string;
  status : option string;
  daysLeft : option Z;
  expirationDate : option Z;
  versionType : option string;
  licensedVms : option Z;
  protectedVms : option Z;
  licensedSockets : option Z;
  actualSockets : option Z
}.
End License.

(** The first policy of the listing whose lowered name is [policy_name_lower]
    (the loop with [break]); [None] when the loop ends without a match. *)
Fixpoint find_policy `{Runtime} (policy_name_lower : string) (es : list Entity.t)
  : result (option string) :=
  match es with
  | [] => Ok None
  | policy :: es' =>
      n <- Entity.subscript policy Entity.K_name ;;
      if (lower n =? policy_name_lower)%string then
        policy_uuid <- Entity.subscript policy Entity.K_uuid ;;
        Ok (Some policy_uuid)
      else find_policy policy_name_lower es'
  end.

(** [[p['name'] for p in entities]]. *)
Fixpoint names_of (es : list Entity.t) : result (list string) :=
  match es with
  | [] => Ok []
  | p :: es' =>
      n <- Entity.subscript p Entity.K_name ;;
      ns <- names_of es' ;;
      Ok (n :: ns)
  end.

Section Formatting.

Context {rt : Runtime}.

(** Two renderings are left to the Python runtime.  [percent_2f a b] is
    [f"{(a / b) * 100:.2f}"] for [b > 0], [None] when the true division
    raises [OverflowError]; [local_date ms] is
    [datetime.fromtimestamp(ms / 1000).strftime('%Y-%m-%d')], [None] when
    it raises. *)
Variable percent_2f : Z -> Z -> option string.
Variable local_date : Z -> option string.

Definition rate_2f (part whole : Z) : result string :=
  if whole >? 0 then
    match percent_2f part whole with
    | Some s => Ok s
    | None => Raise OverflowError
    end
  else Ok "100.00".

Definition check_jobs (r : response (listing Job.t))
           (period_hours warning_threshold critical_threshold : Z)
  : result (Z * string) :=
  data <- api_request r ;;
  let stats := Jobs.count data in
  let failed := Jobs.failed stats in
  let completed_jobs := Jobs.ok stats + Jobs.warning stats + Jobs.error stats in
  success_rate <- rate_2f (Jobs.ok stats) completed_jobs ;;
  let '(exit_code, status_label) :=
    if failed >=? critical_threshold then (EXIT_CRITICAL, "CRITICAL")
    else if failed >=? warning_threshold then (EXIT_WARNING, "WARNING")
    else (EXIT_OK, "OK") in
  let message := status_label ++ ": HYCU jobs over " ++ str period_hours ++ "h - "
                 ++ str failed ++ " failed (" ++ str (Jobs.error stats) ++ " errors, "
                 ++ str (Jobs.warning stats) ++ " warnings), "
                 ++ str (Jobs.ok stats) ++ " successful, "
                 ++ str (Jobs.running stats) ++ " running" in
  let perfdata := "|"
                  ++ "jobs_ok=" ++ str (Jobs.ok stats) ++ ";;;0; "
                  ++ "jobs_warning=" ++ str (Jobs.warning stats) ++ ";;;0; "
                  ++ "jobs_error=" ++ str (Jobs.error stats) ++ ";;;0; "
                  ++ "jobs_failed=" ++ str failed ++ ";"
                  ++ str warning_threshold ++ ";" ++ str critical_threshold ++ ";0; "
                  ++ "jobs_running=" ++ str (Jobs.running stats) ++ ";;;0; "
                  ++ "success_rate=" ++ success_rate ++ "%;;;0;100" in
  let output := message ++ " " ++ perfdata in
  Ok (exit_code, output).

(** The branch of [check_policy_advanced] for a name that matched no
    policy: list the names of a fresh listing, then [sys.exit]. *)
Definition policy_not_found {A} (relist : response (listing Entity.t))
           (policy_name : string) : result A :=
  let plain := [Line ("CRITICAL: Policy '" ++ policy_name ++ "' does not exist")] in
  let printed :=
    match (data <- api_request relist ;; names_of (entities_or_empty data)) with
    | Ok available_names =>
        match available_names with
        | [] => [Line ("CRITICAL: Policy '" ++ policy_name
                       ++ "' does not exist (no policies found)")]
        | _ =>
            (plain
             ++ [Line ("Available policies: " ++ join ", " (slice_to 5 available_names))]
             ++ (if (Z.of_nat (List.length available_names) >? 5)
                 then [Line ("... and "
                             ++ str (Z.of_nat (List.length available_names) - 5)
                             ++ " more")]
                 else []))%list
        end
    | Raise _ => plain
    end in
  sys_exit EXIT_CRITICAL printed.

Definition check_policy_advanced
           (r relist : response (listing Entity.t)) (detail : response (listing Policy.t))
           (policy_name : string) (warning_threshold critical_threshold : Z)
  : result (Z * string) :=
  data <- api_request r ;;
  policy_uuid <- find_policy (lower policy_name) (entities_or_empty data) ;;
  if negb (truthy_opt policy_uuid) then policy_not_found relist policy_name
  else
    data <- api_request detail ;;
    es <- getitem "entities" (entities data) ;;
    policy <- first es ;;
    let vms_total := get (Policy.vmsCount policy) 0 in
    let vms_compliant := get (Policy.compliantVmsCount policy) 0 in
    let vms_uncompliant := get (Policy.uncompliantVmsCount policy) 0 in
    let shares_total := get (Policy.sharesCount policy) 0 in
    let shares_compliant := get (Policy.compliantSharesCount policy) 0 in
    let shares_uncompliant := get (Policy.uncompliantSharesCount policy) 0 in
    let apps_total := get (Policy.appsCount policy) 0 in
    let apps_compliant := get (Policy.compliantAppsCount policy) 0 in
    let apps_uncompliant := get (Policy.uncompliantAppsCount policy) 0 in
    let buckets_total := get (Policy.bucketsCount policy) 0 in
    let buckets_compliant := get (Policy.compliantBucketsCount policy) 0 in
    let vgs_total := get (Policy.vgsCount policy) 0 in
    let vgs_compliant := get (Policy.compliantVgsCount policy) 0 in
    let total_objects := Policy.total_objects policy in
    let total_compliant := Policy.total_compliant policy in
    let total_uncompliant := Policy.total_uncompliant policy in
    compliance_rate <- rate_2f total_compliant total_objects ;;
    let uncompliant_count := total_uncompliant in
    let '(exit_code, status_label) :=
      if uncompliant_count >=? critical_threshold then (EXIT_CRITICAL, "CRITICAL")
      else if uncompliant_count >=? warning_threshold then (EXIT_WARNING, "WARNING")
      else (EXIT_OK, "OK") in
    let message := status_label ++ ": Policy '" ++ opt_str (Policy.name policy) ++ "' - "
                   ++ str total_compliant ++ "/" ++ str total_objects
                   ++ " objects compliant ("
                   ++ str vms_compliant ++ "/" ++ str vms_total ++ " VMs, "
                   ++ str shares_compliant ++ "/" ++ str shares_total ++ " shares, "
                   ++ str apps_compliant ++ "/" ++ str apps_total ++ " apps, "
                   ++ str buckets_compliant ++ "/" ++ str buckets_total ++ " buckets, "
                   ++ str vgs_compliant ++ "/" ++ str vgs_total ++ " VGs)" in
    let perfdata := "|"
      ++ "total_objects=" ++ str total_objects ++ ";;;0; "
      ++ "compliant=" ++ str total_compliant ++ ";;;0; "
      ++ "uncompliant=" ++ str total_uncompliant ++ ";"
      ++ str warning_threshold ++ ";" ++ str critical_threshold ++ ";0; "
      ++ "vms_compliant=" ++ str vms_compliant ++ ";;;0;" ++ str vms_total ++ " "
      ++ "vms_uncompliant=" ++ str vms_uncompliant ++ ";;;0;" ++ str vms_total ++ " "
      ++ "shares_compliant=" ++ str shares_compliant ++ ";;;0;" ++ str shares_total ++ " "
      ++ "shares_uncompliant=" ++ str shares_uncompliant ++ ";;;0;" ++ str shares_total ++ " "
      ++ "apps_compliant=" ++ str apps_compliant ++ ";;;0;" ++ str apps_total ++ " "
      ++ "apps_uncompliant=" ++ str apps_uncompliant ++ ";;;0;" ++ str apps_total ++ " "
      ++ "compliance_rate=" ++ compliance_rate ++ "%;;;0;100" in
    let output := message ++ " " ++ perfdata in
    Ok (exit_code, output).

Definition check_license (r : response (listing License.t))
           (warning_days critical_days : Z) : result (Z * string) :=
  data <- api_request r ;;
  match entities_or_empty data with
  | [] => Ok (EXIT_CRITICAL, "CRITICAL: No license information found")
  | lic :: _ =>
      let company := get (License.companyName lic) "N/A" in
      let status := get (License.status lic) "UNKNOWN" in
      let days_left := get (License.daysLeft lic) 0 in
      let licensed_vms := get (License.licensedVms lic) 0 in
      let protected_vms := get (License.protectedVms lic) 0 in
      let licensed_sockets := get (License.licensedSockets lic) 0 in
      let actual_sockets := get (License.actualSockets lic) 0 in
      let exp_date_str :=
        match License.expirationDate lic with
        | Some expiration_date =>
            if expiration_date =? 0 then "N/A"
            else get (local_date expiration_date) "N/A"
        | None => "N/A"
        end in
      let '(exit_code, status_label) :=
        if days_left <=? critical_days then (EXIT_CRITICAL, "CRITICAL")
        else if days_left <=? warning_days then (EXIT_WARNING, "WARNING")
        else (EXIT_OK, "OK") in
      let message := status_label ++ ": License '" ++ company ++ "' - "
                     ++ str days_left ++ " days left (expires " ++ exp_date_str ++ "), "
                     ++ "Status: " ++ status ++ ", VMs: "
                     ++ str protected_vms ++ "/" ++ str licensed_vms ++ ", "
                     ++ "Sockets: " ++ str actual_sockets ++ "/" ++ str licensed_sockets in
      let perfdata := "|"
        ++ "days_left=" ++ str days_left ++ ";" ++ str warning_days ++ ";"
        ++ str critical_days ++ ";0; "
        ++ "vms_protected=" ++ str protected_vms ++ ";;;0;" ++ str licensed_vms ++ " "
        ++ "vms_licensed=" ++ str licensed_vms ++ ";;;0; "
        ++ "sockets_actual=" ++ str actual_sockets ++ ";;;0;" ++ str licensed_sockets ++ " "
        ++ "sockets_licensed=" ++ str licensed_sockets ++ ";;;0;" in
      let output := message ++ " " ++ perfdata in
      Ok (exit_code, output)
  end.

End Formatting.

(** *** unassigned *)

Module Unassigned.

(** One category of the handler: [unassigned_objects[cat]] and
    [stats[cat]], which the loops update together. *)
Record category := {
  objects : list string;
  count : Z
}.

Definition empty : category := {| objects := []; count := 0 |}.

Definition add (n : string) (c : category) : category :=
  {| objects := objects c ++ [n]; count := count c + 1 |}.

(** [not protection_group], for [protection_group = e.get('protectionGroupName')]. *)
Definition no_policy (e : Entity.t) : bool :=
  negb (truthy_opt (Entity.protectionGroupName e)).

Definition vm_step (c : category) (vm : Entity.t) : category :=
  if no_policy vm then add (get (Entity.vmName vm) "Unknown") c else c.

Definition share_step (c : category) (share : Entity.t) : category :=
  if negb (Storage.is_share share) then c
  else if no_policy share then add (get (Entity.shareName share) "Unknown") c else c.

Definition bucket_step (c : category) (bucket : Entity.t) : category :=
  if negb (Storage.is_bucket bucket) then c
  else if no_policy bucket then add (get (Entity.shareName bucket) "Unknown") c else c.

Definition app_step (c : category) (app : Entity.t) : category :=
  if no_policy app then add (get (Entity.name app) "Unknown") c else c.

Definition vg_step (c : category) (vg : Entity.t) : category :=
  if no_policy vg then add (get (Entity.name vg) "Unknown") c else c.

(** [if 'entities' in data: for e in data['entities']: ...]. *)
Definition scan (step : category -> Entity.t -> category) (data : listing Entity.t)
  : category :=
  match entities data with
  | Some es => fold_left step es empty
  | None => empty
  end.

(** Reading the local variable [data], which is unbound until an
    [api_request] has returned. *)
Definition local (data : option (listing Entity.t)) : result (listing Entity.t) :=
  match data with
  | Some d => Ok d
  | None => Raise (UnboundLocalError "data")
  end.

(** The text [details] holds for one category. *)
Definition detail (label : string) (c : category) : list string :=
  if count c >? 0 then
    let l := join ", " (slice_to 10 (objects c)) in
    let l := if count c >? 10 then l ++ " (+" ++ str (count c - 10) ++ " more)" else l in
    [label ++ ": " ++ l]
  else [].

(** The five [try] blocks of [check_unassigned]: what they leave in
    [unassigned_objects] and [stats]. *)
Record found := {
  vms : category;
  shares : category;
  buckets : category;
  apps : category;
  vgs : category
}.

Definition collect (r_vms r_shares r_apps r_vgs : response (listing Entity.t))
  : result found :=
  let data := None in
  (* Check VMs *)
  '(data, vms) <-
    try_except (d <- api_request r_vms ;; Ok (Some d, scan vm_step d))
               (fun _ => Ok (data, empty)) ;;
  (* Check Shares (NFS/SMB only) *)
  '(data, shares) <-
    try_except (d <- api_request r_shares ;; Ok (Some d, scan share_step d))
               (fun _ => Ok (data, empty)) ;;
  (* Check Buckets (S3) - using same data from shares endpoint *)
  buckets <-
    try_except (d <- local data ;; Ok (scan bucket_step d))
               (fun _ => Ok empty) ;;
  (* Check Applications *)
  '(data, apps) <-
    try_except (d <- api_request r_apps ;; Ok (Some d, scan app_step d))
               (fun _ => Ok (data, empty)) ;;
  (* Check Volume Groups *)
  '(data, vgs) <-
    try_except (d <- api_request r_vgs ;; Ok (Some d, scan vg_step d))
               (fun _ => Ok (data, empty)) ;;
  Ok {| vms := vms; shares := shares; buckets := buckets; apps := apps; vgs := vgs |}.

(** [stats['total']]. *)
Definition total (f : found) : Z :=
  count (vms f) + count (shares f) + count (buckets f) + count (apps f) + count (vgs f).

End Unassigned.

Definition check_unassigned (r_vms r_shares r_apps r_vgs : response (listing Entity.t))
           (warning_threshold critical_threshold : Z) : result (Z * string) :=
  f <- Unassigned.collect r_vms r_shares r_apps r_vgs ;;
  let vms := Unassigned.count (Unassigned.vms f) in
  let shares := Unassigned.count (Unassigned.shares f) in
  let buckets := Unassigned.count (Unassigned.buckets f) in
  let apps := Unassigned.count (Unassigned.apps f) in
  let vgs := Unassigned.count (Unassigned.vgs f) in
  let total := Unassigned.total f in
  let '(exit_code, status_label) :=
    if total >=? critical_threshold then (EXIT_CRITICAL, "CRITICAL")
    else if total >=? warning_threshold then (EXIT_WARNING, "WARNING")
    else (EXIT_OK, "OK") in
  let message := status_label ++ ": " ++ str total ++ " unassigned objects - "
                 ++ str vms ++ " VMs, " ++ str shares ++ " shares, "
                 ++ str buckets ++ " buckets, "
                 ++ str apps ++ " apps, " ++ str vgs ++ " VGs" in
  let details := (Unassigned.detail "VMs" (Unassigned.vms f)
                  ++ Unassigned.detail "Shares" (Unassigned.shares f)
                  ++ Unassigned.detail "Buckets" (Unassigned.buckets f)
                  ++ Unassigned.detail "Apps" (Unassigned.apps f)
                  ++ Unassigned.detail "VGs" (Unassigned.vgs f))%list in
  let message :=
    match details with
    | [] => message
    | _ => message ++ " | " ++ join " / " details
    end in
  let perfdata := "|"
    ++ "unassigned_total=" ++ str total ++ ";"
    ++ str warning_threshold ++ ";" ++ str critical_threshold ++ ";0; "
    ++ "unassigned_vms=" ++ str vms ++ ";;;0; "
    ++ "unassigned_shares=" ++ str shares ++ ";;;0; "
    ++ "unassigned_buckets=" ++ str buckets ++ ";;;0; "
    ++ "unassigned_apps=" ++ str apps ++ ";;;0; "
    ++ "unassigned_vgs=" ++ str vgs ++ ";;;0;" in
  let output := message ++ " " ++ perfdata in
  Ok (exit_code, output).

(** ** The HTTP call inside [api_request] *)

Module Http.

(** What [requests.get(...)] and [response.json()] do in one call: one of
    the exceptions the function catches, named by the [except] clause that
    catches it ([RequestException] carries [str(e)]); the [ValueError] the
    library raises for a timeout that is not positive, with its [str(e)];
    or a response with its status code, its text and the document its body
    decodes to. *)
Inductive outcome (A : Type) :=
| Timeout
| ConnectionError
| RequestException (text : string)
| JSONDecodeError
| BadTimeout (text : string)
| Response (status_code : Z) (text : string) (json : A).
Arguments Timeout {A}.
Arguments BadTimeout {A} text.
Arguments ConnectionError {A}.
Arguments RequestException {A} text.
Arguments JSONDecodeError {A}.
Arguments Response {A} status_code text json.

(** The body of [api_request]: the document, the message of the
    [HycuAPIError] it raises, or the exception it lets through. *)
Definition api_request {A} (timeout : Z) (o : outcome A) : response A :=
  match o with
  | Response status_code text json =>
      if status_code =? 401 then Failed "Authentication failed. Check your API token."
      else if status_code =? 403 then Failed "Access forbidden. Check API token permissions."
      else if status_code =? 404 then Failed "Resource not found."
      else if status_code >=? 500 then Failed ("HYCU server error: " ++ str status_code)
      else if negb (status_code =? 200) then
        Failed ("HTTP " ++ str status_code ++ ": " ++ text)
      else Json json
  | Timeout => Failed ("Request timeout after " ++ str timeout ++ " seconds")
  | ConnectionError => Failed "Connection error. Check host address and network."
  | RequestException text => Failed ("Request failed: " ++ text)
  | JSONDecodeError => Failed "Invalid JSON response from API"
  | BadTimeout text => Uncaught text
  end.

End Http.

(** ** The remaining handlers *)

(** The record of /mom/dashboards/vms. *)
Module Dashboard.
Record t := {
  totalCount : option Z;
  protectedCount : option Z;
  unprotectedCount : option Z;
  compliancyGreenCount : option Z;
  compliancyRedCount : option Z;
  compliancyGreyCount : option Z
}.
End Dashboard.

(** The record of /administration/controller. *)
Module Controller.
Record t := {
  controllerVmName : option string;
  softwareVersion : option string;
  buildVersion : option string;
  externalHypervisorType : option string
}.
End Controller.

Definition check_policy_compliance (r : response (listing Policy.t)) (policy_name : string)
  : result (Z * string) :=
  data <- api_request r ;;
  es <- getitem "entities" (entities data) ;;
  policy <- first es ;;
  let policy_name_from_api := get (Policy.name policy) policy_name in
  let policy_status := get (Policy.compliancyStatus policy) "UNKNOWN" in
  let compliant_vms := get (Policy.compliantVmsCount policy) 0 in
  let status_map :=
    [ ("GREEN", (EXIT_OK, 2));
      ("WARNING", (EXIT_WARNING, 1));
      ("RED", (EXIT_CRITICAL, 0)) ] in
  let '(exit_code, numeric_status) :=
    Table.get status_map policy_status (EXIT_UNKNOWN, 1) in
  let output := policy_name_from_api ++ " is " ++ policy_status ++ " including "
                ++ str compliant_vms ++ " VMs "
                ++ "|policy_status=" ++ str numeric_status ++ ";;; compliant_vms="
                ++ str compliant_vms ++ ";;;" in
  Ok (exit_code, output).

Definition check_manager_protected (r : response (listing Dashboard.t))
  : result (Z * string) :=
  data <- api_request r ;;
  es <- getitem "entities" (entities data) ;;
  dashboard <- first es ;;
  let total_count := get (Dashboard.totalCount dashboard) 0 in
  let protected_count := get (Dashboard.protectedCount dashboard) 0 in
  let unprotected_count := get (Dashboard.unprotectedCount dashboard) 0 in
  let exit_code := if unprotected_count =? 0 then EXIT_OK else EXIT_CRITICAL in
  let output := str unprotected_count ++ " VMs not protected out of " ++ str total_count
                ++ " total "
                ++ "|vms_unprotected=" ++ str unprotected_count ++ ";;; vms_protected="
                ++ str protected_count ++ ";;; "
                ++ "vms_total=" ++ str total_count ++ ";;;" in
  Ok (exit_code, output).

Definition check_manager_compliance (r : response (listing Dashboard.t))
  : result (Z * string) :=
  data <- api_request r ;;
  es <- getitem "entities" (entities data) ;;
  dashboard <- first es ;;
  let compliance_green := get (Dashboard.compliancyGreenCount dashboard) 0 in
  let compliance_red := get (Dashboard.compliancyRedCount dashboard) 0 in
  let compliance_grey := get (Dashboard.compliancyGreyCount dashboard) 0 in
  let exit_code := if compliance_red =? 0 then EXIT_OK else EXIT_CRITICAL in
  let output := str compliance_red ++ " VMs with non-compliant backups "
                ++ "|vms_noncompliant=" ++ str compliance_red ++ ";;; vms_compliant="
                ++ str compliance_green ++ ";;; "
                ++ "vms_unknown=" ++ str compliance_grey ++ ";;;" in
  Ok (exit_code, output).

Definition check_version (r : response (listing Controller.t)) : result (Z * string) :=
  data <- api_request r ;;
  match entities_or_empty data with
  | [] => Ok (EXIT_WARNING, "WARNING: Controller information not available")
  | ctrl :: _ =>
      let controller_name := get (Controller.controllerVmName ctrl) "N/A" in
      let software_version := get (Controller.softwareVersion ctrl) "N/A" in
      let build_version := get (Controller.buildVersion ctrl) "N/A" in
      let hypervisor_type := get (Controller.externalHypervisorType ctrl) "N/A" in
      let message := "OK: HYCU Controller '" ++ controller_name ++ "' - "
                     ++ "Version " ++ software_version ++ " (Build " ++ build_version ++ "), "
                     ++ "Hypervisor: " ++ hypervisor_type in
      let output := message in
      Ok (EXIT_OK, output)
  end.

(** *** port *)

Module Socket.

(** What the [try] block of [check_port] meets: [connect_ex] returns its
    code after [response_time_ms] milliseconds, or one of the exceptions of
    the three [except] clauses ([OtherError] carries [str(e)]). *)
Inductive outcome :=
| ConnectEx (result : Z) (response_time_ms : Z)
| GaiError
| SocketTimeout
| OtherError (text : string).

End Socket.

Definition check_port (host : string) (port timeout : Z) (o : Socket.outcome)
  : Z * string :=
  match o with
  | Socket.ConnectEx result response_time_ms =>
      let '(exit_code, message, perfdata) :=
        if result =? 0 then
          (EXIT_OK,
           "OK: Port " ++ str port ++ " is OPEN on " ++ host ++ " (response time: "
           ++ str response_time_ms ++ "ms)",
           "|response_time=" ++ str response_time_ms ++ "ms;;;0;")
        else
          (EXIT_CRITICAL,
           "CRITICAL: Port " ++ str port ++ " is CLOSED on " ++ host,
           "|response_time=0ms;;;0;") in
      let output := message ++ " " ++ perfdata in
      (exit_code, output)
  | Socket.GaiError =>
      (EXIT_CRITICAL, "CRITICAL: Cannot resolve hostname " ++ host ++ " - DNS error")
  | Socket.SocketTimeout =>
      (EXIT_CRITICAL,
       "CRITICAL: Port " ++ str port ++ " on " ++ host ++ " - Connection timeout after "
       ++ str timeout ++ "s")
  | Socket.OtherError text =>
      (EXIT_CRITICAL, "CRITICAL: Port check failed - " ++ text)
  end.

(** ** [main] *)

(** What each request of one run meets, by endpoint; [targets_again] and
    [policies_again] are the second listing a not-found branch asks for. *)
Module World.
Record t := {
  vms : response (listing Entity.t);
  backups : response (listing Backup.t);
  targets : response (listing Entity.t);
  targets_again : response (listing Entity.t);
  target : response Target.document;
  policies : response (listing Entity.t);
  policies_again : response (listing Entity.t);
  policy : response (listing Policy.t);
  dashboards : response (listing Dashboard.t);
  jobs : response (listing Job.t);
  license : response (listing License.t);
  controller : response (listing Controller.t);
  shares : response (listing Entity.t);
  applications : response (listing Entity.t);
  volumegroups : response (listing Entity.t);
  connect : Socket.outcome
}.
End World.

(** The not-found branch of the target check: list the names of a fresh
    listing, then [sys.exit]. *)
Definition target_not_found {A} (relist : response (listing Entity.t))
           (vmtarget : string) : result A :=
  let plain := [Line ("CRITICAL: Target '" ++ vmtarget ++ "' does not exist")] in
  let printed :=
    match (data <- api_request relist ;; names_of (entities_or_empty data)) with
    | Ok available_names =>
        match available_names with
        | [] => [Line ("CRITICAL: Target '" ++ vmtarget
                       ++ "' does not exist (no targets found)")]
        | _ =>
            (plain
             ++ [Line ("Available targets: " ++ join ", " (slice_to 5 available_names))]
             ++ (if (Z.of_nat (List.length available_names) >? 5)
                 then [Line ("... and "
                             ++ str (Z.of_nat (List.length available_names) - 5)
                             ++ " more")]
                 else []))%list
        end
    | Raise _ => plain
    end in
  sys_exit EXIT_CRITICAL printed.

Section Main.

Context {rt : Runtime}.

(** [str_exn e] is [str(e)] for the exception the last [except] clause of
    [main] catches; it is left to the Python runtime, with the two
    renderings of the handlers. *)
Variable percent_2f : Z -> Z -> option string.
Variable local_date : Z -> option string.
Variable str_exn : exn -> string.

(** The [if]/[elif] chain of [main].  [parse_arguments] has set
    [options.host] and [options.vmtarget] by then. *)
Definition dispatch (options : Values) (w : World.t) : result (Z * string) :=
  let target_name := opt_str (vmtarget options) in
  let host_name := opt_str (host options) in
  if opt_is (scantype options) "vm" then
    uuid <- get_entity_uuid (World.vms w) target_name Entity.K_vmName ;;
    match uuid with
    | None => sys_exit EXIT_CRITICAL [Line ("CRITICAL: VM '" ++ target_name ++ "' does not exist")]
    | Some _ => check_vm_backup (World.backups w) target_name
    end
  else if opt_is (scantype options) "vmid" then
    check_vm_backup (World.backups w) target_name
  else if opt_is (scantype options) "target" then
    uuid <- get_entity_uuid (World.targets w) target_name Entity.K_name ;;
    match uuid with
    | None => target_not_found (World.targets_again w) target_name
    | Some _ => check_target_health (World.target w) target_name
    end
  else if opt_is (scantype options) "archive" then
    uuid <- get_entity_uuid (World.vms w) target_name Entity.K_vmName ;;
    match uuid with
    | None => sys_exit EXIT_CRITICAL [Line ("CRITICAL: VM '" ++ target_name ++ "' does not exist")]
    | Some _ => check_archive_status (World.backups w) target_name
    end
  else if opt_is (scantype options) "policy" then
    uuid <- get_entity_uuid (World.policies w) target_name Entity.K_name ;;
    match uuid with
    | None =>
        sys_exit EXIT_CRITICAL [Line ("CRITICAL: Policy '" ++ target_name ++ "' does not exist")]
    | Some _ => check_policy_compliance (World.policy w) target_name
    end
  else if opt_is (scantype options) "policy-advanced" then
    check_policy_advanced percent_2f (World.policies w) (World.policies_again w)
                          (World.policy w) target_name
                          (warning_threshold options) (critical_threshold options)
  else if opt_is (scantype options) "manager" then
    if (target_name =? "protected")%string then check_manager_protected (World.dashboards w)
    else if (target_name =? "compliance")%string then check_manager_compliance (World.dashboards w)
    else sys_exit EXIT_UNKNOWN
                  [Line "ERROR: For manager type, use -n protected or -n compliance"]
  else if opt_is (scantype options) "jobs" then
    check_jobs percent_2f (World.jobs w) (period_hours options)
               (warning_threshold options) (critical_threshold options)
  else if opt_is (scantype options) "license" then
    check_license local_date (World.license w)
                  (warning_threshold options) (critical_threshold options)
  else if opt_is (scantype options) "version" then
    check_version (World.controller w)
  else if opt_is (scantype options) "backup-validation" then
    check_backup_validation (World.jobs w) (period_hours options)
                            (warning_threshold options) (critical_threshold options)
  else if opt_is (scantype options) "shares" then
    check_shares (World.shares w) (warning_threshold options) (critical_threshold options)
  else if opt_is (scantype options) "buckets" then
    check_buckets (World.shares w) (warning_threshold options) (critical_threshold options)
  else if opt_is (scantype options) "port" then
    match (if truthy_opt (vmtarget options)
              && negb (opt_is (vmtarget options) "port")
           then int target_name else Some 8443) with
    | None =>
        sys_exit EXIT_UNKNOWN
                 [Line ("ERROR: Port number must be an integer, got '" ++ target_name ++ "'")]
    | Some port =>
        let timeout := Z.min (timeout options) 30 in
        Ok (check_port host_name port timeout (World.connect w))
    end
  else if opt_is (scantype options) "unassigned" then
    check_unassigned (World.vms w) (World.shares w) (World.applications w)
                     (World.volumegroups w)
                     (warning_threshold options) (critical_threshold options)
  else
    sys_exit EXIT_UNKNOWN
             [Line ("ERROR: Unknown scan type '" ++ opt_str (scantype options) ++ "'")].

(** The [try] block of [main], which ends in [sys.exit] on every path. *)
Definition run (options : Values) (w : World.t) : result Empty_set :=
  options <- parse_arguments options ;;
  '(exit_code, output) <- dispatch options w ;;
  sys_exit exit_code [Line output].

(** The process as its caller sees it: the exit status and what was
    written. *)
Definition main (options : Values) (w : World.t) : Z * list output :=
  match run options w with
  | Ok impossible => match impossible with end
  | Raise (SystemExit code out) => (code, out)
  | Raise (HycuAPIError msg) => (EXIT_CRITICAL, [Line ("CRITICAL: API Error - " ++ msg)])
  | Raise e => (EXIT_UNKNOWN, [Line ("UNKNOWN: Unexpected error - " ++ str_exn e)])
  end.

End Main.

(** * Vocabulary of the properties *)

(** What a handler hands back to [main]: an exit code, and for the
    handlers that print their own label, the label the output starts
    with. *)
Definition exits_with (r : result (Z * string)) (code : Z) : Prop :=
  exists output, r = Ok (code, output).

Definition reports (r : result (Z * string)) (code : Z) (label : string) : Prop :=
  exists output, r = Ok (code, output) /\ startswith (label ++ ": ") output = true.

(** The three severities of a threshold comparison. *)
Definition CRITICAL (r : result (Z * string)) : Prop := reports r EXIT_CRITICAL "CRITICAL".
Definition WARNING (r : result (Z * string)) : Prop := reports r EXIT_WARNING "WARNING".
Definition OK (r : result (Z * string)) : Prop := reports r EXIT_OK "OK".

(** The check types whose thresholds [parse_arguments] validates. *)
Definition threshold_types : list string :=
  ["jobs"; "policy-advanced"; "license"; "backup-validation"; "shares"; "buckets"; "unassigned"].

(** The classification of a bad count [n] against the thresholds. *)
Definition shape_B (n w c : Z) (r : result (Z * string)) : Prop :=
  (n >= c -> CRITICAL r)
  /\ (w <= n < c -> WARNING r)
  /\ (n < w -> OK r).

(** The true division of a part by its whole does not overflow. *)
Definition renders_ratios (percent_2f : Z -> Z -> option string) : Prop :=
  forall part whole, 0 <= part <= whole -> 0 < whole ->
                     exists s, percent_2f part whole = Some s.

(** [status in ['PROTECTED', 'UNPROTECTED']], the test both loops make
    after their protocol filter. *)
Definition defined_status (e : Entity.t) : bool :=
  str_in (get (Entity.status e) "UNKNOWN") ["PROTECTED"; "UNPROTECTED"].

(** The four classes of an entry: counted by [check_shares], counted by
    [check_buckets], passed by a protocol filter but dropped for its status,
    and dropped by both protocol filters. *)
Definition in_shares_domain (e : Entity.t) : bool :=
  Storage.is_share e && defined_status e.

Definition in_buckets_domain (e : Entity.t) : bool :=
  Storage.is_bucket e && defined_status e.

Definition excluded_undefined (e : Entity.t) : bool :=
  (Storage.is_share e || Storage.is_bucket e) && negb (defined_status e).

Definition excluded_other_protocol (e : Entity.t) : bool :=
  negb (Storage.is_share e) && negb (Storage.is_bucket e).

Definition classes (e : Entity.t) : list bool :=
  [in_shares_domain e; in_buckets_domain e; excluded_undefined e; excluded_other_protocol e].

Definition exactly_one (l : list bool) : Prop :=
  List.length (filter (fun b => b) l) = 1%nat.

(** An entry the resolver can read: it has the name field and a uuid. *)
Definition keyed (name_field : Entity.key) (e : Entity.t) : Prop :=
  Entity.field e name_field <> None /\ Entity.uuid e <> None.


(** What one [try] block leaves for its category: the scan of the document
    when the fetch returned, nothing when it failed. *)
Definition fetched (step : Unassigned.category -> Entity.t -> Unassigned.category)
           (r : response (listing Entity.t)) : Unassigned.category :=
  match r with
  | Json d => Unassigned.scan step d
  | Failed _ | Uncaught _ => Unassigned.empty
  end.

(** * Sample documents and command lines *)

Definition jobs_w10_c5 : Values :=
  {| apitoken := Some "TOKEN"; host := Some "192.168.1.100"; vmtarget := None;
     scantype := Some "jobs"; timeout := 100; verbose := false;
     warning_threshold := 10; critical_threshold := 5; period_hours := 24 |}.

(** The command line of the header comment and of the test harness:
    [-l 192.168.1.100 -t port -n 8443], no [-a]. *)
Definition port_without_token : Values :=
  {| apitoken := None; host := Some "192.168.1.100"; vmtarget := Some "8443";
     scantype := Some "port"; timeout := 100; verbose := false;
     warning_threshold := 5; critical_threshold := 10; period_hours := 24 |}.

Definition port_with_token : Values :=
  {| apitoken := Some "TOKEN"; host := Some "192.168.1.100"; vmtarget := Some "8443";
     scantype := Some "port"; timeout := 100; verbose := false;
     warning_threshold := 5; critical_threshold := 10; period_hours := 24 |}.

Definition target_listing_blue : Target.document :=
  {| Target.entities := Some [ {| Target.name := Some "nas01"; Target.health := Some "BLUE" |} ];
     Target.direct := {| Target.name := None; Target.health := None |} |}.

Definition target_direct_grey : Target.document :=
  {| Target.entities := None;
     Target.direct := {| Target.name := Some "nas01"; Target.health := Some "GREY" |} |}.

Definition target_no_health : Target.document :=
  {| Target.entities := Some [];
     Target.direct := {| Target.name := Some "nas01"; Target.health := None |} |}.

Definition backups_one (status : string) : listing Backup.t :=
  {| entities := Some [ {| Backup.status := Some status; Backup.type := Some "FULL";
                           Backup.vmName := Some "web01";
                           Backup.numberOfArchives := None;
                           Backup.numberOfFailedArchives := None |} ];
     metadata := Some {| grandTotalEntityCount := Some 1 |} |}.

Definition backups_archives (archives_ok archives_failed : option Z) : listing Backup.t :=
  {| entities := Some [ {| Backup.status := Some "OK"; Backup.type := Some "FULL";
                           Backup.vmName := Some "web01";
                           Backup.numberOfArchives := archives_ok;
                           Backup.numberOfFailedArchives := archives_failed |} ];
     metadata := Some {| grandTotalEntityCount := Some 3 |} |}.

Definition license_days (days : option Z) : listing License.t :=
  {| entities := Some [ {| License.companyName := Some "ACME"; License.type := None;
                           License.status := Some "ACTIVE"; License.daysLeft := days;
                           License.expirationDate := None; License.versionType := None;
                           License.licensedVms := Some 100; License.protectedVms := Some 42;
                           License.licensedSockets := Some 8;
                           License.actualSockets := Some 4 |} ];
     metadata := None |}.

Definition no_date : Z -> option string := fun _ => None.

Definition job (status : string) : Job.t :=
  {| Job.status := Some status; Job.type := Some "BACKUP"; Job.taskName := Some "nightly" |}.

Definition jobs_two_failed : listing Job.t :=
  {| entities := Some [job "ERROR"; job "Warning"; job "OK"];
     metadata := Some {| grandTotalEntityCount := Some 3 |} |}.

Definition jobs_none : listing Job.t := {| entities := Some []; metadata := None |}.

Definition share (protocols : list string) (status compliancy : string) : Entity.t :=
  {| Entity.uuid := Some "s-1"; Entity.name := None; Entity.vmName := None;
     Entity.shareName := Some "export"; Entity.protectionGroupName := Some "Gold";
     Entity.protocolTypeList := Some protocols;
     Entity.status := Some status; Entity.compliancyStatus := Some compliancy |}.

Definition shares_one_red : listing Entity.t :=
  {| entities := Some [share ["NFS"] "PROTECTED" "RED"; share ["S3"] "PROTECTED" "GREEN"];
     metadata := None |}.

Definition policy_entry : Entity.t :=
  {| Entity.uuid := Some "p-1"; Entity.name := Some "Gold"; Entity.vmName := None;
     Entity.shareName := None; Entity.protectionGroupName := None;
     Entity.protocolTypeList := None; Entity.status := None;
     Entity.compliancyStatus := None |}.

Definition policies_gold : listing Entity.t :=
  {| entities := Some [policy_entry]; metadata := None |}.

Definition policy_gold : Policy.t :=
  {| Policy.name := Some "Gold"; Policy.compliancyStatus := Some "RED";
     Policy.vmsCount := Some 4; Policy.compliantVmsCount := Some 2;
     Policy.uncompliantVmsCount := Some 2;
     Policy.sharesCount := Some 1; Policy.compliantSharesCount := Some 0;
     Policy.uncompliantSharesCount := Some 1;
     Policy.appsCount := None; Policy.compliantAppsCount := None;
     Policy.uncompliantAppsCount := None;
     Policy.bucketsCount := None; Policy.compliantBucketsCount := None;
     Policy.uncompliantBucketsCount := None;
     Policy.vgsCount := None; Policy.compliantVgsCount := None;
     Policy.uncompliantVgsCount := None |}.

Definition policy_gold_details : listing Policy.t :=
  {| entities := Some [policy_gold]; metadata := None |}.

Definition forty_percent : Z -> Z -> option string := fun _ _ => Some "40.00".

Definition nfs_only : Entity.t := share ["NFS"] "PROTECTED" "GREEN".
Definition nfs_and_s3 : Entity.t := share ["NFS"; "S3"] "PROTECTED" "GREEN".
Definition nfs_and_s3_undefined : Entity.t := share ["NFS"; "S3"] "UNDEFINED" "GREY".

Definition named (n u : string) : Entity.t :=
  {| Entity.uuid := Some u; Entity.name := Some n; Entity.vmName := None;
     Entity.shareName := None; Entity.protectionGroupName := None;
     Entity.protocolTypeList := None; Entity.status := None;
     Entity.compliancyStatus := None |}.

Definition targets_prod : listing Entity.t :=
  {| entities := Some [named "Prod" "u-1"; named "prod" "u-2"; named "Prod" "u-3"];
     metadata := None |}.

Definition targets_empty_uuid : listing Entity.t :=
  {| entities := Some [named "vm" "u-1"; named "VM" ""]; metadata := None |}.

Definition unassigned_vm (n : string) (protocols : option (list string)) : Entity.t :=
  {| Entity.uuid := Some "vm-1"; Entity.name := None; Entity.vmName := Some n;
     Entity.shareName := None; Entity.protectionGroupName := None;
     Entity.protocolTypeList := protocols; Entity.status := None;
     Entity.compliancyStatus := None |}.

Definition unassigned_share (n : string) (protocols : list string) : Entity.t :=
  {| Entity.uuid := Some "sh-1"; Entity.name := None; Entity.vmName := None;
     Entity.shareName := Some n; Entity.protectionGroupName := Some "";
     Entity.protocolTypeList := Some protocols; Entity.status := Some "UNPROTECTED";
     Entity.compliancyStatus := None |}.

Definition shares_two : listing Entity.t :=
  {| entities := Some [unassigned_share "home" ["NFS"; "SMB"]; unassigned_share "logs" ["S3"]];
     metadata := None |}.

Definition nothing : listing Entity.t := {| entities := Some []; metadata := None |}.


(** The [-n] value of an accepted port check: the dummy ['port'], or a
    decimal literal of a port number. *)
Definition valid_port_option `{Runtime} (vmtarget : option string) : Prop :=
  vmtarget = Some "port"
  \/ exists port_num, int (opt_str vmtarget) = Some port_num /\ 1 <= port_num <= 65535.

Definition options_for (ty : string) (target : option string) (w c period : Z) : Values :=
  {| apitoken := Some "TOKEN"; host := Some "192.168.1.100"; vmtarget := target;
     scantype := Some ty; timeout := 100; verbose := false;
     warning_threshold := w; critical_threshold := c; period_hours := period |}.

(** A job the jobs check counts as failed: its status, in upper case, is
    WARNING or ERROR. *)
Definition failed_job `{Runtime} (job : Job.t) : bool :=
  str_in (upper (get (Job.status job) "UNKNOWN")) ["WARNING"; "ERROR"].

(** A job the backup-validation check looks at: its type contains one of
    the two markers. *)
Definition validation_job (job : Job.t) : bool :=
  contains "VALIDATION" (get (Job.type job) "")
  || contains "RESTORE_VALIDATE" (get (Job.type job) "").

(** A protected entry whose compliance is RED or YELLOW. *)
Definition non_compliant_entry (e : Entity.t) : bool :=
  (get (Entity.status e) "UNKNOWN" =? "PROTECTED")%string
  && str_in (get (Entity.compliancyStatus e) "UNKNOWN") ["RED"; "YELLOW"].

Definition count_of {A} (p : A -> bool) (l : list A) : Z :=
  Z.of_nat (List.length (filter p l)).

(** The jobs the loop of the jobs check has put in a counter. *)
Definition jobs_seen (s : Jobs.stats) : Z :=
  Jobs.ok s + Jobs.warning s + Jobs.error s + Jobs.running s + Jobs.other s.

Definition typed_job (type status : string) : Job.t :=
  {| Job.status := Some status; Job.type := Some type; Job.taskName := None |}.

Definition dashboard_counts (unprotected red : option Z) : listing Dashboard.t :=
  {| entities := Some [ {| Dashboard.totalCount := Some 40; Dashboard.protectedCount := Some 38;
                           Dashboard.unprotectedCount := unprotected;
                           Dashboard.compliancyGreenCount := Some 30;
                           Dashboard.compliancyRedCount := red;
                           Dashboard.compliancyGreyCount := Some 8 |} ];
     metadata := None |}.

Definition policy_status (status : option string) : listing Policy.t :=
  {| entities := Some [ {| Policy.name := Some "Gold"; Policy.compliancyStatus := status;
                           Policy.vmsCount := Some 4; Policy.compliantVmsCount := Some 3;
                           Policy.uncompliantVmsCount := Some 1;
                           Policy.sharesCount := None; Policy.compliantSharesCount := None;
                           Policy.uncompliantSharesCount := None;
                           Policy.appsCount := None; Policy.compliantAppsCount := None;
                           Policy.uncompliantAppsCount := None;
                           Policy.bucketsCount := None; Policy.compliantBucketsCount := None;
                           Policy.uncompliantBucketsCount := None;
                           Policy.vgsCount := None; Policy.compliantVgsCount := None;
                           Policy.uncompliantVgsCount := None |} ];
     metadata := None |}.

Definition policies_twice : listing Entity.t :=
  {| entities := Some [named "Silver" "p-0"; named "gold" "p-2"; named "Gold" "p-1";
                       named "Gold" "p-3"; named "Bronze" "p-4"];
     metadata := None |}.

(** A result [main] turns into an exit status from 0 to 3. *)
Definition well_coded (r : result (Z * string)) : Prop :=
  match r with
  | Ok (code, _) => 0 <= code <= 3
  | Raise (SystemExit code _) => 0 <= code <= 3
  | Raise _ => True
  end.

(** A run in which every request fails with the same message. *)
Definition offline (msg : string) (connect : Socket.outcome) : World.t :=
  {| World.vms := Failed msg; World.backups := Failed msg;
     World.targets := Failed msg; World.targets_again := Failed msg;
     World.target := Failed msg;
     World.policies := Failed msg; World.policies_again := Failed msg;
     World.policy := Failed msg; World.dashboards := Failed msg;
     World.jobs := Failed msg; World.license := Failed msg;
     World.controller := Failed msg; World.shares := Failed msg;
     World.applications := Failed msg; World.volumegroups := Failed msg;
     World.connect := connect |}.

Definition str_of_exn (e : exn) : string :=
  match e with
  | KeyError key => "'" ++ key ++ "'"
  | IndexError => "list index out of range"
  | ValueError text => text
  | _ => "error"
  end.

(** A run in which every request raises the [ValueError] of a timeout
    that is not positive. *)
Definition bad_timeout (text : string) (connect : Socket.outcome) : World.t :=
  {| World.vms := Uncaught text; World.backups := Uncaught text;
     World.targets := Uncaught text; World.targets_again := Uncaught text;
     World.target := Uncaught text;
     World.policies := Uncaught text; World.policies_again := Uncaught text;
     World.policy := Uncaught text; World.dashboards := Uncaught text;
     World.jobs := Uncaught text; World.license := Uncaught text;
     World.controller := Uncaught text; World.shares := Uncaught text;
     World.applications := Uncaught text; World.volumegroups := Uncaught text;
     World.connect := connect |}.

(** The listing a name-resolving check of [main] looks its [-n] value up
    in, the field that holds the names, and the word its not-found message
    uses. *)
Definition resolved (ty : string) (w : World.t)
  : option (response (listing Entity.t) * Entity.key * string) :=
  if (ty =? "vm")%string || (ty =? "archive")%string
  then Some (World.vms w, Entity.K_vmName, "VM")
  else if (ty =? "target")%string then Some (World.targets w, Entity.K_name, "Target")
  else if (ty =? "policy")%string then Some (World.policies w, Entity.K_name, "Policy")
  else None.

(** What [main] leaves when a handler answers [(code, output)]. *)
Definition printed (answer : Z * string) : Z * list output :=
  (fst answer, [Line (snd answer)]).

(** A run in which only the targets listing is answered. *)
Definition with_targets (l : listing Entity.t) : World.t :=
  {| World.vms := Failed "down"; World.backups := Failed "down";
     World.targets := Json l; World.targets_again := Json l;
     World.target := Failed "down";
     World.policies := Failed "down"; World.policies_again := Failed "down";
     World.policy := Failed "down"; World.dashboards := Failed "down";
     World.jobs := Failed "down"; World.license := Failed "down";
     World.controller := Failed "down"; World.shares := Failed "down";
     World.applications := Failed "down"; World.volumegroups := Failed "down";
     World.connect := Socket.SocketTimeout |}.

Definition targets_unnamed : listing Entity.t :=
  {| entities := Some [named "Prod" "u-1"; unassigned_vm "web01" None]; metadata := None |}.

(** The runtime of the examples: the ASCII fragments, which are the
    Python methods on the ASCII text the examples use. *)
#[global] Instance ascii_runtime : Runtime :=
  {| lower := ascii_lower; upper := ascii_upper; int := ascii_int |}.

(** * Properties *)

Example int_port : ascii_int " 8_443 " = Some 8443.
Proof. reflexivity. Qed.

Example int_bad :
  ascii_int "84 43" = None /\ ascii_int "_1" = None /\ ascii_int "1__0" = None
  /\ ascii_int "-" = None.
Proof. repeat split; reflexivity. Qed.

Example str_neg : str (-120) = "-120".
Proof. reflexivity. Qed.

(** ** Thresholds *)

Lemma validate_thresholds_normal (w c : Z) :
  validate_thresholds w c false = Ok true <-> c >= w /\ w >= 0.
Proof.
  unfold validate_thresholds, sys_exit.
  destruct (w <? 0) eqn:Hw, (c <? 0) eqn:Hc, (c <? w) eqn:Hcw; simpl; rewrite ?Hcw;
    split; intros H; try discriminate; try reflexivity; lia.
Qed.

Lemma validate_thresholds_inverted (w c : Z) :
  validate_thresholds w c true = Ok true <-> w >= c /\ c >= 0.
Proof.
  unfold validate_thresholds, sys_exit.
  destruct (w <? 0) eqn:Hw, (c <? 0) eqn:Hc, (c >? w) eqn:Hcw; simpl; rewrite ?Hcw;
    split; intros H; try discriminate; try reflexivity; lia.
Qed.

Lemma validate_thresholds_exit (w c : Z) (inverted : bool) :
  validate_thresholds w c inverted = Ok true
  \/ exists msg, validate_thresholds w c inverted = Raise (SystemExit EXIT_UNKNOWN [Line msg]).
Proof.
  unfold validate_thresholds, sys_exit.
  destruct (w <? 0), (c <? 0), inverted, (c >? w), (c <? w); simpl; eauto.
Qed.

(** [parse_arguments], which [main] runs before it calls any handler, ends
    the process with code 3 when the thresholds of such a type are refused
    (or, before that, when a required argument is missing). *)
Lemma parse_arguments_refuses_thresholds {rt : Runtime} (o : Values) (ty : string) :
  scantype o = Some ty ->
  In ty threshold_types ->
  validate_thresholds (warning_threshold o) (critical_threshold o) (ty =? "license")%string
    <> Ok true ->
  exists out, parse_arguments o = Raise (SystemExit EXIT_UNKNOWN out).
Proof.
  intros Hty Hin Hbad.
  destruct o as [tok hst tgt sty tmo vrb w c per]; simpl in *; subst sty.
  destruct (validate_thresholds_exit w c (ty =? "license")%string) as [Hok | [msg Hexit]];
    [contradiction |].
  unfold threshold_types in Hin; simpl in Hin.
  repeat (destruct Hin as [<- | Hin]; [| ]); try contradiction;
    unfold parse_arguments; simpl in *;
    destruct (truthy_opt tok), (truthy_opt hst), (truthy_opt tgt); simpl;
    rewrite ?Hexit; simpl; eauto.
Qed.

(** C3. Threshold validation: in normal mode it succeeds exactly when
    critical >= warning >= 0, in inverted mode exactly when
    warning >= critical >= 0; when it does not succeed it exits with code 3
    (UNKNOWN), and so does [parse_arguments], before any handler is
    called. *)
Theorem validate_thresholds_spec {rt : Runtime} (w c : Z) :
  (validate_thresholds w c false = Ok true <-> c >= w /\ w >= 0)
  /\ (validate_thresholds w c true = Ok true <-> w >= c /\ c >= 0)
  /\ (forall inverted,
         validate_thresholds w c inverted = Ok true
         \/ exists msg,
             validate_thresholds w c inverted = Raise (SystemExit EXIT_UNKNOWN [Line msg]))
  /\ (forall o ty,
         scantype o = Some ty -> In ty threshold_types ->
         warning_threshold o = w -> critical_threshold o = c ->
         validate_thresholds w c (ty =? "license")%string <> Ok true ->
         exists out, parse_arguments o = Raise (SystemExit EXIT_UNKNOWN out)).
Proof.
  split; [apply validate_thresholds_normal |].
  split; [apply validate_thresholds_inverted |].
  split; [intros inverted; apply validate_thresholds_exit |].
  intros o ty Hty Hin <- <- Hbad.
  now apply parse_arguments_refuses_thresholds with (ty := ty).
Qed.

Lemma validate_thresholds_spec_witness :
  validate_thresholds 5 10 false = Ok true
  /\ validate_thresholds 30 7 true = Ok true
  /\ exists out, parse_arguments jobs_w10_c5 = Raise (SystemExit EXIT_UNKNOWN out).
Proof.
  split; [| split].
  - apply (proj1 (validate_thresholds_spec 5 10)). lia.
  - apply (proj1 (proj2 (validate_thresholds_spec 30 7))). lia.
  - apply (proj2 (proj2 (proj2 (validate_thresholds_spec 10 5))) jobs_w10_c5 "jobs").
    + reflexivity.
    + simpl. tauto.
    + reflexivity.
    + reflexivity.
    + vm_compute. discriminate.
Defined.

(** ** Required arguments *)

(** ['port'] is listed in [types_without_token] only, and that list is
    consulted under [types_without_vmtarget]: a port check goes through the
    branch that requires all four arguments. *)
Lemma parse_arguments_port_needs_token {rt : Runtime} (o : Values) :
  scantype o = Some "port" ->
  truthy_opt (apitoken o) = false ->
  parse_arguments o = Raise (SystemExit EXIT_UNKNOWN [Help]).
Proof.
  intros Hty Htok.
  destruct o as [tok hst tgt sty tmo vrb w c per]; simpl in *; subst sty.
  unfold parse_arguments; simpl. rewrite Htok. reflexivity.
Qed.

Example parse_arguments_port_with_token :
  parse_arguments port_with_token = Ok port_with_token.
Proof. reflexivity. Qed.

(** C1. A port check without [-a]: the code prints the usage text and
    exits with code 3 instead of going on to the probe. *)
Theorem parse_arguments_port_without_token {rt : Runtime} :
  parse_arguments port_without_token = Raise (SystemExit EXIT_UNKNOWN [Help]).
Proof. reflexivity. Qed.

(** ** Handlers of shape A *)

Lemma Table_get_miss {V} (table : list (string * V)) (key : string) (default : V) :
  ~ In key (map fst table) -> Table.get table key default = default.
Proof.
  induction table as [| [k v] table IH]; simpl; intros Hnot; [reflexivity |].
  destruct (String.eqb_spec k key) as [-> | _]; [tauto | apply IH; tauto].
Qed.

(** C9. The target handler reads the health field of the target record
    (the first entry of a non-empty ['entities'], else the answer itself)
    through a fixed table: GREEN is OK, GREY and GRAY are WARNING, RED is
    CRITICAL; any other string, and an absent field, is UNKNOWN. *)
Theorem check_target_health_table (data : Target.document) (target_name : string) :
  let health := Target.health (Target.target_data data) in
  let r := check_target_health (Json data) target_name in
  (health = Some "GREEN" -> exits_with r EXIT_OK)
  /\ (health = Some "GREY" \/ health = Some "GRAY" -> exits_with r EXIT_WARNING)
  /\ (health = Some "RED" -> exits_with r EXIT_CRITICAL)
  /\ (forall s, health = Some s -> ~ In s ["GREEN"; "GREY"; "RED"; "GRAY"] ->
      exits_with r EXIT_UNKNOWN)
  /\ (health = None -> exits_with r EXIT_UNKNOWN).
Proof.
  intros health r; subst health r.
  unfold check_target_health, exits_with, api_request, bind.
  repeat split.
  - intros ->; simpl; eauto.
  - intros [-> | ->]; simpl; eauto.
  - intros ->; simpl; eauto.
  - intros s -> Hs. cbn [get].
    rewrite Table_get_miss by exact Hs. eauto.
  - intros ->; simpl; eauto.
Qed.

Lemma check_target_health_table_witness :
  exits_with (check_target_health (Json target_direct_grey) "NAS01") EXIT_WARNING
  /\ exits_with (check_target_health (Json target_listing_blue) "NAS01") EXIT_UNKNOWN
  /\ exits_with (check_target_health (Json target_no_health) "NAS01") EXIT_UNKNOWN.
Proof.
  split; [| split].
  - apply (proj1 (proj2 (check_target_health_table target_direct_grey "NAS01"))).
    left; reflexivity.
  - apply (proj1 (proj2 (proj2 (proj2 (check_target_health_table target_listing_blue "NAS01"))))
             "BLUE").
    + reflexivity.
    + simpl. intros [H | [H | [H | [H | []]]]]; discriminate H.
  - apply (proj2 (proj2 (proj2 (proj2 (check_target_health_table target_no_health "NAS01"))))).
    reflexivity.
Defined.

Example check_target_health_absent :
  check_target_health (Json target_no_health) "NAS01"
  = Ok (EXIT_UNKNOWN, "nas01 is UNKNOWN |target_health=1;;;").
Proof. reflexivity. Qed.

(** C10. When the latest backup's status is none of OK, WARNING, FATAL the
    vm check exits UNKNOWN and its trailer reads [backup_status=1], the
    value a WARNING status gets too. *)
Theorem check_vm_backup_unknown_metric
        (data : listing Backup.t) (vm_name : string)
        (latest : Backup.t) (rest : list Backup.t) (s t : string) :
  grand_total data <> 0 ->
  entities data = Some (latest :: rest) ->
  Backup.status latest = Some s ->
  Backup.type latest = Some t ->
  let shown := get (Backup.vmName latest) vm_name in
  (~ In s ["OK"; "WARNING"; "FATAL"] ->
   check_vm_backup (Json data) vm_name
   = Ok (EXIT_UNKNOWN, shown ++ " is " ++ s ++ " for last " ++ t ++ " |backup_status=1;;;"))
  /\ (s = "WARNING" ->
      check_vm_backup (Json data) vm_name
      = Ok (EXIT_WARNING, shown ++ " is " ++ s ++ " for last " ++ t ++ " |backup_status=1;;;")).
Proof.
  intros Hcount Hes Hs Ht shown.
  unfold check_vm_backup, api_request, bind.
  destruct (Z.eqb_spec (grand_total data) 0) as [E | _]; [contradiction |].
  rewrite Hes; cbn [getitem first]. rewrite Hs, Ht; cbn [getitem].
  split.
  - intros Hnot. rewrite Table_get_miss by exact Hnot. reflexivity.
  - intros ->. reflexivity.
Qed.

Lemma check_vm_backup_unknown_metric_witness :
  check_vm_backup (Json (backups_one "EXECUTING")) "WEB01"
  = Ok (EXIT_UNKNOWN, "web01 is EXECUTING for last FULL |backup_status=1;;;")
  /\ check_vm_backup (Json (backups_one "WARNING")) "WEB01"
     = Ok (EXIT_WARNING, "web01 is WARNING for last FULL |backup_status=1;;;").
Proof.
  split.
  - refine (proj1 (check_vm_backup_unknown_metric (backups_one "EXECUTING") "WEB01"
                     _ [] "EXECUTING" "FULL" _ eq_refl eq_refl eq_refl) _).
    + vm_compute. discriminate.
    + simpl. intros [H | [H | [H | []]]]; discriminate H.
  - refine (proj2 (check_vm_backup_unknown_metric (backups_one "WARNING") "WEB01"
                     _ [] "WARNING" "FULL" _ eq_refl eq_refl eq_refl) eq_refl).
    vm_compute. discriminate.
Defined.

(** C6. With at least one backup, the archive handler decides on the two
    counters of the latest backup: a failed archive is CRITICAL whatever
    the ok count; none failed and one ok is OK; none of either is WARNING
    with the label MISSING. *)
Theorem check_archive_status_classification
        (data : listing Backup.t) (vm_name : string)
        (latest : Backup.t) (rest : list Backup.t) (t : string) :
  grand_total data <> 0 ->
  entities data = Some (latest :: rest) ->
  Backup.type latest = Some t ->
  let archives_ok := get (Backup.numberOfArchives latest) 0 in
  let archives_failed := get (Backup.numberOfFailedArchives latest) 0 in
  let shown := get (Backup.vmName latest) vm_name in
  let r := check_archive_status (Json data) vm_name in
  (archives_failed >= 1 -> exits_with r EXIT_CRITICAL)
  /\ (archives_failed = 0 -> archives_ok >= 1 -> exits_with r EXIT_OK)
  /\ (archives_failed = 0 -> archives_ok = 0 ->
      r = Ok (EXIT_WARNING,
              shown ++ " archive is MISSING for last " ++ t
              ++ " |archive_status=1;;; archives_ok=0;;; archives_failed=0;;;")).
Proof.
  intros Hcount Hes Ht archives_ok archives_failed shown r.
  subst r; unfold check_archive_status, exits_with, api_request, bind.
  destruct (Z.eqb_spec (grand_total data) 0) as [E | _]; [contradiction |].
  rewrite Hes; cbn [getitem first]. rewrite Ht; cbn [getitem].
  fold archives_ok archives_failed shown.
  repeat split.
  - intros Hf. destruct (Z.geb_spec archives_failed 1); [eauto | lia].
  - intros Hf Hok. rewrite Hf; simpl.
    destruct (Z.geb_spec archives_ok 1); [eauto | lia].
  - intros -> ->. reflexivity.
Qed.

Lemma check_archive_status_classification_witness :
  exits_with (check_archive_status (Json (backups_archives (Some 4) (Some 1))) "WEB01")
             EXIT_CRITICAL
  /\ exits_with (check_archive_status (Json (backups_archives (Some 2) (Some 0))) "WEB01")
                EXIT_OK
  /\ check_archive_status (Json (backups_archives None None)) "WEB01"
     = Ok (EXIT_WARNING,
           "web01 archive is MISSING for last FULL |archive_status=1;;; archives_ok=0;;; archives_failed=0;;;").
Proof.
  assert (Hcount : forall a b, grand_total (backups_archives a b) <> 0)
    by (intros a b; vm_compute; discriminate).
  split; [| split].
  - refine (proj1 (check_archive_status_classification
                     (backups_archives (Some 4) (Some 1)) "WEB01" _ [] "FULL"
                     (Hcount _ _) eq_refl eq_refl) _).
    simpl. lia.
  - refine (proj1 (proj2 (check_archive_status_classification
                            (backups_archives (Some 2) (Some 0)) "WEB01" _ [] "FULL"
                            (Hcount _ _) eq_refl eq_refl)) eq_refl _).
    simpl. lia.
  - exact (proj2 (proj2 (check_archive_status_classification
                           (backups_archives None None) "WEB01" _ [] "FULL"
                           (Hcount _ _) eq_refl eq_refl)) eq_refl eq_refl).
Defined.

(** ** The license handler *)

(** The handler's output is in the goal and starts with the label. *)
Ltac reported := eexists; split; reflexivity.

(** The three cases of [shape_B] for a handler whose comparison of [n] with
    [c] and [w] is in the goal; [finish] closes each case once the two
    tests are decided. *)
Ltac by_thresholds n w c finish :=
  repeat split; intros ?;
  [ destruct (Z.geb_spec n c); [| lia]; finish
  | destruct (Z.geb_spec n c); [lia |]; destruct (Z.geb_spec n w); [| lia]; finish
  | destruct (Z.geb_spec n c); [lia |]; destruct (Z.geb_spec n w); [lia |]; finish ].

(** C5. On the days left of the first license record: at most the critical
    threshold is CRITICAL, above it and at most the warning threshold is
    WARNING, above both is OK; with warning 30 and critical 7, 7 days left
    is CRITICAL. *)
Theorem check_license_classification
        (local_date : Z -> option string)
        (data : listing License.t) (lic : License.t) (rest : list License.t)
        (warning_days critical_days : Z) :
  entities data = Some (lic :: rest) ->
  let days_left := get (License.daysLeft lic) 0 in
  let r := check_license local_date (Json data) warning_days critical_days in
  (days_left <= critical_days -> CRITICAL r)
  /\ (critical_days < days_left <= warning_days -> WARNING r)
  /\ (critical_days < days_left -> warning_days < days_left -> OK r)
  /\ (warning_days = 30 -> critical_days = 7 -> days_left = 7 -> CRITICAL r).
Proof.
  intros Hes days_left r.
  assert (Hcrit : days_left <= critical_days -> CRITICAL r).
  { intros H. subst r. unfold check_license, api_request, bind, entities_or_empty.
    rewrite Hes; cbn [get]. fold days_left.
    destruct (Z.leb_spec days_left critical_days); [| lia]. reported. }
  repeat split.
  - exact Hcrit.
  - intros [H1 H2]. subst r. unfold check_license, api_request, bind, entities_or_empty.
    rewrite Hes; cbn [get]. fold days_left.
    destruct (Z.leb_spec days_left critical_days); [lia |].
    destruct (Z.leb_spec days_left warning_days); [| lia]. reported.
  - intros H1 H2. subst r. unfold check_license, api_request, bind, entities_or_empty.
    rewrite Hes; cbn [get]. fold days_left.
    destruct (Z.leb_spec days_left critical_days); [lia |].
    destruct (Z.leb_spec days_left warning_days); [lia |]. reported.
  - intros _ Hc Hd. apply Hcrit. lia.
Qed.

Lemma check_license_classification_witness :
  CRITICAL (check_license no_date (Json (license_days (Some 7))) 30 7)
  /\ WARNING (check_license no_date (Json (license_days (Some 8))) 30 7)
  /\ WARNING (check_license no_date (Json (license_days (Some 30))) 30 7)
  /\ OK (check_license no_date (Json (license_days (Some 31))) 30 7)
  /\ CRITICAL (check_license no_date (Json (license_days None)) 30 7).
Proof.
  repeat split.
  - apply (proj2 (proj2 (proj2 (check_license_classification
             no_date (license_days (Some 7)) _ [] 30 7 eq_refl)))); reflexivity.
  - apply (proj1 (proj2 (check_license_classification
             no_date (license_days (Some 8)) _ [] 30 7 eq_refl))); simpl; lia.
  - apply (proj1 (proj2 (check_license_classification
             no_date (license_days (Some 30)) _ [] 30 7 eq_refl))); simpl; lia.
  - apply (proj1 (proj2 (proj2 (check_license_classification
             no_date (license_days (Some 31)) _ [] 30 7 eq_refl)))); simpl; lia.
  - apply (proj1 (check_license_classification
             no_date (license_days None) _ [] 30 7 eq_refl)); simpl; lia.
Defined.

Example check_license_boundary :
  check_license no_date (Json (license_days (Some 7))) 30 7
  = Ok (EXIT_CRITICAL,
        "CRITICAL: License 'ACME' - 7 days left (expires N/A), Status: ACTIVE, VMs: 42/100, Sockets: 4/8 |days_left=7;30;7;0; vms_protected=42;;;0;100 vms_licensed=100;;;0; sockets_actual=4;;;0;8 sockets_licensed=8;;;0;").
Proof. reflexivity. Qed.

(** ** Handlers of shape B *)

Lemma Jobs_step_nonneg {rt : Runtime} (s : Jobs.stats) (job : Job.t) :
  0 <= Jobs.ok s /\ 0 <= Jobs.warning s /\ 0 <= Jobs.error s ->
  0 <= Jobs.ok (Jobs.step s job) /\ 0 <= Jobs.warning (Jobs.step s job)
  /\ 0 <= Jobs.error (Jobs.step s job).
Proof.
  intros H. unfold Jobs.step.
  repeat match goal with
         | |- context [if ?b then _ else _] => destruct b
         end; simpl; lia.
Qed.

Lemma Jobs_fold_nonneg {rt : Runtime} (es : list Job.t) (s : Jobs.stats) :
  0 <= Jobs.ok s /\ 0 <= Jobs.warning s /\ 0 <= Jobs.error s ->
  let s' := fold_left Jobs.step es s in
  0 <= Jobs.ok s' /\ 0 <= Jobs.warning s' /\ 0 <= Jobs.error s'.
Proof.
  revert s; induction es as [| job es IH]; intros s H; simpl; [exact H |].
  apply IH, Jobs_step_nonneg, H.
Qed.

Lemma Jobs_count_nonneg {rt : Runtime} (data : listing Job.t) :
  let s := Jobs.count data in
  0 <= Jobs.ok s /\ 0 <= Jobs.warning s /\ 0 <= Jobs.error s.
Proof.
  unfold Jobs.count.
  destruct (entities data) as [es |], (metadata data) as [m |];
    try apply Jobs_fold_nonneg; simpl; lia.
Qed.

Lemma check_jobs_shape_B {rt : Runtime} percent_2f (data : listing Job.t) (period w c : Z) :
  renders_ratios percent_2f -> w <= c ->
  shape_B (Jobs.failed (Jobs.count data)) w c
          (check_jobs percent_2f (Json data) period w c).
Proof.
  intros Hratio Hwc.
  assert (Hrate : exists s, rate_2f percent_2f (Jobs.ok (Jobs.count data))
                              (Jobs.ok (Jobs.count data) + Jobs.warning (Jobs.count data)
                               + Jobs.error (Jobs.count data)) = Ok s).
  { unfold rate_2f. destruct (Jobs_count_nonneg data) as (Ho & Hw & He).
    destruct (Z.gtb_spec (Jobs.ok (Jobs.count data) + Jobs.warning (Jobs.count data)
                          + Jobs.error (Jobs.count data)) 0) as [Hpos | _]; [| eauto].
    destruct (Hratio (Jobs.ok (Jobs.count data))
                     (Jobs.ok (Jobs.count data) + Jobs.warning (Jobs.count data)
                      + Jobs.error (Jobs.count data))) as [s ->]; [lia | lia | eauto]. }
  destruct Hrate as [rate Hrate].
  unfold shape_B, CRITICAL, WARNING, OK, reports, check_jobs, api_request, bind.
  rewrite Hrate.
  set (n := Jobs.failed (Jobs.count data)).
  by_thresholds n w c reported.
Qed.

Lemma check_backup_validation_shape_B {rt : Runtime} (data : listing Job.t) (period w c : Z) :
  w <= c ->
  shape_B (Validation.failed (Validation.count data)) w c
          (check_backup_validation (Json data) period w c).
Proof.
  intros Hwc.
  unfold shape_B, CRITICAL, WARNING, OK, reports, check_backup_validation, api_request, bind.
  set (n := Validation.failed (Validation.count data)).
  by_thresholds n w c reported.
Qed.

Lemma check_shares_shape_B (data : listing Entity.t) (w c : Z) :
  w <= c ->
  shape_B (Storage.non_compliant (Storage.shares_stats data)) w c
          (check_shares (Json data) w c).
Proof.
  intros Hwc.
  unfold shape_B, CRITICAL, WARNING, OK, reports, check_shares, api_request, bind.
  set (n := Storage.non_compliant (Storage.shares_stats data)).
  by_thresholds n w c reported.
Qed.

Lemma check_buckets_shape_B (data : listing Entity.t) (w c : Z) :
  w <= c ->
  shape_B (Storage.non_compliant (Storage.buckets_stats data)) w c
          (check_buckets (Json data) w c).
Proof.
  intros Hwc.
  unfold shape_B, CRITICAL, WARNING, OK, reports, check_buckets, api_request, bind.
  set (n := Storage.non_compliant (Storage.buckets_stats data)).
  by_thresholds n w c reported.
Qed.

(** No failed [api_request] leaves [Unassigned.collect]: every [try] block
    ends in a category, empty when the block raised. *)
Lemma Unassigned_collect_returns (r_vms r_shares r_apps r_vgs : response (listing Entity.t)) :
  exists f, Unassigned.collect r_vms r_shares r_apps r_vgs = Ok f.
Proof.
  destruct r_vms, r_shares, r_apps, r_vgs; unfold Unassigned.collect; simpl; eauto.
Qed.

Lemma check_unassigned_shape_B
      (r_vms r_shares r_apps r_vgs : response (listing Entity.t)) (w c : Z) :
  w <= c ->
  exists f, Unassigned.collect r_vms r_shares r_apps r_vgs = Ok f
            /\ shape_B (Unassigned.total f) w c
                       (check_unassigned r_vms r_shares r_apps r_vgs w c).
Proof.
  intros Hwc.
  destruct (Unassigned_collect_returns r_vms r_shares r_apps r_vgs) as [f Hf].
  exists f; split; [exact Hf |].
  unfold shape_B, CRITICAL, WARNING, OK, reports, check_unassigned, bind.
  rewrite Hf.
  set (n := Unassigned.total f).
  by_thresholds n w c
    ltac:(eexists; split; [reflexivity | destruct (_ ++ _)%list; reflexivity]).
Qed.

Lemma check_policy_advanced_shape_B {rt : Runtime} percent_2f
      (listed : listing Entity.t) (relist : response (listing Entity.t))
      (details : listing Policy.t) (policy : Policy.t) (rest : list Policy.t)
      (policy_name policy_uuid rate : string) (w c : Z) :
  find_policy (lower policy_name) (entities_or_empty listed) = Ok (Some policy_uuid) ->
  policy_uuid <> "" ->
  entities details = Some (policy :: rest) ->
  rate_2f percent_2f (Policy.total_compliant policy) (Policy.total_objects policy) = Ok rate ->
  w <= c ->
  shape_B (Policy.total_uncompliant policy) w c
          (check_policy_advanced percent_2f (Json listed) relist (Json details)
                                 policy_name w c).
Proof.
  intros Hfind Huuid Hes Hrate Hwc.
  assert (Htruthy : truthy_opt (Some policy_uuid) = true).
  { simpl; unfold truthy. destruct (String.eqb_spec policy_uuid ""); [contradiction | reflexivity]. }
  unfold shape_B, CRITICAL, WARNING, OK, reports, check_policy_advanced, api_request, bind.
  rewrite Hfind, Htruthy; cbn [negb].
  rewrite Hes; cbn [getitem first]. rewrite Hrate.
  set (n := Policy.total_uncompliant policy).
  by_thresholds n w c reported.
Qed.

(** C4. For each handler of shape B and thresholds w <= c, the handler's
    bad count n decides the result: n >= c is CRITICAL, w <= n < c is
    WARNING, n < w is OK.  The bad counts are the failed jobs (jobs), the
    non-compliant objects of the policy record (policy-advanced), the failed
    validation jobs (backup-validation), the non-compliant shares and
    buckets, and the total of unassigned objects. *)
Theorem shape_B_handlers {rt : Runtime} (w c : Z) :
  w <= c ->
  (forall percent_2f data period,
      renders_ratios percent_2f ->
      shape_B (Jobs.failed (Jobs.count data)) w c
              (check_jobs percent_2f (Json data) period w c))
  /\ (forall percent_2f listed relist details policy rest policy_name policy_uuid rate,
         find_policy (lower policy_name) (entities_or_empty listed) = Ok (Some policy_uuid) ->
         policy_uuid <> "" ->
         entities details = Some (policy :: rest) ->
         rate_2f percent_2f (Policy.total_compliant policy) (Policy.total_objects policy)
         = Ok rate ->
         shape_B (Policy.total_uncompliant policy) w c
                 (check_policy_advanced percent_2f (Json listed) relist (Json details)
                                        policy_name w c))
  /\ (forall data period,
         shape_B (Validation.failed (Validation.count data)) w c
                 (check_backup_validation (Json data) period w c))
  /\ (forall data,
         shape_B (Storage.non_compliant (Storage.shares_stats data)) w c
                 (check_shares (Json data) w c))
  /\ (forall data,
         shape_B (Storage.non_compliant (Storage.buckets_stats data)) w c
                 (check_buckets (Json data) w c))
  /\ (forall r_vms r_shares r_apps r_vgs,
         exists f, Unassigned.collect r_vms r_shares r_apps r_vgs = Ok f
                   /\ shape_B (Unassigned.total f) w c
                              (check_unassigned r_vms r_shares r_apps r_vgs w c)).
Proof.
  intros Hwc.
  split; [intros; now apply check_jobs_shape_B |].
  split; [intros; now apply check_policy_advanced_shape_B with (policy_uuid := policy_uuid)
                                                                  (rest := rest) (rate := rate) |].
  split; [intros; now apply check_backup_validation_shape_B |].
  split; [intros; now apply check_shares_shape_B |].
  split; [intros; now apply check_buckets_shape_B |].
  intros; now apply check_unassigned_shape_B.
Qed.

Lemma shape_B_handlers_witness :
  CRITICAL (check_jobs forty_percent (Json jobs_two_failed) 24 1 2)
  /\ CRITICAL (check_policy_advanced forty_percent (Json policies_gold) (Failed "unused")
                                     (Json policy_gold_details) "gold" 1 2)
  /\ OK (check_backup_validation (Json jobs_two_failed) 24 1 2)
  /\ WARNING (check_shares (Json shares_one_red) 1 2)
  /\ OK (check_buckets (Json shares_one_red) 1 2)
  /\ OK (check_unassigned (Failed "down") (Failed "down") (Failed "down") (Failed "down") 1 2).
Proof.
  destruct (shape_B_handlers 1 2 ltac:(lia)) as (Hjobs & Hpolicy & Hvalid & Hshares & Hbuckets & Hun).
  repeat split.
  - apply (proj1 (Hjobs forty_percent jobs_two_failed 24
                        (fun part whole _ _ => ex_intro _ "40.00" eq_refl))).
    vm_compute; discriminate.
  - apply (proj1 (Hpolicy forty_percent policies_gold (Failed "unused") policy_gold_details
                          policy_gold [] "gold" "p-1" "40.00"
                          eq_refl ltac:(discriminate) eq_refl eq_refl)).
    vm_compute; discriminate.
  - apply (proj2 (proj2 (Hvalid jobs_two_failed 24))). vm_compute; reflexivity.
  - apply (proj1 (proj2 (Hshares shares_one_red))). vm_compute; split; [discriminate | reflexivity].
  - apply (proj2 (proj2 (Hbuckets shares_one_red))). vm_compute; reflexivity.
  - destruct (Hun (Failed "down") (Failed "down") (Failed "down") (Failed "down"))
      as (f & Hf & Hshape).
    apply (proj2 (proj2 Hshape)).
    vm_compute in Hf. injection Hf as <-. vm_compute; reflexivity.
Defined.

Example check_jobs_two_failed :
  check_jobs forty_percent (Json jobs_two_failed) 24 1 2
  = Ok (EXIT_CRITICAL,
        "CRITICAL: HYCU jobs over 24h - 2 failed (1 errors, 1 warnings), 1 successful, 0 running |jobs_ok=1;;;0; jobs_warning=1;;;0; jobs_error=1;;;0; jobs_failed=2;1;2;0; jobs_running=0;;;0; success_rate=40.00%;;;0;100").
Proof. reflexivity. Qed.

Example check_shares_boundaries :
  check_shares (Json shares_one_red) 1 1
  = Ok (EXIT_CRITICAL,
        "CRITICAL: Shares (NFS/SMB) - 0/1 compliant, 1 non-compliant, 0 unprotected |shares_total=1;;;0; shares_compliant=0;;;0; shares_non_compliant=1;1;1;0; shares_unprotected=0;;;0;")
  /\ exits_with (check_shares (Json shares_one_red) 1 2) EXIT_WARNING
  /\ exits_with (check_shares (Json shares_one_red) 2 2) EXIT_OK.
Proof. repeat split; eexists; reflexivity. Qed.

(** ** The shares listing, read by two handlers *)

Lemma Storage_count_total (e : Entity.t) (s : Storage.stats) :
  Storage.total (Storage.count e s)
  = Storage.total s + (if defined_status e then 1 else 0).
Proof.
  unfold Storage.count, defined_status.
  destruct (str_in _ ["PROTECTED"; "UNPROTECTED"]); [| simpl; lia].
  repeat match goal with
         | |- context [if ?b then _ else _] => destruct b
         end; simpl; lia.
Qed.

Lemma Storage_count_skip (e : Entity.t) (s : Storage.stats) :
  defined_status e = false -> Storage.count e s = s.
Proof.
  unfold Storage.count, defined_status. intros ->. reflexivity.
Qed.

Lemma shares_step_total (s : Storage.stats) (e : Entity.t) :
  Storage.total (Storage.shares_step s e)
  = Storage.total s + (if in_shares_domain e then 1 else 0).
Proof.
  unfold Storage.shares_step, in_shares_domain.
  destruct (Storage.is_share e); simpl; [apply Storage_count_total | lia].
Qed.

Lemma buckets_step_total (s : Storage.stats) (e : Entity.t) :
  Storage.total (Storage.buckets_step s e)
  = Storage.total s + (if in_buckets_domain e then 1 else 0).
Proof.
  unfold Storage.buckets_step, in_buckets_domain.
  destruct (Storage.is_bucket e); simpl; [apply Storage_count_total | lia].
Qed.

Lemma shares_step_skip (s : Storage.stats) (e : Entity.t) :
  in_shares_domain e = false -> Storage.shares_step s e = s.
Proof.
  unfold Storage.shares_step, in_shares_domain.
  destruct (Storage.is_share e); simpl; [apply Storage_count_skip | reflexivity].
Qed.

Lemma buckets_step_skip (s : Storage.stats) (e : Entity.t) :
  in_buckets_domain e = false -> Storage.buckets_step s e = s.
Proof.
  unfold Storage.buckets_step, in_buckets_domain.
  destruct (Storage.is_bucket e); simpl; [apply Storage_count_skip | reflexivity].
Qed.

(** The totals the two handlers print are the sizes of the two domains. *)
Lemma fold_shares_total (es : list Entity.t) (s : Storage.stats) :
  Storage.total (fold_left Storage.shares_step es s)
  = Storage.total s + Z.of_nat (List.length (filter in_shares_domain es)).
Proof.
  revert s; induction es as [| e es IH]; intros s; simpl; [lia |].
  rewrite IH, shares_step_total. destruct (in_shares_domain e); simpl List.length; lia.
Qed.

Lemma fold_buckets_total (es : list Entity.t) (s : Storage.stats) :
  Storage.total (fold_left Storage.buckets_step es s)
  = Storage.total s + Z.of_nat (List.length (filter in_buckets_domain es)).
Proof.
  revert s; induction es as [| e es IH]; intros s; simpl; [lia |].
  rewrite IH, buckets_step_total. destruct (in_buckets_domain e); simpl List.length; lia.
Qed.

(** What the two loops do with one entry.  It is counted by
    [check_shares] exactly when it is in the shares domain and by
    [check_buckets] exactly when it is in the buckets domain (an entry
    outside a domain leaves that handler's counters as they were).  Every
    entry is in exactly one of the four classes, except an entry whose
    protocol list carries both S3 and one of NFS, SMB and whose status is
    PROTECTED or UNPROTECTED: that one is counted by both handlers. *)
Lemma shares_buckets_partition (e : Entity.t) :
  (forall s, Storage.total (Storage.shares_step s e)
             = Storage.total s + (if in_shares_domain e then 1 else 0))
  /\ (forall s, Storage.total (Storage.buckets_step s e)
                = Storage.total s + (if in_buckets_domain e then 1 else 0))
  /\ (forall s, in_shares_domain e = false -> Storage.shares_step s e = s)
  /\ (forall s, in_buckets_domain e = false -> Storage.buckets_step s e = s)
  /\ (Storage.is_share e && Storage.is_bucket e && defined_status e = false ->
      exactly_one (classes e))
  /\ (Storage.is_share e && Storage.is_bucket e && defined_status e = true ->
      in_shares_domain e = true /\ in_buckets_domain e = true).
Proof.
  split; [intros s; apply shares_step_total |].
  split; [intros s; apply buckets_step_total |].
  split; [intros s; apply shares_step_skip |].
  split; [intros s; apply buckets_step_skip |].
  unfold exactly_one, classes, in_shares_domain, in_buckets_domain,
    excluded_undefined, excluded_other_protocol.
  split.
  - destruct (Storage.is_share e), (Storage.is_bucket e), (defined_status e);
      simpl; intros H; try discriminate H; reflexivity.
  - destruct (Storage.is_share e), (Storage.is_bucket e), (defined_status e);
      simpl; intros H; try discriminate H; split; reflexivity.
Qed.

Lemma shares_buckets_partition_witness :
  exactly_one (classes nfs_only)
  /\ exactly_one (classes nfs_and_s3_undefined)
  /\ Storage.shares_step Storage.zero (share ["S3"] "PROTECTED" "RED") = Storage.zero
  /\ Storage.buckets_step Storage.zero nfs_only = Storage.zero
  /\ (in_shares_domain nfs_and_s3 = true /\ in_buckets_domain nfs_and_s3 = true).
Proof.
  split; [| split; [| split; [| split]]].
  - apply (proj1 (proj2 (proj2 (proj2 (proj2 (shares_buckets_partition nfs_only)))))).
    reflexivity.
  - apply (proj1 (proj2 (proj2 (proj2 (proj2
             (shares_buckets_partition nfs_and_s3_undefined)))))).
    reflexivity.
  - apply (proj1 (proj2 (proj2 (shares_buckets_partition (share ["S3"] "PROTECTED" "RED"))))).
    reflexivity.
  - apply (proj1 (proj2 (proj2 (proj2 (shares_buckets_partition nfs_only))))).
    reflexivity.
  - apply (proj2 (proj2 (proj2 (proj2 (proj2 (shares_buckets_partition nfs_and_s3))))));
      reflexivity.
Defined.

(** C2. The two domains are not disjoint in the code.  Each loop says it
    leaves the other's entries out ([exclude S3 buckets], [exclude NFS/SMB
    shares]) but tests its own tags only: an entry tagged both NFS and S3
    is in two of the four classes, and each handler counts it. *)
Theorem shares_buckets_overlap :
  ~ exactly_one (classes nfs_and_s3)
  /\ Storage.total (Storage.shares_stats {| entities := Some [nfs_and_s3]; metadata := None |}) = 1
  /\ Storage.total (Storage.buckets_stats {| entities := Some [nfs_and_s3]; metadata := None |}) = 1.
Proof.
  split; [| split]; [| reflexivity | reflexivity].
  unfold exactly_one; simpl. discriminate.
Qed.

(** ** Entity resolution *)

Lemma Dict_get_set_same (k v : string) (d : Dict.t) :
  Dict.get k (Dict.set k v d) = Some v.
Proof.
  induction d as [| [k' v'] d IH]; simpl.
  - now rewrite String.eqb_refl.
  - destruct (String.eqb_spec k' k) as [-> | Hne]; simpl.
    + now rewrite String.eqb_refl.
    + destruct (String.eqb_spec k' k); [contradiction | exact IH].
Qed.

Lemma Dict_get_set_other (k k' v : string) (d : Dict.t) :
  k <> k' -> Dict.get k' (Dict.set k v d) = Dict.get k' d.
Proof.
  intros Hne. induction d as [| [k0 v0] d IH]; simpl.
  - destruct (String.eqb_spec k k'); [contradiction | reflexivity].
  - destruct (String.eqb_spec k0 k) as [-> | Hk0]; simpl.
    + destruct (String.eqb_spec k k'); [contradiction | reflexivity].
    + destruct (String.eqb_spec k0 k'); [reflexivity | exact IH].
Qed.

(** Assigning to a key keeps the order of the keys and appends a new one. *)
Lemma Dict_keys_set (k v : string) (d : Dict.t) :
  Dict.keys (Dict.set k v d)
  = if str_in k (Dict.keys d) then Dict.keys d else (Dict.keys d ++ [k])%list.
Proof.
  unfold Dict.keys, str_in.
  induction d as [| [k' v'] d IH]; simpl; [reflexivity |].
  rewrite (String.eqb_sym k k').
  destruct (String.eqb_spec k' k) as [-> | Hne]; simpl; [reflexivity |].
  rewrite IH. destruct (existsb (String.eqb k) (map fst d)); reflexivity.
Qed.

Lemma entity_dict_from_app (name_field : Entity.key) (es1 es2 : list Entity.t) (acc : Dict.t) :
  entity_dict_from name_field (es1 ++ es2) acc
  = (d <- entity_dict_from name_field es1 acc ;; entity_dict_from name_field es2 d).
Proof.
  revert acc; induction es1 as [| e es1 IH]; intros acc; simpl; [reflexivity |].
  unfold Entity.subscript, getitem, bind.
  destruct (Entity.field e name_field); simpl; [| reflexivity].
  destruct (Entity.uuid e); simpl; [apply IH | reflexivity].
Qed.

Lemma entity_dict_from_keyed (name_field : Entity.key) (es : list Entity.t) (acc : Dict.t) :
  Forall (keyed name_field) es ->
  exists d, entity_dict_from name_field es acc = Ok d.
Proof.
  intros Hes; revert acc; induction Hes as [| e es [Hn Hu] _ IH]; intros acc; simpl; [eauto |].
  unfold Entity.subscript, getitem, bind.
  destruct (Entity.field e name_field); [| contradiction].
  simpl. destruct (Entity.uuid e); [apply IH | contradiction].
Qed.

(** Entries of another name leave the value of a key as it was. *)
Lemma entity_dict_from_other (name_field : Entity.key) (n : string)
      (es : list Entity.t) (acc d : Dict.t) :
  entity_dict_from name_field es acc = Ok d ->
  (forall e, In e es -> Entity.field e name_field <> Some n) ->
  Dict.get n d = Dict.get n acc.
Proof.
  revert acc; induction es as [| e es IH]; intros acc Hd Hother; simpl in Hd.
  - now injection Hd as <-.
  - unfold Entity.subscript, getitem, bind in Hd.
    destruct (Entity.field e name_field) as [k |] eqn:Hk; [| discriminate].
    simpl in Hd. destruct (Entity.uuid e) as [v |]; [| discriminate].
    rewrite (IH _ Hd) by (intros e' He'; apply Hother; now right).
    apply Dict_get_set_other. intros ->. apply (Hother e (or_introl eq_refl)). exact Hk.
Qed.

(** Last wins: the value of a name is the uuid of the last entry of the
    listing that carries it. *)
Lemma entity_dict_last_wins (name_field : Entity.key) (n u : string)
      (pre post : list Entity.t) (e : Entity.t) (d : Dict.t) :
  entity_dict_from name_field (pre ++ e :: post) [] = Ok d ->
  Entity.field e name_field = Some n ->
  Entity.uuid e = Some u ->
  (forall e', In e' post -> Entity.field e' name_field <> Some n) ->
  Dict.get n d = Some u.
Proof.
  intros Hd Hn Hu Hpost.
  rewrite entity_dict_from_app in Hd.
  destruct (entity_dict_from name_field pre []) as [d1 | x]; [| discriminate].
  simpl in Hd. unfold Entity.subscript, getitem, bind in Hd.
  rewrite Hn in Hd; simpl in Hd; rewrite Hu in Hd.
  rewrite (entity_dict_from_other _ _ _ _ _ Hd Hpost).
  apply Dict_get_set_same.
Qed.


Lemma scan_lower_none {rt : Runtime} (name_lower : string) (d : Dict.t) :
  (forall n u, In (n, u) (Dict.items d) -> lower n <> name_lower) ->
  scan_lower name_lower (Dict.items d) = None.
Proof.
  unfold Dict.items. induction d as [| [k v] d IH]; intros Hno; simpl; [reflexivity |].
  destruct (String.eqb_spec (lower k) name_lower) as [E | _].
  - exfalso. apply (Hno k v (or_introl eq_refl)). exact E.
  - apply IH. intros n u Hin. apply (Hno n u). now right.
Qed.


(** The keys of the mapping come in the order of their first entry. *)
Lemma entity_dict_keys (name_field : Entity.key) (es : list Entity.t) (acc d : Dict.t) :
  entity_dict_from name_field es acc = Ok d ->
  Dict.keys d
  = fold_left (fun keys e =>
                 let n := get (Entity.field e name_field) "" in
                 if str_in n keys then keys else (keys ++ [n])%list)
              es (Dict.keys acc).
Proof.
  revert acc; induction es as [| e es IH]; intros acc Hd; simpl in *.
  - now injection Hd as <-.
  - unfold Entity.subscript, getitem, bind in Hd.
    destruct (Entity.field e name_field) as [k |]; [| discriminate].
    simpl in Hd. destruct (Entity.uuid e) as [v |]; [| discriminate].
    rewrite (IH _ Hd), Dict_keys_set. reflexivity.
Qed.

Lemma targets_prod_keyed : Forall (keyed Entity.K_name) (entities_or_empty targets_prod).
Proof. repeat constructor; discriminate. Defined.


(** Outside the contract: the exact match is returned under [if uuid:], a
    truth test, so an exact name mapped to an empty identifier is passed
    on to the case-insensitive scan. *)
Example get_entity_uuid_empty_exact :
  entity_dict_from Entity.K_name (entities_or_empty targets_empty_uuid) []
  = Ok [("vm", "u-1"); ("VM", "")]
  /\ Dict.get "VM" [("vm", "u-1"); ("VM", "")] = Some ""
  /\ get_entity_uuid (Json targets_empty_uuid) "VM" Entity.K_name = Ok (Some "u-1")
  /\ get_entity_uuid (Json targets_empty_uuid) "VM" Entity.K_name
     <> Ok (Dict.get "VM" [("vm", "u-1"); ("VM", "")]).
Proof.
  repeat split; try reflexivity. vm_compute. discriminate.
Qed.

(** ** The unassigned handler and its four fetches *)

(** The buckets block reads the variable [data]: the document of the last
    fetch that returned, of /shares or else of /vms; with neither, the
    name is unbound and the block ends in its handler. *)
Lemma Unassigned_collect_eq (r_vms r_shares r_apps r_vgs : response (listing Entity.t)) :
  Unassigned.collect r_vms r_shares r_apps r_vgs
  = Ok {| Unassigned.vms := fetched Unassigned.vm_step r_vms;
          Unassigned.shares := fetched Unassigned.share_step r_shares;
          Unassigned.buckets :=
            match r_shares with
            | Json d => Unassigned.scan Unassigned.bucket_step d
            | Failed _ | Uncaught _ => fetched Unassigned.bucket_step r_vms
            end;
          Unassigned.apps := fetched Unassigned.app_step r_apps;
          Unassigned.vgs := fetched Unassigned.vg_step r_vgs |}.
Proof.
  destruct r_vms, r_shares, r_apps, r_vgs; reflexivity.
Qed.

Lemma check_unassigned_returns
      (r_vms r_shares r_apps r_vgs : response (listing Entity.t)) (w c : Z) :
  exists code output, check_unassigned r_vms r_shares r_apps r_vgs w c = Ok (code, output).
Proof.
  unfold check_unassigned, bind. rewrite Unassigned_collect_eq.
  repeat match goal with
         | |- context [if ?b then _ else _] => destruct b
         end; eauto.
Qed.

(** What holds of the five blocks.  The handler makes four fetches (/vms,
    /shares, /applications, /volumegroups) and reads the buckets from the
    document of the /shares fetch.  Whatever fetches fail, it returns a
    result; each of the four categories is the scan of its own document
    when its fetch returned and counts zero when its fetch failed; the
    buckets are the scan of the /shares document when that fetch
    returned. *)
Lemma check_unassigned_fault_tolerant
        (r_vms r_shares r_apps r_vgs : response (listing Entity.t)) (w c : Z) :
  exists f code output,
    Unassigned.collect r_vms r_shares r_apps r_vgs = Ok f
    /\ check_unassigned r_vms r_shares r_apps r_vgs w c = Ok (code, output)
    /\ Unassigned.vms f = fetched Unassigned.vm_step r_vms
    /\ Unassigned.shares f = fetched Unassigned.share_step r_shares
    /\ Unassigned.apps f = fetched Unassigned.app_step r_apps
    /\ Unassigned.vgs f = fetched Unassigned.vg_step r_vgs
    /\ (forall d, r_shares = Json d ->
                  Unassigned.buckets f = Unassigned.scan Unassigned.bucket_step d)
    /\ (forall msg, r_vms = Failed msg -> Unassigned.count (Unassigned.vms f) = 0)
    /\ (forall msg, r_shares = Failed msg -> Unassigned.count (Unassigned.shares f) = 0)
    /\ (forall msg, r_apps = Failed msg -> Unassigned.count (Unassigned.apps f) = 0)
    /\ (forall msg, r_vgs = Failed msg -> Unassigned.count (Unassigned.vgs f) = 0).
Proof.
  destruct (check_unassigned_returns r_vms r_shares r_apps r_vgs w c) as (code & output & Hr).
  eexists; exists code, output.
  split; [apply Unassigned_collect_eq |].
  split; [exact Hr |].
  cbn [Unassigned.vms Unassigned.shares Unassigned.buckets Unassigned.apps Unassigned.vgs].
  repeat split; intros x ->; reflexivity.
Qed.

Lemma check_unassigned_fault_tolerant_witness :
  check_unassigned (Failed "Connection error. Check host address and network.")
                   (Json shares_two) (Json nothing) (Json nothing) 5 10
  = Ok (EXIT_OK,
        "OK: 2 unassigned objects - 0 VMs, 1 shares, 1 buckets, 0 apps, 0 VGs | Shares: home / Buckets: logs |unassigned_total=2;5;10;0; unassigned_vms=0;;;0; unassigned_shares=1;;;0; unassigned_buckets=1;;;0; unassigned_apps=0;;;0; unassigned_vgs=0;;;0;")
  /\ exists f,
      Unassigned.collect (Failed "Connection error. Check host address and network.")
                         (Json shares_two) (Json nothing) (Json nothing) = Ok f
      /\ Unassigned.count (Unassigned.vms f) = 0
      /\ Unassigned.buckets f = Unassigned.scan Unassigned.bucket_step shares_two.
Proof.
  split; [reflexivity |].
  destruct (check_unassigned_fault_tolerant
              (Failed "Connection error. Check host address and network.")
              (Json shares_two) (Json nothing) (Json nothing) 5 10)
    as (f & code & output & Hf & _ & _ & _ & _ & _ & Hbuckets & Hvms & _).
  exists f. split; [exact Hf |]. split.
  - exact (Hvms _ eq_refl).
  - exact (Hbuckets _ eq_refl).
Defined.


(** * Further properties of the code *)

(** ** The HTTP call *)

(** X1. [api_request] hands back a document for status 200 only: every
    other status, also another 2xx or a 3xx, and each exception one of its
    four [except] clauses catches end in [HycuAPIError]; a status from 201
    to 399 is reported with its code and the response text.  The
    [ValueError] of a timeout that is not positive is caught by no clause
    and leaves the function as it is. *)
Theorem api_request_only_200 {A} (timeout : Z) (o : Http.outcome A) :
  (forall d, Http.api_request timeout o = Json d
             <-> exists text, o = Http.Response 200 text d)
  /\ (forall status_code text json,
         o = Http.Response status_code text json -> 200 < status_code < 400 ->
         Http.api_request timeout o = Failed ("HTTP " ++ str status_code ++ ": " ++ text))
  /\ (forall text, Http.api_request timeout o = Uncaught text <-> o = Http.BadTimeout text)
  /\ ((forall text d, o <> Http.Response 200 text d) ->
      (forall text, o <> Http.BadTimeout text) ->
      exists msg, Http.api_request timeout o = Failed msg).
Proof.
  split; [| split; [| split]].
  - intros d; split.
    + destruct o as [| | text | | text | status_code text json]; simpl; try discriminate.
      destruct (Z.eqb_spec status_code 401); [discriminate |].
      destruct (Z.eqb_spec status_code 403); [discriminate |].
      destruct (Z.eqb_spec status_code 404); [discriminate |].
      destruct (status_code >=? 500); [discriminate |].
      destruct (Z.eqb_spec status_code 200) as [-> | _]; simpl; [| discriminate].
      intros H; injection H as ->. eauto.
    + intros [text ->]. reflexivity.
  - intros status_code text json -> Hcode. simpl.
    destruct (Z.eqb_spec status_code 401); [lia |].
    destruct (Z.eqb_spec status_code 403); [lia |].
    destruct (Z.eqb_spec status_code 404); [lia |].
    destruct (Z.geb_spec status_code 500); [lia |].
    destruct (Z.eqb_spec status_code 200); [lia |]. reflexivity.
  - intros t; split.
    + destruct o as [| | text | | text | status_code text json]; simpl; try discriminate.
      * intros H; injection H as ->. reflexivity.
      * destruct (status_code =? 401); [discriminate |].
        destruct (status_code =? 403); [discriminate |].
        destruct (status_code =? 404); [discriminate |].
        destruct (status_code >=? 500); [discriminate |].
        destruct (status_code =? 200); discriminate.
    + intros ->. reflexivity.
  - intros Hnot200 Hcaught.
    destruct o as [| | text | | text | status_code text json]; simpl; eauto.
    + exfalso. apply (Hcaught text). reflexivity.
    + destruct (status_code =? 401); [eauto |].
      destruct (status_code =? 403); [eauto |].
      destruct (status_code =? 404); [eauto |].
      destruct (status_code >=? 500); [eauto |].
      destruct (Z.eqb_spec status_code 200) as [-> | _]; simpl; [| eauto].
      exfalso. apply (Hnot200 text json). reflexivity.
Qed.

Lemma api_request_only_200_witness :
  Http.api_request 100 (Http.Response 200 "{}" 7) = Json 7
  /\ Http.api_request 100 (Http.Response 204 "" 7) = Failed "HTTP 204: "
  /\ Http.api_request 0 (@Http.BadTimeout Z "bad timeout") = Uncaught "bad timeout"
  /\ exists msg, Http.api_request 100 (@Http.Timeout Z) = Failed msg.
Proof.
  split; [| split; [| split]].
  - apply (proj1 (api_request_only_200 100 (Http.Response 200 "{}" 7))). exists "{}". reflexivity.
  - apply (proj1 (proj2 (api_request_only_200 100 (Http.Response 204 "" 7))) 204 "" 7 eq_refl).
    lia.
  - apply (proj1 (proj2 (proj2 (api_request_only_200 0 (@Http.BadTimeout Z "bad timeout"))))).
    reflexivity.
  - apply (proj2 (proj2 (proj2 (api_request_only_200 100 (@Http.Timeout Z))))); discriminate.
Defined.

(** ** More on entity resolution *)

Lemma Dict_get_In (k v : string) (d : Dict.t) :
  Dict.get k d = Some v -> In (k, v) d.
Proof.
  induction d as [| [k' v'] d IH]; simpl; [discriminate |].
  destruct (String.eqb_spec k' k) as [-> | _].
  - intros H; injection H as ->. now left.
  - intros H. right. now apply IH.
Qed.

Lemma Dict_set_In (k v k' v' : string) (d : Dict.t) :
  In (k, v) (Dict.set k' v' d) -> (k, v) = (k', v') \/ In (k, v) d.
Proof.
  induction d as [| [k0 v0] d IH]; simpl.
  - intros [H | []]. left. now symmetry.
  - destruct (String.eqb_spec k0 k') as [-> | _]; simpl.
    + intros [H | H]; [left; now symmetry | right; now right].
    + intros [H | H]; [right; now left |].
      destruct (IH H) as [E | Hin]; [now left | right; now right].
Qed.

Lemma Dict_get_present (k : string) (d : Dict.t) :
  In k (Dict.keys d) -> Dict.get k d <> None.
Proof.
  unfold Dict.keys. induction d as [| [k' v'] d IH]; simpl; [tauto |].
  intros [-> | Hin].
  - rewrite String.eqb_refl. discriminate.
  - destruct (String.eqb_spec k' k); [discriminate | now apply IH].
Qed.

(** Every item of the mapping comes from an entry of the listing. *)
Lemma entity_dict_items (name_field : Entity.key) (es : list Entity.t) (acc d : Dict.t) :
  entity_dict_from name_field es acc = Ok d ->
  forall k v, In (k, v) d ->
              In (k, v) acc
              \/ exists e, In e es /\ Entity.field e name_field = Some k
                           /\ Entity.uuid e = Some v.
Proof.
  revert acc; induction es as [| e es IH]; intros acc Hd k v Hin; simpl in Hd.
  - injection Hd as <-. now left.
  - unfold Entity.subscript, getitem, bind in Hd.
    destruct (Entity.field e name_field) as [k0 |] eqn:Hk; [| discriminate].
    simpl in Hd. destruct (Entity.uuid e) as [v0 |] eqn:Hv; [| discriminate].
    destruct (IH _ Hd k v Hin) as [Hacc | (e' & He' & Hk' & Hv')].
    + destruct (Dict_set_In _ _ _ _ _ Hacc) as [E | Hacc']; [| now left].
      injection E as -> ->. right. exists e. repeat split; [now left | exact Hk | exact Hv].
    + right. exists e'. repeat split; [now right | exact Hk' | exact Hv'].
Qed.

(** Every name of the listing is a key of the mapping. *)
Lemma entity_dict_covers (name_field : Entity.key) (es : list Entity.t) (acc d : Dict.t) :
  entity_dict_from name_field es acc = Ok d ->
  forall k, (Dict.get k acc <> None
             \/ exists e, In e es /\ Entity.field e name_field = Some k) ->
            Dict.get k d <> None.
Proof.
  revert acc; induction es as [| e es IH]; intros acc Hd k Hk; simpl in Hd.
  - injection Hd as <-. destruct Hk as [H | (e & [] & _)]. exact H.
  - unfold Entity.subscript, getitem, bind in Hd.
    destruct (Entity.field e name_field) as [k0 |] eqn:Hk0; [| discriminate].
    simpl in Hd. destruct (Entity.uuid e) as [v0 |]; [| discriminate].
    apply (IH _ Hd).
    destruct (String.eqb_spec k0 k) as [-> | Hne].
    + left. rewrite Dict_get_set_same. discriminate.
    + destruct Hk as [H | (e' & [<- | He'] & Hk')].
      * left. now rewrite Dict_get_set_other.
      * congruence.
      * right. now exists e'.
Qed.

Lemma scan_lower_In {rt : Runtime} (name_lower : string) (items : list (string * string)) (u : string) :
  scan_lower name_lower items = Some u ->
  exists n, In (n, u) items /\ lower n = name_lower.
Proof.
  induction items as [| [k v] items IH]; simpl; [discriminate |].
  destruct (String.eqb_spec (lower k) name_lower) as [E | _].
  - intros H; injection H as ->. exists k. split; [now left | exact E].
  - intros H. destruct (IH H) as (n & Hin & Hn). exists n. split; [now right | exact Hn].
Qed.

Lemma scan_lower_found {rt : Runtime} (name_lower : string) (items : list (string * string)) (n v : string) :
  In (n, v) items -> lower n = name_lower -> scan_lower name_lower items <> None.
Proof.
  induction items as [| [k v'] items IH]; simpl; [tauto |].
  intros Hin Hn. destruct (String.eqb_spec (lower k) name_lower) as [_ | Hne]; [discriminate |].
  destruct Hin as [E | Hin]; [injection E as -> ->; contradiction | now apply IH].
Qed.

(** X2. An identifier the resolver returns is the uuid of an entry of the
    listing whose name equals the queried name up to case. *)
Theorem get_entity_uuid_sound {rt : Runtime}
        (data : listing Entity.t) (name : string) (name_field : Entity.key) (u : string) :
  get_entity_uuid (Json data) name name_field = Ok (Some u) ->
  exists e n,
    In e (entities_or_empty data)
    /\ Entity.field e name_field = Some n
    /\ lower n = lower name
    /\ Entity.uuid e = Some u.
Proof.
  unfold get_entity_uuid, api_request, bind.
  destruct (entity_dict_from name_field (entities_or_empty data) []) as [d | x] eqn:Hd;
    [| discriminate].
  assert (Hitem : forall k v, In (k, v) d ->
                              exists e, In e (entities_or_empty data)
                                        /\ Entity.field e name_field = Some k
                                        /\ Entity.uuid e = Some v).
  { intros k v Hin. destruct (entity_dict_items _ _ _ _ Hd k v Hin) as [[] | H]. exact H. }
  destruct (truthy_opt (Dict.get name d)) eqn:Htruthy; intros H; injection H as H.
  - destruct (Hitem name u (Dict_get_In _ _ _ H)) as (e & He & Hn & Hu).
    exists e, name. repeat split; assumption.
  - destruct (scan_lower_In _ _ _ H) as (n & Hin & Hlow).
    destruct (Hitem n u Hin) as (e & He & Hn & Hu).
    exists e, n. repeat split; assumption.
Qed.

Lemma get_entity_uuid_sound_witness :
  exists e n,
    In e (entities_or_empty targets_prod)
    /\ Entity.field e Entity.K_name = Some n
    /\ lower n = lower "PROD"
    /\ Entity.uuid e = Some "u-3".
Proof.
  apply (get_entity_uuid_sound targets_prod "PROD" Entity.K_name "u-3"). reflexivity.
Defined.

(** X3. On a listing whose entries carry the name field and a uuid, the
    resolver answers [None] exactly when no entry's name equals the queried
    name up to case. *)
Theorem get_entity_uuid_not_found {rt : Runtime}
        (data : listing Entity.t) (name : string) (name_field : Entity.key) :
  Forall (keyed name_field) (entities_or_empty data) ->
  (get_entity_uuid (Json data) name name_field = Ok None
   <-> forall e n, In e (entities_or_empty data) ->
                   Entity.field e name_field = Some n -> lower n <> lower name).
Proof.
  intros Hkeyed.
  destruct (entity_dict_from_keyed name_field _ [] Hkeyed) as [d Hd].
  unfold get_entity_uuid, api_request, bind. rewrite Hd.
  split.
  - intros Hnone e n He Hn Hlow.
    assert (Hpresent : Dict.get n d <> None)
      by (apply (entity_dict_covers _ _ _ _ Hd); right; now exists e).
    destruct (Dict.get n d) as [v |] eqn:Hget; [| contradiction].
    apply Dict_get_In in Hget.
    destruct (truthy_opt (Dict.get name d)) eqn:Htruthy.
    + destruct (Dict.get name d); [discriminate Hnone | discriminate Htruthy].
    + injection Hnone as Hscan.
      now apply (scan_lower_found (lower name) (Dict.items d) n v).
  - intros Hno.
    assert (Hitems : forall k v, In (k, v) (Dict.items d) -> lower k <> lower name).
    { intros k v Hin. destruct (entity_dict_items _ _ _ _ Hd k v Hin) as [[] | (e & He & Hk & _)].
      now apply (Hno e k). }
    destruct (Dict.get name d) as [v |] eqn:Hget.
    + exfalso. apply (Hitems name v); [now apply Dict_get_In | reflexivity].
    + simpl. now rewrite (scan_lower_none _ _ Hitems).
Qed.

Lemma get_entity_uuid_not_found_witness :
  get_entity_uuid (Json targets_prod) "dev" Entity.K_name = Ok None.
Proof.
  apply (proj2 (get_entity_uuid_not_found targets_prod "dev" Entity.K_name targets_prod_keyed)).
  intros e n [<- | [<- | [<- | []]]] Hn; injection Hn as <-; vm_compute; discriminate.
Defined.

(** X4. One entry without the name field or without a uuid makes every
    lookup in the listing raise [KeyError], whatever name is asked and
    whatever the other entries hold: the mapping is built before any name
    is compared. *)
Theorem get_entity_uuid_key_error {rt : Runtime}
        (data : listing Entity.t) (name : string) (name_field : Entity.key) (e : Entity.t) :
  In e (entities_or_empty data) ->
  Entity.field e name_field = None \/ Entity.uuid e = None ->
  exists key,
    get_entity_uuid (Json data) name name_field = Raise (KeyError key)
    /\ (key = Entity.key_name name_field \/ key = "uuid").
Proof.
  intros He Hbad.
  unfold get_entity_uuid, api_request, bind.
  assert (H : forall acc, exists key,
               entity_dict_from name_field (entities_or_empty data) acc = Raise (KeyError key)
               /\ (key = Entity.key_name name_field \/ key = "uuid")).
  { induction (entities_or_empty data) as [| e0 es IH]; [destruct He |].
    intros acc. simpl. unfold Entity.subscript, getitem, bind.
    destruct (Entity.field e0 name_field) as [k |] eqn:Hk; [| eauto].
    change (Entity.field e0 Entity.K_uuid) with (Entity.uuid e0).
    destruct (Entity.uuid e0) as [v |] eqn:Hv; [| simpl; eauto].
    destruct He as [-> | He]; [destruct Hbad; congruence | apply (IH He)]. }
  destruct (H []) as (key & -> & Hkey). eauto.
Qed.

Lemma get_entity_uuid_key_error_witness :
  exists key,
    get_entity_uuid
      (Json {| entities := Some [named "Prod" "u-1";
                                 unassigned_vm "web01" None];
               metadata := None |})
      "Prod" Entity.K_name = Raise (KeyError key)
    /\ (key = Entity.key_name Entity.K_name \/ key = "uuid").
Proof.
  apply (get_entity_uuid_key_error _ "Prod" Entity.K_name (unassigned_vm "web01" None)).
  - simpl. right. left. reflexivity.
  - left. reflexivity.
Defined.

Lemma str_in_In (x : string) (l : list string) :
  str_in x l = true <-> In x l.
Proof.
  unfold str_in. rewrite existsb_exists. split.
  - intros (y & Hy & E). apply String.eqb_eq in E. now subst.
  - intros H. exists x. split; [exact H | apply String.eqb_refl].
Qed.

Lemma Dict_set_keys_NoDup (k v : string) (d : Dict.t) :
  NoDup (Dict.keys d) -> NoDup (Dict.keys (Dict.set k v d)).
Proof.
  intros Hd. rewrite Dict_keys_set.
  destruct (str_in k (Dict.keys d)) eqn:Hin; [exact Hd |].
  apply NoDup_app; [exact Hd | repeat constructor; simpl; tauto |].
  intros x Hx [<- | []].
  apply str_in_In in Hx. congruence.
Qed.

(** X5. The mapping the resolver builds has one item for each distinct
    name of the listing: its keys are pairwise different, and a name is a
    key exactly when an entry carries it. *)
Theorem entity_dict_one_item_per_name
        (name_field : Entity.key) (es : list Entity.t) (d : Dict.t) :
  entity_dict_from name_field es [] = Ok d ->
  NoDup (Dict.keys d)
  /\ (forall k, In k (Dict.keys d)
                <-> exists e, In e es /\ Entity.field e name_field = Some k).
Proof.
  intros Hd. split.
  - assert (H : forall acc, NoDup (Dict.keys acc) ->
                            forall d', entity_dict_from name_field es acc = Ok d' ->
                                       NoDup (Dict.keys d')).
    { clear d Hd. induction es as [| e es IH]; intros acc Hacc d' Hd'; simpl in Hd'.
      - now injection Hd' as <-.
      - unfold Entity.subscript, getitem, bind in Hd'.
        destruct (Entity.field e name_field) as [k |]; [| discriminate].
        simpl in Hd'. destruct (Entity.uuid e) as [v |]; [| discriminate].
        apply (IH _ (Dict_set_keys_NoDup k v acc Hacc) _ Hd'). }
    apply (H [] (NoDup_nil _) d Hd).
  - intros k. split.
    + intros Hk. unfold Dict.keys in Hk. apply in_map_iff in Hk as ([k' v] & <- & Hin).
      destruct (entity_dict_items _ _ _ _ Hd k' v Hin) as [[] | (e & He & Hk & _)].
      now exists e.
    + intros Hex.
      assert (Hget : Dict.get k d <> None)
        by (apply (entity_dict_covers _ _ _ _ Hd); now right).
      destruct (Dict.get k d) as [v |] eqn:E; [| contradiction].
      apply Dict_get_In in E. unfold Dict.keys. apply in_map_iff. now exists (k, v).
Qed.

Lemma entity_dict_one_item_per_name_witness :
  NoDup (Dict.keys [("Prod", "u-3"); ("prod", "u-2")])
  /\ (forall k, In k (Dict.keys [("Prod", "u-3"); ("prod", "u-2")])
                <-> exists e, In e (entities_or_empty targets_prod)
                              /\ Entity.field e Entity.K_name = Some k).
Proof.
  apply (entity_dict_one_item_per_name Entity.K_name (entities_or_empty targets_prod)).
  reflexivity.
Defined.

(** ** More on the command line *)

Lemma str_in_false (x : string) (l : list string) :
  ~ In x l -> str_in x l = false.
Proof.
  intros H. destruct (str_in x l) eqn:E; [| reflexivity].
  apply str_in_In in E. contradiction.
Qed.

Lemma parse_arguments_rejects {rt : Runtime} (o : Values) (ty : string) :
  scantype o = Some ty ->
  ~ In ty ALL_CHECK_TYPES ->
  exists out, parse_arguments o = Raise (SystemExit EXIT_UNKNOWN out).
Proof.
  intros Hty Hnot.
  destruct o as [tok hst tgt sty tmo vrb w c per]; simpl in Hty; subst sty.
  unfold parse_arguments; cbn [scantype apitoken host vmtarget opt_in].
  assert (H1 : str_in ty types_without_vmtarget = false).
  { apply str_in_false. intros H. apply Hnot. simpl in H |- *. tauto. }
  rewrite H1.
  destruct (truthy_opt tok && truthy_opt hst && truthy_opt tgt && truthy_opt (Some ty))%bool;
    cbn [negb when bind sys_exit].
  - cbn [scantype opt_in]. rewrite (str_in_false _ _ Hnot). cbn [negb when bind sys_exit].
    eexists; reflexivity.
  - eexists; reflexivity.
Qed.

(** X6. A check type outside [ALL_CHECK_TYPES] ends the run with code
    3 before anything is requested.  When the token, the host or [-n] is
    missing (or the type is the empty string) the usage text is printed;
    otherwise the type is named as invalid and the known types are listed,
    one line for each category of [CHECK_TYPES], every known type in the
    line of its category. *)
Theorem parse_arguments_unknown_type {rt : Runtime} (o : Values) (ty : string) :
  scantype o = Some ty ->
  ~ In ty ALL_CHECK_TYPES ->
  let complete := truthy_opt (apitoken o) && truthy_opt (host o)
                  && truthy_opt (vmtarget o) && truthy ty in
  exists listing,
    parse_arguments o
    = Raise (SystemExit EXIT_UNKNOWN
               (if complete
                then Line ("ERROR: Invalid type '" ++ ty ++ "'.")
                     :: Line (String "010" "Available check types by category:")
                     :: map Line listing
                else [Help]))
    /\ List.length listing = List.length CHECK_TYPES
    /\ forall category types known,
         In (category, types) CHECK_TYPES -> In known types ->
         exists line, In line listing
                      /\ startswith ("  " ++ ascii_upper category ++ ": ") line = true
                      /\ contains known line = true.
Proof.
  intros Hty Hnot complete.
  exists (map (fun '(category, types) => "  " ++ ascii_upper category ++ ": " ++ join ", " types)
              CHECK_TYPES).
  split; [| split].
  - subst complete.
    destruct o as [tok hst tgt sty tmo vrb w c per]; simpl in Hty; subst sty.
    unfold parse_arguments; cbn [scantype apitoken host vmtarget opt_in].
    assert (H1 : str_in ty types_without_vmtarget = false).
    { apply str_in_false. intros H. apply Hnot. simpl in H |- *. tauto. }
    rewrite H1. change (truthy_opt (Some ty)) with (truthy ty).
    destruct (truthy_opt tok && truthy_opt hst && truthy_opt tgt && truthy ty)%bool;
      cbn [negb when bind sys_exit]; [| reflexivity].
    cbn [scantype opt_in]. rewrite (str_in_false _ _ Hnot). cbn [negb when bind sys_exit].
    rewrite map_map. cbn [opt_str]. do 4 f_equal.
  - now rewrite length_map.
  - intros category types known Hcat Hknown.
    exists ("  " ++ ascii_upper category ++ ": " ++ join ", " types).
    split.
    { apply in_map_iff. exists (category, types). split; [reflexivity | exact Hcat]. }
    unfold CHECK_TYPES in Hcat. simpl in Hcat.
    repeat match goal with
           | H : _ \/ _ |- _ => destruct H
           | H : False |- _ => destruct H
           | H : (_, _) = (category, types) |- _ => injection H as <- <-; simpl in Hknown
           | H : _ = known |- _ => subst known
           end; split; reflexivity.
Qed.

Ltac split_ifs H :=
  repeat match type of H with
         | context [if ?b then _ else _] =>
             let E := fresh "E" in destruct b eqn:E; simpl in H; try discriminate H
         | context [match int ?s with _ => _ end] =>
             let E := fresh "E" in destruct (int s) eqn:E; simpl in H; try discriminate H
         end.

Lemma parse_arguments_known_type {rt : Runtime} (o o' : Values) :
  parse_arguments o = Ok o' ->
  exists ty, scantype o = Some ty /\ In ty ALL_CHECK_TYPES.
Proof.
  intros H. destruct (scantype o) as [ty |] eqn:Hty.
  - exists ty. split; [reflexivity |].
    destruct (in_dec string_dec ty ALL_CHECK_TYPES) as [Hin | Hnot]; [exact Hin |].
    destruct (parse_arguments_rejects o ty Hty Hnot) as (out & Hout). congruence.
  - destruct o as [tok hst tgt sty tmo vrb w c per]; simpl in Hty; subst sty.
    unfold parse_arguments in H; simpl in H.
    rewrite !andb_false_r in H. discriminate H.
Qed.

(** X7. Options that pass [parse_arguments] carry a token, a host and a
    known check type, whatever the type, and a target: the given [-n], or
    the check type itself where [-n] may be left out.  Nothing else of the
    options is changed. *)
Theorem parse_arguments_accepted {rt : Runtime} (o o' : Values) :
  parse_arguments o = Ok o' ->
  exists ty,
    scantype o = Some ty /\ In ty ALL_CHECK_TYPES
    /\ truthy_opt (apitoken o) = true
    /\ truthy_opt (host o) = true
    /\ o' = set_vmtarget o (if truthy_opt (vmtarget o) then vmtarget o else Some ty)
    /\ truthy_opt (vmtarget o') = true.
Proof.
  intros H. destruct (parse_arguments_known_type o o' H) as (ty & Hty & Hin).
  exists ty. split; [exact Hty |]. split; [exact Hin |].
  destruct o as [tok hst tgt sty tmo vrb w c per]; simpl in Hty; subst sty.
  cbn [apitoken host vmtarget].
  unfold ALL_CHECK_TYPES in Hin; simpl in Hin.
  destruct (truthy_opt tok) eqn:Htok, (truthy_opt hst) eqn:Hhst, (truthy_opt tgt) eqn:Htgt;
    repeat (destruct Hin as [<- | Hin]; [| ]); try contradiction;
    unfold parse_arguments, validate_thresholds, check_period, parser_error, sys_exit, when,
      bind in H;
    simpl in H; rewrite ?Htok, ?Hhst, ?Htgt in H; simpl in H; try discriminate H;
    split_ifs H; injection H as <-; repeat split; try reflexivity; try exact Htgt.
Qed.

Lemma opt_is_true (x : option string) (s : string) :
  opt_is x s = true -> x = Some s.
Proof.
  destruct x as [s' |]; simpl; [| discriminate].
  intros H. apply String.eqb_eq in H. now subst.
Qed.

Ltac arith_of_tests :=
  repeat match goal with
         | H : (_ || _)%bool = false |- _ => apply orb_false_iff in H; destruct H
         | H : (_ <? _) = false |- _ => apply Z.ltb_ge in H
         | H : (_ >? _) = false |- _ => rewrite Z.gtb_ltb in H; apply Z.ltb_ge in H
         end.

(** X8. Options that pass [parse_arguments] have their numbers checked:
    the thresholds are ordered and not negative for the checks that use
    them (warning >= critical for license, critical >= warning for the
    others), the period is within 1..168 for jobs and backup-validation,
    and the [-n] of a port check is the dummy ['port'] or a port number
    within 1..65535. *)
Theorem parse_arguments_validated {rt : Runtime} (o o' : Values) (ty : string) :
  parse_arguments o = Ok o' ->
  scantype o = Some ty ->
  (In ty threshold_types ->
   if (ty =? "license")%string
   then warning_threshold o >= critical_threshold o /\ critical_threshold o >= 0
   else critical_threshold o >= warning_threshold o /\ warning_threshold o >= 0)
  /\ (ty = "jobs" \/ ty = "backup-validation" -> 1 <= period_hours o <= 168)
  /\ (ty = "port" -> valid_port_option (vmtarget o)).
Proof.
  intros H Hty. destruct (parse_arguments_known_type o o' H) as (ty' & Hty' & Hin).
  assert (ty' = ty) by congruence; subst ty'. clear Hty'.
  destruct o as [tok hst tgt sty tmo vrb w c per]; simpl in Hty; subst sty.
  cbn [warning_threshold critical_threshold period_hours vmtarget].
  unfold ALL_CHECK_TYPES in Hin; simpl in Hin.
  destruct (truthy_opt tok) eqn:Htok, (truthy_opt hst) eqn:Hhst, (truthy_opt tgt) eqn:Htgt;
    repeat (destruct Hin as [<- | Hin]; [| ]); try contradiction;
    unfold parse_arguments, validate_thresholds, check_period, parser_error, sys_exit, when,
      bind in H;
    simpl in H; rewrite ?Htok, ?Hhst, ?Htgt in H; simpl in H; try discriminate H;
    split_ifs H; clear H; arith_of_tests;
    (split; [| split]);
    try (intros Hc; simpl in Hc; exfalso; clear - Hc; intuition discriminate);
    try (intros _; simpl; lia).
  - intros _. right. eexists. split; [eassumption | lia].
  - intros _. left. apply opt_is_true. rewrite Htgt in E. now apply negb_false_iff.
Qed.

Lemma parse_arguments_unknown_type_witness :
  exists listing,
    parse_arguments (options_for "vms" (Some "web01") 5 10 24)
    = Raise (SystemExit EXIT_UNKNOWN
               (Line "ERROR: Invalid type 'vms'."
                :: Line (String "010" "Available check types by category:")
                :: map Line listing))
    /\ List.length listing = 6%nat
    /\ forall category types known,
         In (category, types) CHECK_TYPES -> In known types ->
         exists line, In line listing
                      /\ startswith ("  " ++ ascii_upper category ++ ": ") line = true
                      /\ contains known line = true.
Proof.
  apply (parse_arguments_unknown_type (rt := ascii_runtime)
           (options_for "vms" (Some "web01") 5 10 24) "vms" eq_refl).
  simpl. intros H. repeat (destruct H as [H | H]; [discriminate H |]). exact H.
Defined.

Lemma parse_arguments_accepted_witness :
  exists ty,
    scantype (options_for "shares" None 3 5 24) = Some ty /\ In ty ALL_CHECK_TYPES
    /\ truthy_opt (apitoken (options_for "shares" None 3 5 24)) = true
    /\ truthy_opt (host (options_for "shares" None 3 5 24)) = true
    /\ options_for "shares" (Some "shares") 3 5 24
       = set_vmtarget (options_for "shares" None 3 5 24)
                      (if truthy_opt (vmtarget (options_for "shares" None 3 5 24))
                       then vmtarget (options_for "shares" None 3 5 24) else Some ty)
    /\ truthy_opt (vmtarget (options_for "shares" (Some "shares") 3 5 24)) = true.
Proof.
  apply (parse_arguments_accepted (options_for "shares" None 3 5 24)). reflexivity.
Defined.

Lemma parse_arguments_validated_witness :
  1 <= 48 <= 168 /\ valid_port_option (Some "8443").
Proof.
  split.
  - apply (proj1 (proj2 (parse_arguments_validated (rt := ascii_runtime)
                           (options_for "jobs" None 5 10 48) _ "jobs" eq_refl eq_refl))).
    now left.
  - apply (proj2 (proj2 (parse_arguments_validated (rt := ascii_runtime)
                           (options_for "port" (Some "8443") 5 10 24)
                           (options_for "port" (Some "8443") 5 10 24) "port"
                           eq_refl eq_refl))).
    reflexivity.
Defined.

(** X9. A period outside 1..168 for the jobs and backup-validation checks,
    and a [-n] of a port check that is no integer or no port number, end
    the run through [parser.error]: exit status 2, not the status 3 of the
    other argument errors. *)
Theorem parse_arguments_parser_error {rt : Runtime} (o : Values) (ty : string) :
  scantype o = Some ty ->
  truthy_opt (apitoken o) = true ->
  truthy_opt (host o) = true ->
  (ty = "jobs" \/ ty = "backup-validation" ->
   critical_threshold o >= warning_threshold o -> warning_threshold o >= 0 ->
   period_hours o < 1 \/ period_hours o > 168 ->
   parse_arguments o
   = Raise (SystemExit 2 [ErrLine "Period must be between 1 and 168 hours"]))
  /\ (ty = "port" -> truthy_opt (vmtarget o) = true -> vmtarget o <> Some "port" ->
      (int (opt_str (vmtarget o)) = None ->
       parse_arguments o
       = Raise (SystemExit 2 [ErrLine ("Port number must be an integer, got '"
                                       ++ opt_str (vmtarget o) ++ "'")]))
      /\ (forall port_num,
             int (opt_str (vmtarget o)) = Some port_num ->
             port_num < 1 \/ port_num > 65535 ->
             parse_arguments o
             = Raise (SystemExit 2 [ErrLine "Port number must be between 1 and 65535"]))).
Proof.
  intros Hty Htok Hhst.
  destruct o as [tok hst tgt sty tmo vrb w c per]; simpl in *; subst sty.
  split.
  - intros Hjobs Hcw Hw Hper.
    assert (Hw0 : (w <? 0) = false) by (apply Z.ltb_ge; lia).
    assert (Hc0 : (c <? 0) = false) by (apply Z.ltb_ge; lia).
    assert (Hord : (c <? w) = false) by (apply Z.ltb_ge; lia).
    assert (Hrange : (per <? 1) || (per >? 168) = true).
    { apply orb_true_iff. rewrite Z.gtb_ltb, !Z.ltb_lt. lia. }
    destruct Hjobs as [-> | ->];
      unfold parse_arguments, check_period, validate_thresholds; simpl;
      rewrite Htok, Hhst; destruct (truthy_opt tgt); simpl;
      rewrite Hw0, Hc0, Hord; simpl; rewrite Hrange; reflexivity.
  - intros -> Htgt Hnot.
    destruct tgt as [s |]; [| discriminate Htgt].
    assert (Hs : (s =? "port")%string = false).
    { destruct (String.eqb_spec s "port"); [subst; contradiction | reflexivity]. }
    simpl in Htgt. simpl opt_str.
    split.
    + intros Hint. unfold parse_arguments; simpl.
      rewrite Htok, Hhst, Htgt; simpl. rewrite Htgt, Hs, Hint. reflexivity.
    + intros port_num Hint Hrange. unfold parse_arguments; simpl.
      rewrite Htok, Hhst, Htgt; simpl. rewrite Htgt, Hs, Hint.
      assert (Hout : (port_num <? 1) || (port_num >? 65535) = true).
      { apply orb_true_iff. rewrite Z.gtb_ltb, !Z.ltb_lt. lia. }
      simpl. rewrite Hout. reflexivity.
Qed.

Lemma parse_arguments_parser_error_witness :
  parse_arguments (options_for "backup-validation" None 5 10 0)
  = Raise (SystemExit 2 [ErrLine "Period must be between 1 and 168 hours"])
  /\ parse_arguments (options_for "port" (Some "https") 5 10 24)
     = Raise (SystemExit 2 [ErrLine "Port number must be an integer, got 'https'"])
  /\ parse_arguments (options_for "port" (Some "70000") 5 10 24)
     = Raise (SystemExit 2 [ErrLine "Port number must be between 1 and 65535"]).
Proof.
  split; [| split].
  - apply (proj1 (parse_arguments_parser_error
                    (options_for "backup-validation" None 5 10 0) "backup-validation"
                    eq_refl eq_refl eq_refl)); simpl; try lia. now right.
  - apply (proj1 (proj2 (parse_arguments_parser_error
                           (options_for "port" (Some "https") 5 10 24) "port"
                           eq_refl eq_refl eq_refl) eq_refl eq_refl ltac:(discriminate))).
    reflexivity.
  - apply (proj2 (proj2 (parse_arguments_parser_error
                           (options_for "port" (Some "70000") 5 10 24) "port"
                           eq_refl eq_refl eq_refl) eq_refl eq_refl ltac:(discriminate))
             70000); [reflexivity | lia].
Defined.

(** ** More on the handlers of shape A *)

(** X10. A backups listing whose total count is 0 or absent is CRITICAL
    for the vm and the archive checks, with metric 0 and the name of the
    command line, whatever the listing holds otherwise. *)
Theorem no_backups_is_critical (data : listing Backup.t) (vm_name : string) :
  (metadata data = None
   \/ (exists m, metadata data = Some m /\ get (grandTotalEntityCount m) 0 = 0)) ->
  check_vm_backup (Json data) vm_name
  = Ok (EXIT_CRITICAL, vm_name ++ " has no backups |backup_status=0;;;")
  /\ check_archive_status (Json data) vm_name
     = Ok (EXIT_CRITICAL, vm_name ++ " has no backups |archive_status=0;;;").
Proof.
  intros H.
  assert (Hzero : grand_total data = 0).
  { unfold grand_total. destruct H as [-> | (m & -> & Hm)]; [reflexivity | exact Hm]. }
  unfold check_vm_backup, check_archive_status, api_request, bind.
  rewrite Hzero. split; reflexivity.
Qed.

Lemma no_backups_is_critical_witness :
  check_vm_backup (Json {| entities := Some []; metadata := None |}) "WEB01"
  = Ok (EXIT_CRITICAL, "WEB01 has no backups |backup_status=0;;;")
  /\ check_archive_status (Json {| entities := Some []; metadata := None |}) "WEB01"
     = Ok (EXIT_CRITICAL, "WEB01 has no backups |archive_status=0;;;").
Proof.
  apply (no_backups_is_critical {| entities := Some []; metadata := None |} "WEB01").
  left. reflexivity.
Defined.

(** X11. With backups, the vm check maps the status of the latest one: OK
    exits 0 with metric 2, WARNING exits 1 with metric 1, FATAL exits 2
    with metric 0; the text carries the name the API gives, or else the
    name of the command line. *)
Theorem check_vm_backup_table
        (data : listing Backup.t) (vm_name : string)
        (latest : Backup.t) (rest : list Backup.t) (s t : string) :
  grand_total data <> 0 ->
  entities data = Some (latest :: rest) ->
  Backup.status latest = Some s ->
  Backup.type latest = Some t ->
  let said := fun metric =>
    get (Backup.vmName latest) vm_name ++ " is " ++ s ++ " for last " ++ t
    ++ " |backup_status=" ++ metric ++ ";;;" in
  (s = "OK" -> check_vm_backup (Json data) vm_name = Ok (EXIT_OK, said "2"))
  /\ (s = "WARNING" -> check_vm_backup (Json data) vm_name = Ok (EXIT_WARNING, said "1"))
  /\ (s = "FATAL" -> check_vm_backup (Json data) vm_name = Ok (EXIT_CRITICAL, said "0")).
Proof.
  intros Hcount Hes Hs Ht said. subst said.
  unfold check_vm_backup, api_request, bind.
  destruct (Z.eqb_spec (grand_total data) 0) as [E | _]; [contradiction |].
  rewrite Hes; cbn [getitem first]. rewrite Hs, Ht; cbn [getitem].
  repeat split; intros ->; reflexivity.
Qed.

Lemma check_vm_backup_table_witness :
  check_vm_backup (Json (backups_one "FATAL")) "WEB01"
  = Ok (EXIT_CRITICAL, "web01 is FATAL for last FULL |backup_status=0;;;").
Proof.
  refine (proj2 (proj2 (check_vm_backup_table (backups_one "FATAL") "WEB01"
                          _ [] "FATAL" "FULL" _ eq_refl eq_refl eq_refl)) eq_refl).
  vm_compute. discriminate.
Defined.

(** X12. A backups listing that counts backups but does not show the
    latest one makes the vm and the archive checks raise: [KeyError] when
    ['entities'] is absent, [IndexError] when it is empty, [KeyError] when
    the latest backup has no ['type'] (and, for the vm check, no
    ['status']). *)
Theorem latest_backup_missing (data : listing Backup.t) (vm_name : string) :
  grand_total data <> 0 ->
  (entities data = None ->
   check_vm_backup (Json data) vm_name = Raise (KeyError "entities")
   /\ check_archive_status (Json data) vm_name = Raise (KeyError "entities"))
  /\ (entities data = Some [] ->
      check_vm_backup (Json data) vm_name = Raise IndexError
      /\ check_archive_status (Json data) vm_name = Raise IndexError)
  /\ (forall latest rest,
         entities data = Some (latest :: rest) ->
         (Backup.status latest = None ->
          check_vm_backup (Json data) vm_name = Raise (KeyError "status"))
         /\ (Backup.type latest = None ->
             (Backup.status latest <> None ->
              check_vm_backup (Json data) vm_name = Raise (KeyError "type"))
             /\ check_archive_status (Json data) vm_name = Raise (KeyError "type"))).
Proof.
  intros Hcount.
  unfold check_vm_backup, check_archive_status, api_request, bind.
  destruct (Z.eqb_spec (grand_total data) 0) as [E | _]; [contradiction |].
  split; [| split].
  - intros ->. split; reflexivity.
  - intros ->. split; reflexivity.
  - intros latest rest ->; cbn [getitem first]. split.
    + intros ->. reflexivity.
    + intros Ht. rewrite Ht. split; [| reflexivity].
      destruct (Backup.status latest); [reflexivity | contradiction].
Qed.

Lemma latest_backup_missing_witness :
  check_vm_backup
    (Json {| entities := Some []; metadata := Some {| grandTotalEntityCount := Some 2 |} |})
    "WEB01" = Raise IndexError
  /\ check_archive_status
       (Json {| entities := Some []; metadata := Some {| grandTotalEntityCount := Some 2 |} |})
       "WEB01" = Raise IndexError.
Proof.
  refine (proj1 (proj2 (latest_backup_missing
                          {| entities := Some [];
                             metadata := Some {| grandTotalEntityCount := Some 2 |} |}
                          "WEB01" _)) eq_refl).
  vm_compute. discriminate.
Defined.

(** ** More on the counting loops *)

Lemma count_of_cons {A} (p : A -> bool) (x : A) (l : list A) :
  count_of p (x :: l) = (if p x then 1 else 0) + count_of p l.
Proof.
  unfold count_of; simpl. destruct (p x); simpl List.length; lia.
Qed.

Lemma count_of_nil {A} (p : A -> bool) : count_of p [] = 0.
Proof. reflexivity. Qed.

Lemma Jobs_step_counts {rt : Runtime} (s : Jobs.stats) (job : Job.t) :
  jobs_seen (Jobs.step s job) = jobs_seen s + 1
  /\ Jobs.failed (Jobs.step s job) = Jobs.failed s + (if failed_job job then 1 else 0)
  /\ Z.of_nat (List.length (Jobs.failed_jobs (Jobs.step s job)))
     = Z.of_nat (List.length (Jobs.failed_jobs s)) + (if failed_job job then 1 else 0).
Proof.
  unfold Jobs.step, failed_job, jobs_seen, Jobs.failed, str_in.
  remember (upper (get (Job.status job) "UNKNOWN")) as status eqn:Hstatus; clear Hstatus.
  cbn [existsb].
  destruct (String.eqb_spec status "OK") as [-> | _]; [simpl; lia |].
  destruct (String.eqb_spec status "WARNING") as [-> | _];
    [simpl; rewrite length_app, Nat2Z.inj_add; simpl; lia |].
  destruct (String.eqb_spec status "ERROR") as [-> | _];
    [simpl; rewrite length_app, Nat2Z.inj_add; simpl; lia |].
  match goal with
  | |- context [if ?b then _ else _] => destruct b
  end; simpl; lia.
Qed.

Lemma Jobs_fold_counts {rt : Runtime} (es : list Job.t) (s : Jobs.stats) :
  let s' := fold_left Jobs.step es s in
  jobs_seen s' = jobs_seen s + Z.of_nat (List.length es)
  /\ Jobs.failed s' = Jobs.failed s + count_of failed_job es
  /\ Z.of_nat (List.length (Jobs.failed_jobs s'))
     = Z.of_nat (List.length (Jobs.failed_jobs s)) + count_of failed_job es.
Proof.
  revert s; induction es as [| job es IH]; intros s; simpl.
  - rewrite count_of_nil. lia.
  - destruct (IH (Jobs.step s job)) as (H1 & H2 & H3).
    destruct (Jobs_step_counts s job) as (S1 & S2 & S3).
    rewrite count_of_cons. simpl in H1, H2, H3. lia.
Qed.

(** X13. The loop of the jobs check puts every job of the listing in one
    of its five counters, and the failed count it compares with the
    thresholds is the number of jobs whose status, in upper case, is
    WARNING or ERROR (the jobs it lists as failed); a job of any other
    status never counts as failed. *)
Theorem check_jobs_counts {rt : Runtime} (data : listing Job.t) (es : list Job.t) :
  entities data = Some es ->
  let s := Jobs.count data in
  Jobs.ok s + Jobs.warning s + Jobs.error s + Jobs.running s + Jobs.other s
  = Z.of_nat (List.length es)
  /\ Jobs.failed s = count_of failed_job es
  /\ Z.of_nat (List.length (Jobs.failed_jobs s)) = Jobs.failed s.
Proof.
  intros Hes. unfold Jobs.count. rewrite Hes.
  destruct (metadata data) as [m |];
    match goal with
    | |- context [fold_left Jobs.step es ?s0] =>
        destruct (Jobs_fold_counts es s0) as (H1 & H2 & H3)
    end; unfold jobs_seen, Jobs.failed in *; simpl in *; lia.
Qed.

Lemma check_jobs_counts_witness :
  Jobs.failed (Jobs.count jobs_two_failed) = count_of failed_job [job "ERROR"; job "Warning"; job "OK"]
  /\ Z.of_nat (List.length (Jobs.failed_jobs (Jobs.count jobs_two_failed)))
     = Jobs.failed (Jobs.count jobs_two_failed).
Proof.
  apply (check_jobs_counts jobs_two_failed [job "ERROR"; job "Warning"; job "OK"] eq_refl).
Defined.

Lemma Validation_step_counts {rt : Runtime} (s : Validation.stats) (job : Job.t) :
  let s' := Validation.step s job in
  Validation.total s' = Validation.total s + (if validation_job job then 1 else 0)
  /\ Validation.failed s'
     = Validation.failed s + (if validation_job job && failed_job job then 1 else 0)
  /\ Validation.ok s' + Validation.failed s' - Validation.total s'
     <= Validation.ok s + Validation.failed s - Validation.total s
  /\ Validation.ok s <= Validation.ok s'.
Proof.
  unfold Validation.step, validation_job, failed_job, Validation.failed, str_in.
  destruct (contains "VALIDATION" _ || contains "RESTORE_VALIDATE" _); [| simpl; lia].
  remember (upper (get (Job.status job) "UNKNOWN")) as status eqn:Hstatus; clear Hstatus.
  cbn [existsb].
  destruct (String.eqb_spec status "OK") as [-> | _]; [simpl; lia |].
  destruct (String.eqb_spec status "WARNING") as [-> | _]; [simpl; lia |].
  destruct (String.eqb_spec status "ERROR") as [-> | _]; simpl; lia.
Qed.

Lemma Validation_fold_counts {rt : Runtime} (es : list Job.t) (s : Validation.stats) :
  let s' := fold_left Validation.step es s in
  Validation.total s' = Validation.total s + count_of validation_job es
  /\ Validation.failed s'
     = Validation.failed s + count_of (fun job => validation_job job && failed_job job) es
  /\ Validation.ok s' + Validation.failed s' - Validation.total s'
     <= Validation.ok s + Validation.failed s - Validation.total s
  /\ Validation.ok s <= Validation.ok s'.
Proof.
  revert s; induction es as [| job es IH]; intros s; simpl.
  - rewrite !count_of_nil. lia.
  - destruct (IH (Validation.step s job)) as (H1 & H2 & H3 & H4).
    destruct (Validation_step_counts s job) as (S1 & S2 & S3 & S4).
    rewrite !count_of_cons. simpl in H1, H2, H3, H4. lia.
Qed.

(** X14. The backup-validation check looks only at the jobs whose type
    contains VALIDATION or RESTORE_VALIDATE: its total is their number, its
    failed count is the number of those whose status, in upper case, is
    WARNING or ERROR, and successes and failures together never exceed the
    total. *)
Theorem check_backup_validation_counts {rt : Runtime} (data : listing Job.t) (es : list Job.t) :
  entities data = Some es ->
  let s := Validation.count data in
  Validation.total s = count_of validation_job es
  /\ Validation.failed s = count_of (fun job => validation_job job && failed_job job) es
  /\ 0 <= Validation.ok s
  /\ Validation.ok s + Validation.failed s <= Validation.total s.
Proof.
  intros Hes. unfold Validation.count. rewrite Hes.
  destruct (Validation_fold_counts es Validation.zero) as (H1 & H2 & H3 & H4).
  unfold Validation.failed in *; simpl in *. lia.
Qed.

Lemma check_backup_validation_counts_witness :
  Validation.total
    (Validation.count {| entities := Some [typed_job "BACKUP" "ERROR";
                                           typed_job "RESTORE_VALIDATE" "error";
                                           typed_job "BACKUP_VALIDATION" "OK"];
                         metadata := None |})
  = count_of validation_job [typed_job "BACKUP" "ERROR";
                             typed_job "RESTORE_VALIDATE" "error";
                             typed_job "BACKUP_VALIDATION" "OK"].
Proof.
  apply (check_backup_validation_counts
           {| entities := Some [typed_job "BACKUP" "ERROR";
                                typed_job "RESTORE_VALIDATE" "error";
                                typed_job "BACKUP_VALIDATION" "OK"];
              metadata := None |} _ eq_refl).
Defined.

Lemma Storage_count_spec (e : Entity.t) (s : Storage.stats) :
  let s' := Storage.count e s in
  Storage.non_compliant s'
  = Storage.non_compliant s + (if non_compliant_entry e then 1 else 0)
  /\ Storage.total s' - Storage.protected s' - Storage.unprotected s'
     = Storage.total s - Storage.protected s - Storage.unprotected s
  /\ Storage.compliant s' + Storage.non_compliant s' - Storage.protected s'
     <= Storage.compliant s + Storage.non_compliant s - Storage.protected s
  /\ Storage.compliant s <= Storage.compliant s'
  /\ Storage.unprotected s <= Storage.unprotected s'
  /\ Storage.non_compliant s <= Storage.non_compliant s'.
Proof.
  unfold Storage.count, non_compliant_entry, str_in.
  remember (get (Entity.status e) "UNKNOWN") as status eqn:Hs; clear Hs.
  remember (get (Entity.compliancyStatus e) "UNKNOWN") as compliancy eqn:Hc; clear Hc.
  cbn [existsb].
  destruct (String.eqb_spec status "PROTECTED") as [-> | Hp]; simpl.
  - destruct (String.eqb_spec compliancy "GREEN") as [-> | _]; [simpl; lia |].
    destruct ((compliancy =? "RED")%string || ((compliancy =? "YELLOW")%string || false));
      simpl; lia.
  - destruct (String.eqb_spec status "UNPROTECTED") as [-> | _]; simpl; lia.
Qed.

Lemma Storage_fold_spec (keep : Entity.t -> bool) (es : list Entity.t) (s : Storage.stats) :
  let s' := fold_left (fun s e => if negb (keep e) then s else Storage.count e s) es s in
  Storage.non_compliant s'
  = Storage.non_compliant s + count_of (fun e => keep e && non_compliant_entry e) es
  /\ Storage.total s' - Storage.protected s' - Storage.unprotected s'
     = Storage.total s - Storage.protected s - Storage.unprotected s
  /\ Storage.compliant s' + Storage.non_compliant s' - Storage.protected s'
     <= Storage.compliant s + Storage.non_compliant s - Storage.protected s
  /\ Storage.compliant s <= Storage.compliant s'
  /\ Storage.unprotected s <= Storage.unprotected s'
  /\ Storage.non_compliant s <= Storage.non_compliant s'.
Proof.
  revert s; induction es as [| e es IH]; intros s; simpl.
  - rewrite count_of_nil. lia.
  - rewrite count_of_cons.
    destruct (IH (if negb (keep e) then s else Storage.count e s)) as (H1 & H2 & H3 & H4 & H5 & H6).
    simpl in H1, H2, H3, H4, H5, H6.
    destruct (keep e); simpl in *; [| lia].
    destruct (Storage_count_spec e s) as (S1 & S2 & S3 & S4 & S5 & S6). simpl in *. lia.
Qed.

(** X15. The counters the shares and the buckets checks print are
    consistent: the total is the protected plus the unprotected entries,
    the compliant plus the non-compliant ones never exceed the protected
    ones, and no counter is negative.  The non-compliant count compared
    with the thresholds is the number of entries of the handler's protocol
    that are PROTECTED with compliance RED or YELLOW: an unprotected entry
    never adds to it. *)
Theorem storage_counters (data : listing Entity.t) (es : list Entity.t) :
  entities data = Some es ->
  (let s := Storage.shares_stats data in
   Storage.total s = Storage.protected s + Storage.unprotected s
   /\ Storage.compliant s + Storage.non_compliant s <= Storage.protected s
   /\ 0 <= Storage.compliant s /\ 0 <= Storage.unprotected s
   /\ Storage.non_compliant s
      = count_of (fun e => Storage.is_share e && non_compliant_entry e) es)
  /\ (let s := Storage.buckets_stats data in
      Storage.total s = Storage.protected s + Storage.unprotected s
      /\ Storage.compliant s + Storage.non_compliant s <= Storage.protected s
      /\ 0 <= Storage.compliant s /\ 0 <= Storage.unprotected s
      /\ Storage.non_compliant s
         = count_of (fun e => Storage.is_bucket e && non_compliant_entry e) es).
Proof.
  intros Hes. unfold Storage.shares_stats, Storage.buckets_stats. rewrite Hes.
  split.
  - destruct (Storage_fold_spec Storage.is_share es Storage.zero)
      as (H1 & H2 & H3 & H4 & H5 & H6).
    unfold Storage.shares_step. simpl in *. lia.
  - destruct (Storage_fold_spec Storage.is_bucket es Storage.zero)
      as (H1 & H2 & H3 & H4 & H5 & H6).
    unfold Storage.buckets_step. simpl in *. lia.
Qed.

Lemma storage_counters_witness :
  Storage.non_compliant (Storage.shares_stats shares_one_red)
  = count_of (fun e => Storage.is_share e && non_compliant_entry e)
             [share ["NFS"] "PROTECTED" "RED"; share ["S3"] "PROTECTED" "GREEN"].
Proof.
  apply (proj1 (storage_counters shares_one_red _ eq_refl)).
Defined.

Lemma Unassigned_fold_spec (keep : Entity.t -> bool) (name_of : Entity.t -> string)
      (es : list Entity.t) (c : Unassigned.category) :
  let c' := fold_left (fun c e => if keep e then Unassigned.add (name_of e) c else c) es c in
  Unassigned.count c' = Unassigned.count c + count_of keep es
  /\ Unassigned.objects c'
     = (Unassigned.objects c ++ map name_of (filter keep es))%list.
Proof.
  revert c; induction es as [| e es IH]; intros c; simpl.
  - rewrite count_of_nil, app_nil_r. split; [lia | reflexivity].
  - rewrite count_of_cons.
    destruct (IH (if keep e then Unassigned.add (name_of e) c else c)) as (H1 & H2).
    simpl in H1, H2. rewrite H1, H2.
    destruct (keep e); cbn [Unassigned.count Unassigned.objects Unassigned.add];
      (split; [lia | rewrite <- ?app_assoc; reflexivity]).
Qed.

Lemma fold_left_ext {A B} (f g : A -> B -> A) (l : list B) (a : A) :
  (forall a b, f a b = g a b) -> fold_left f l a = fold_left g l a.
Proof.
  intros H. revert a; induction l as [| b l IH]; intros a; simpl; [reflexivity |].
  rewrite H. apply IH.
Qed.

Lemma Unassigned_scan_spec (step : Unassigned.category -> Entity.t -> Unassigned.category)
      (keep : Entity.t -> bool) (name_of : Entity.t -> string)
      (data : listing Entity.t) (es : list Entity.t) :
  (forall c e, step c e = if keep e then Unassigned.add (name_of e) c else c) ->
  entities data = Some es ->
  Unassigned.count (Unassigned.scan step data) = count_of keep es
  /\ Unassigned.objects (Unassigned.scan step data) = map name_of (filter keep es).
Proof.
  intros Hstep Hes. unfold Unassigned.scan. rewrite Hes.
  rewrite (fold_left_ext _ _ es Unassigned.empty Hstep).
  destruct (Unassigned_fold_spec keep name_of es Unassigned.empty) as (H1 & H2).
  simpl in *. split; [lia | exact H2].
Qed.

(** X16. In the unassigned check an entry counts exactly when its
    ['protectionGroupName'] is absent or empty (and, for shares and
    buckets, its protocol list passes the filter): for each of the five
    categories, the count is the number of such entries of the document
    that was fetched, and the list of names holds the name of each of
    them, in the order of the document. *)
Theorem unassigned_counts
        (r_vms r_shares r_apps r_vgs : response (listing Entity.t)) :
  exists f,
    Unassigned.collect r_vms r_shares r_apps r_vgs = Ok f
    /\ (forall d es, r_vms = Json d -> entities d = Some es ->
          Unassigned.count (Unassigned.vms f) = count_of Unassigned.no_policy es
          /\ Unassigned.objects (Unassigned.vms f)
             = map (fun e => get (Entity.vmName e) "Unknown")
                   (filter Unassigned.no_policy es))
    /\ (forall d es, r_shares = Json d -> entities d = Some es ->
          (Unassigned.count (Unassigned.shares f)
           = count_of (fun e => Storage.is_share e && Unassigned.no_policy e) es
           /\ Unassigned.objects (Unassigned.shares f)
              = map (fun e => get (Entity.shareName e) "Unknown")
                    (filter (fun e => Storage.is_share e && Unassigned.no_policy e) es))
          /\ (Unassigned.count (Unassigned.buckets f)
              = count_of (fun e => Storage.is_bucket e && Unassigned.no_policy e) es
              /\ Unassigned.objects (Unassigned.buckets f)
                 = map (fun e => get (Entity.shareName e) "Unknown")
                       (filter (fun e => Storage.is_bucket e && Unassigned.no_policy e) es)))
    /\ (forall d es, r_apps = Json d -> entities d = Some es ->
          Unassigned.count (Unassigned.apps f) = count_of Unassigned.no_policy es
          /\ Unassigned.objects (Unassigned.apps f)
             = map (fun e => get (Entity.name e) "Unknown")
                   (filter Unassigned.no_policy es))
    /\ (forall d es, r_vgs = Json d -> entities d = Some es ->
          Unassigned.count (Unassigned.vgs f) = count_of Unassigned.no_policy es
          /\ Unassigned.objects (Unassigned.vgs f)
             = map (fun e => get (Entity.name e) "Unknown")
                   (filter Unassigned.no_policy es)).
Proof.
  eexists. split; [apply Unassigned_collect_eq |].
  cbn [Unassigned.vms Unassigned.shares Unassigned.buckets Unassigned.apps Unassigned.vgs].
  split; [| split; [| split]].
  - intros d es -> Hes. cbn [fetched].
    apply (Unassigned_scan_spec Unassigned.vm_step Unassigned.no_policy
             (fun e => get (Entity.vmName e) "Unknown") d es); [| exact Hes].
    intros c e. reflexivity.
  - intros d es -> Hes. cbn [fetched]. split.
    + apply (Unassigned_scan_spec Unassigned.share_step
               (fun e => Storage.is_share e && Unassigned.no_policy e)
               (fun e => get (Entity.shareName e) "Unknown") d es); [| exact Hes].
      intros c e. unfold Unassigned.share_step. destruct (Storage.is_share e); reflexivity.
    + apply (Unassigned_scan_spec Unassigned.bucket_step
               (fun e => Storage.is_bucket e && Unassigned.no_policy e)
               (fun e => get (Entity.shareName e) "Unknown") d es); [| exact Hes].
      intros c e. unfold Unassigned.bucket_step. destruct (Storage.is_bucket e); reflexivity.
  - intros d es -> Hes. cbn [fetched].
    apply (Unassigned_scan_spec Unassigned.app_step Unassigned.no_policy
             (fun e => get (Entity.name e) "Unknown") d es); [| exact Hes].
    intros c e. reflexivity.
  - intros d es -> Hes. cbn [fetched].
    apply (Unassigned_scan_spec Unassigned.vg_step Unassigned.no_policy
             (fun e => get (Entity.name e) "Unknown") d es); [| exact Hes].
    intros c e. reflexivity.
Qed.

Lemma unassigned_counts_witness :
  exists f,
    Unassigned.collect (Failed "down") (Json shares_two) (Json nothing) (Json nothing) = Ok f
    /\ Unassigned.count (Unassigned.shares f) = 1
    /\ Unassigned.objects (Unassigned.shares f) = ["home"]
    /\ Unassigned.count (Unassigned.buckets f) = 1
    /\ Unassigned.objects (Unassigned.buckets f) = ["logs"].
Proof.
  destruct (unassigned_counts (Failed "down") (Json shares_two) (Json nothing) (Json nothing))
    as (f & Hf & _ & Hshares & _).
  exists f. split; [exact Hf |].
  destruct (Hshares shares_two _ eq_refl eq_refl) as ((H1 & H2) & (H3 & H4)).
  repeat split; assumption.
Defined.

(** ** The license, version, manager, policy and port handlers *)

(** X17. The license check is CRITICAL whenever the information to count
    down from is missing: without a license record it says so, whatever the
    thresholds; with a record whose ['daysLeft'] is absent (read as 0) or
    not positive, for every critical threshold that passed validation. *)
Theorem check_license_missing
        (local_date : Z -> option string) (data : listing License.t)
        (warning_days critical_days : Z) :
  (entities_or_empty data = [] ->
   check_license local_date (Json data) warning_days critical_days
   = Ok (EXIT_CRITICAL, "CRITICAL: No license information found"))
  /\ (forall lic rest,
         entities data = Some (lic :: rest) ->
         critical_days >= 0 ->
         License.daysLeft lic = None \/ (exists d, License.daysLeft lic = Some d /\ d <= 0) ->
         CRITICAL (check_license local_date (Json data) warning_days critical_days)).
Proof.
  unfold check_license, api_request, bind. split.
  - intros ->. reflexivity.
  - intros lic rest Hes Hc Hdays. unfold entities_or_empty. rewrite Hes; cbn [get].
    assert (Hle : get (License.daysLeft lic) 0 <= critical_days).
    { destruct Hdays as [-> | (d & -> & Hd)]; simpl; lia. }
    destruct (Z.leb_spec (get (License.daysLeft lic) 0) critical_days); [| lia]. reported.
Qed.

Lemma check_license_missing_witness :
  check_license no_date (Json {| entities := None; metadata := None |}) 30 7
  = Ok (EXIT_CRITICAL, "CRITICAL: No license information found")
  /\ CRITICAL (check_license no_date (Json (license_days None)) 30 0).
Proof.
  split.
  - apply (proj1 (check_license_missing no_date {| entities := None; metadata := None |} 30 7)).
    reflexivity.
  - apply (proj2 (check_license_missing no_date (license_days None) 30 0) _ [] eq_refl).
    + lia.
    + left. reflexivity.
Defined.

(** X18. The version check cannot fail the monitored system: on any
    document it returns OK, or WARNING when there is no controller record;
    never CRITICAL or UNKNOWN, and it never raises. *)
Theorem check_version_informational (data : listing Controller.t) :
  (entities_or_empty data = [] ->
   check_version (Json data)
   = Ok (EXIT_WARNING, "WARNING: Controller information not available"))
  /\ (entities_or_empty data <> [] -> OK (check_version (Json data)))
  /\ (exits_with (check_version (Json data)) EXIT_OK
      \/ exits_with (check_version (Json data)) EXIT_WARNING).
Proof.
  unfold check_version, api_request, bind, OK, reports, exits_with.
  destruct (entities_or_empty data) as [| ctrl rest].
  - split; [reflexivity |]. split; [intros H; now contradiction H |]. right. eauto.
  - split; [discriminate |]. split; [intros _; reported |]. left. eauto.
Qed.

Lemma check_version_informational_witness :
  check_version (Json {| entities := Some []; metadata := None |})
  = Ok (EXIT_WARNING, "WARNING: Controller information not available").
Proof.
  apply (proj1 (check_version_informational {| entities := Some []; metadata := None |})).
  reflexivity.
Defined.

(** X19. The two manager checks know two results: with a dashboard record
    they exit OK when the unprotected count (for [protected]) or the red
    count (for [compliance]) is 0 or absent, and CRITICAL for any other
    value; the thresholds play no part. *)
Theorem check_manager_exit
        (data : listing Dashboard.t) (dashboard : Dashboard.t) (rest : list Dashboard.t) :
  entities data = Some (dashboard :: rest) ->
  let unprotected := get (Dashboard.unprotectedCount dashboard) 0 in
  let red := get (Dashboard.compliancyRedCount dashboard) 0 in
  (unprotected = 0 -> exits_with (check_manager_protected (Json data)) EXIT_OK)
  /\ (unprotected <> 0 -> exits_with (check_manager_protected (Json data)) EXIT_CRITICAL)
  /\ (red = 0 -> exits_with (check_manager_compliance (Json data)) EXIT_OK)
  /\ (red <> 0 -> exits_with (check_manager_compliance (Json data)) EXIT_CRITICAL).
Proof.
  intros Hes unprotected red.
  unfold check_manager_protected, check_manager_compliance, exits_with, api_request, bind.
  rewrite Hes; cbn [getitem first]. fold unprotected red.
  repeat split; intros H.
  - destruct (Z.eqb_spec unprotected 0); [eauto | contradiction].
  - destruct (Z.eqb_spec unprotected 0); [contradiction | eauto].
  - destruct (Z.eqb_spec red 0); [eauto | contradiction].
  - destruct (Z.eqb_spec red 0); [contradiction | eauto].
Qed.

Lemma check_manager_exit_witness :
  exits_with (check_manager_protected (Json (dashboard_counts (Some 2) None))) EXIT_CRITICAL
  /\ exits_with (check_manager_compliance (Json (dashboard_counts (Some 2) None))) EXIT_OK.
Proof.
  split.
  - apply (proj1 (proj2 (check_manager_exit (dashboard_counts (Some 2) None) _ [] eq_refl))).
    discriminate.
  - apply (proj1 (proj2 (proj2 (check_manager_exit (dashboard_counts (Some 2) None) _ []
                                                    eq_refl)))).
    reflexivity.
Defined.

(** X20. The policy check reads the compliance status of the policy record
    through its own table: GREEN is OK, WARNING is WARNING, RED is
    CRITICAL; any other string (YELLOW and GREY among them) and an absent
    status are UNKNOWN. *)
Theorem check_policy_compliance_table
        (data : listing Policy.t) (policy_name : string)
        (policy : Policy.t) (rest : list Policy.t) :
  entities data = Some (policy :: rest) ->
  let status := Policy.compliancyStatus policy in
  let r := check_policy_compliance (Json data) policy_name in
  (status = Some "GREEN" -> exits_with r EXIT_OK)
  /\ (status = Some "WARNING" -> exits_with r EXIT_WARNING)
  /\ (status = Some "RED" -> exits_with r EXIT_CRITICAL)
  /\ (forall s, status = Some s -> ~ In s ["GREEN"; "WARNING"; "RED"] ->
      exits_with r EXIT_UNKNOWN)
  /\ (status = None -> exits_with r EXIT_UNKNOWN).
Proof.
  intros Hes status r; subst status r.
  unfold check_policy_compliance, exits_with, api_request, bind.
  rewrite Hes; cbn [getitem first].
  repeat split.
  - intros ->; simpl; eauto.
  - intros ->; simpl; eauto.
  - intros ->; simpl; eauto.
  - intros s -> Hs. cbn [get]. rewrite Table_get_miss by exact Hs. eauto.
  - intros ->; simpl; eauto.
Qed.

Lemma check_policy_compliance_table_witness :
  exits_with (check_policy_compliance (Json (policy_status (Some "YELLOW"))) "gold")
             EXIT_UNKNOWN
  /\ exits_with (check_policy_compliance (Json (policy_status (Some "RED"))) "gold")
                EXIT_CRITICAL.
Proof.
  split.
  - apply (proj1 (proj2 (proj2 (proj2 (check_policy_compliance_table
             (policy_status (Some "YELLOW")) "gold" _ [] eq_refl)))) "YELLOW").
    + reflexivity.
    + simpl. intros [H | [H | [H | []]]]; discriminate H.
  - apply (proj1 (proj2 (proj2 (check_policy_compliance_table
             (policy_status (Some "RED")) "gold" _ [] eq_refl)))).
    reflexivity.
Defined.

Lemma append_assoc (a b c : string) : ((a ++ b) ++ c = a ++ (b ++ c))%string.
Proof.
  induction a as [| x a IH]; simpl; [reflexivity | now rewrite IH].
Qed.

(** X21. The port check is OK exactly when [connect_ex] returns 0, and
    CRITICAL for every other outcome of the connection; a refused
    connection is reported CLOSED with a response time of 0. *)
Theorem check_port_exit (host : string) (port timeout : Z) (o : Socket.outcome) :
  (fst (check_port host port timeout o) = EXIT_OK
   <-> exists response_time_ms, o = Socket.ConnectEx 0 response_time_ms)
  /\ (fst (check_port host port timeout o) = EXIT_OK
      \/ fst (check_port host port timeout o) = EXIT_CRITICAL)
  /\ (forall result response_time_ms,
         o = Socket.ConnectEx result response_time_ms -> result <> 0 ->
         check_port host port timeout o
         = (EXIT_CRITICAL,
            "CRITICAL: Port " ++ str port ++ " is CLOSED on " ++ host
            ++ " |response_time=0ms;;;0;")).
Proof.
  split; [| split].
  - split.
    + destruct o as [result ms | | | text]; simpl; try discriminate.
      destruct (Z.eqb_spec result 0) as [-> | _]; simpl; [eauto | discriminate].
    + intros [ms ->]. reflexivity.
  - destruct o as [result ms | | | text]; simpl; try (now right).
    destruct (result =? 0); simpl; [now left | now right].
  - intros result ms -> Hresult. simpl.
    destruct (Z.eqb_spec result 0); [contradiction |]. simpl.
    rewrite !append_assoc. reflexivity.
Qed.

Lemma check_port_exit_witness :
  check_port "192.168.1.100" 8443 30 (Socket.ConnectEx 111 3)
  = (EXIT_CRITICAL, "CRITICAL: Port 8443 is CLOSED on 192.168.1.100 |response_time=0ms;;;0;")
  /\ fst (check_port "192.168.1.100" 8443 30 (Socket.ConnectEx 0 3)) = EXIT_OK.
Proof.
  split.
  - apply (proj2 (proj2 (check_port_exit "192.168.1.100" 8443 30 (Socket.ConnectEx 111 3)))
             111 3 eq_refl).
    discriminate.
  - apply (proj1 (check_port_exit "192.168.1.100" 8443 30 (Socket.ConnectEx 0 3))).
    exists 3. reflexivity.
Defined.

(** ** Policies by name *)

Lemma startswith_app_both (a p s : string) :
  startswith (a ++ p) (a ++ s) = startswith p s.
Proof.
  induction a as [| x a IH]; simpl; [reflexivity |].
  now rewrite Ascii.eqb_refl, IH.
Qed.

(** X22. When the name of a policy-advanced check matches no policy of the
    listing (or matches one whose uuid is empty), the handler ends the run
    itself with code 2, and the first line it prints says the policy does
    not exist; the second listing and the policy record play no part in
    the exit code. *)
Theorem check_policy_advanced_not_found {rt : Runtime}
        (percent_2f : Z -> Z -> option string)
        (listed : listing Entity.t) (relist : response (listing Entity.t))
        (detail : response (listing Policy.t)) (policy_name : string) (w c : Z) :
  find_policy (lower policy_name) (entities_or_empty listed) = Ok None
  \/ find_policy (lower policy_name) (entities_or_empty listed) = Ok (Some "") ->
  exists first rest,
    check_policy_advanced percent_2f (Json listed) relist detail policy_name w c
    = Raise (SystemExit EXIT_CRITICAL (Line first :: rest))
    /\ startswith ("CRITICAL: Policy '" ++ policy_name ++ "' does not exist") first = true.
Proof.
  intros Hfind.
  assert (Hprefix : forall tail,
             startswith ("CRITICAL: Policy '" ++ policy_name ++ "' does not exist")
                        ("CRITICAL: Policy '" ++ policy_name ++ "' does not exist" ++ tail)
             = true).
  { intros tail. rewrite !startswith_app_both. reflexivity. }
  unfold check_policy_advanced, api_request at 1, bind at 1.
  unfold bind at 1.
  assert (Hnot : exists found,
             find_policy (lower policy_name) (entities_or_empty listed) = Ok found
             /\ truthy_opt found = false)
    by (destruct Hfind as [H | H]; rewrite H; eauto).
  destruct Hnot as (found & -> & ->). cbn [negb].
  unfold policy_not_found, sys_exit.
  destruct (bind (api_request relist) _) as [[| n names] | e].
  - eexists; eexists; split; [reflexivity |]. apply (Hprefix " (no policies found)").
  - eexists; eexists; split; [reflexivity |]. apply (Hprefix "").
  - eexists; eexists; split; [reflexivity |]. apply (Hprefix "").
Qed.

Lemma check_policy_advanced_not_found_witness :
  exists first rest,
    check_policy_advanced forty_percent (Json policies_gold) (Json policies_gold)
                          (Failed "unused") "Silver" 5 10
    = Raise (SystemExit EXIT_CRITICAL (Line first :: rest))
    /\ startswith ("CRITICAL: Policy '" ++ "Silver" ++ "' does not exist") first = true.
Proof.
  apply (check_policy_advanced_not_found forty_percent policies_gold (Json policies_gold)
           (Failed "unused") "Silver" 5 10).
  left. reflexivity.
Defined.

Example check_policy_advanced_suggests :
  check_policy_advanced forty_percent (Json policies_gold) (Json policies_gold)
                        (Failed "unused") "Silver" 5 10
  = Raise (SystemExit EXIT_CRITICAL
             [Line "CRITICAL: Policy 'Silver' does not exist";
              Line "Available policies: Gold"]).
Proof. reflexivity. Qed.

Lemma find_policy_first {rt : Runtime} (name_lower : string)
      (pre post : list Entity.t) (e : Entity.t) (n u : string) :
  Forall (keyed Entity.K_name) pre ->
  (forall e' m, In e' pre -> Entity.name e' = Some m -> lower m <> name_lower) ->
  Entity.name e = Some n -> lower n = name_lower -> Entity.uuid e = Some u ->
  find_policy name_lower (pre ++ e :: post) = Ok (Some u).
Proof.
  intros Hpre Hno Hn Hlow Hu.
  induction Hpre as [| e0 pre [Hn0 _] _ IH]; simpl.
  - unfold Entity.subscript, getitem, bind. cbn [Entity.field].
    rewrite Hn, Hlow, String.eqb_refl, Hu. reflexivity.
  - unfold Entity.subscript, getitem, bind. cbn [Entity.field] in *.
    destruct (Entity.name e0) as [m |] eqn:Hm; [| contradiction].
    destruct (String.eqb_spec (lower m) name_lower) as [E | _].
    + exfalso. apply (Hno e0 m (or_introl eq_refl) Hm E).
    + apply IH. intros e' m' Hin. apply (Hno e' m'). now right.
Qed.

(** X23. With two entries of one name in the policies listing, the two
    policy checks need not read the same policy: policy-advanced takes the
    first entry whose name is the given one up to case (its loop stops at
    the first match), the policy check, through the resolver, the last
    entry that carries the name as given. *)
Theorem duplicate_policy_names {rt : Runtime}
        (data : listing Entity.t) (pre mid post : list Entity.t) (e1 e2 : Entity.t)
        (n n1 u1 u2 : string) :
  entities data = Some (pre ++ e1 :: mid ++ e2 :: post)%list ->
  Forall (keyed Entity.K_name) (pre ++ mid ++ post)%list ->
  (forall e m, In e pre -> Entity.name e = Some m -> lower m <> lower n) ->
  Entity.name e1 = Some n1 -> lower n1 = lower n -> Entity.uuid e1 = Some u1 ->
  Entity.name e2 = Some n -> Entity.uuid e2 = Some u2 -> u2 <> "" ->
  (forall e, In e post -> Entity.name e <> Some n) ->
  find_policy (lower n) (entities_or_empty data) = Ok (Some u1)
  /\ get_entity_uuid (Json data) n Entity.K_name = Ok (Some u2).
Proof.
  intros Hes Hkeyed Hpre Hn1 Hlow Hu1 Hn2 Hu2 Hne Hpost.
  apply Forall_app in Hkeyed as [Kpre Krest]. apply Forall_app in Krest as [Kmid Kpost].
  unfold get_entity_uuid, api_request, entities_or_empty. rewrite Hes; cbn [get bind].
  split.
  - now apply (find_policy_first (lower n) pre (mid ++ e2 :: post)%list e1 n1 u1).
  - assert (K1 : keyed Entity.K_name e1) by (split; cbn [Entity.field]; congruence).
    assert (K2 : keyed Entity.K_name e2) by (split; cbn [Entity.field]; congruence).
    assert (Hall : Forall (keyed Entity.K_name) (pre ++ e1 :: mid ++ e2 :: post)%list).
    { apply Forall_app. split; [exact Kpre |]. constructor; [exact K1 |].
      apply Forall_app. split; [exact Kmid |]. constructor; [exact K2 | exact Kpost]. }
    destruct (entity_dict_from_keyed Entity.K_name _ [] Hall) as [d Hd].
    rewrite ?Hes; cbn [get]. rewrite Hd; cbn [bind].
    assert (Hget : Dict.get n d = Some u2).
    { apply (entity_dict_last_wins Entity.K_name n u2 (pre ++ e1 :: mid)%list post e2 d);
        [| exact Hn2 | exact Hu2 | exact Hpost].
      rewrite <- Hd. f_equal. rewrite <- app_assoc. reflexivity. }
    rewrite Hget. simpl. unfold truthy.
    destruct (String.eqb_spec u2 ""); [contradiction | reflexivity].
Qed.

Lemma duplicate_policy_names_witness :
  find_policy (lower "Gold") (entities_or_empty policies_twice) = Ok (Some "p-2")
  /\ get_entity_uuid (Json policies_twice) "Gold" Entity.K_name = Ok (Some "p-3").
Proof.
  apply (duplicate_policy_names (rt := ascii_runtime) policies_twice
           [named "Silver" "p-0"] [named "Gold" "p-1"] [named "Bronze" "p-4"]
           (named "gold" "p-2") (named "Gold" "p-3")
           "Gold" "gold" "p-2" "p-3" eq_refl).
  - repeat constructor; discriminate.
  - intros e m [<- | []] Hm. injection Hm as <-. vm_compute. discriminate.
  - reflexivity.
  - reflexivity.
  - reflexivity.
  - reflexivity.
  - reflexivity.
  - discriminate.
  - intros e [<- | []]. discriminate.
Defined.

(** ** The whole run *)

Lemma parse_arguments_exits {rt : Runtime} (o : Values) (e : exn) :
  parse_arguments o = Raise e ->
  exists code out, e = SystemExit code out /\ (code = 2 \/ code = 3).
Proof.
  intros H.
  destruct (scantype o) as [ty |] eqn:Hty.
  - destruct (in_dec string_dec ty ALL_CHECK_TYPES) as [Hin | Hnot].
    + destruct o as [tok hst tgt sty tmo vrb w c per]; simpl in Hty; subst sty.
      unfold ALL_CHECK_TYPES in Hin; simpl in Hin.
      destruct (truthy_opt tok) eqn:Htok, (truthy_opt hst) eqn:Hhst,
               (truthy_opt tgt) eqn:Htgt;
        repeat (destruct Hin as [<- | Hin]; [| ]); try contradiction;
        unfold parse_arguments, validate_thresholds, check_period, parser_error, sys_exit,
          when, bind in H;
        simpl in H; rewrite ?Htok, ?Hhst, ?Htgt in H; simpl in H; try discriminate H;
        split_ifs H; injection H as <-; eexists; eexists; (split; [reflexivity |]);
        (now left) || (now right).
    + destruct (parse_arguments_rejects o ty Hty Hnot) as (out & Hout).
      rewrite Hout in H. injection H as <-. eexists; eexists; split; [reflexivity | now right].
  - destruct o as [tok hst tgt sty tmo vrb w c per]; simpl in Hty; subst sty.
    unfold parse_arguments in H; simpl in H.
    rewrite !andb_false_r in H. simpl in H. injection H as <-.
    eexists; eexists; split; [reflexivity | now right].
Qed.

Ltac is_plain x :=
  lazymatch x with
  | context [match _ with _ => _ end] => fail
  | context [if _ then _ else _] => fail
  | _ => idtac
  end.

Ltac coded_step :=
  match goal with
  | |- context [if ?b then _ else _] => is_plain b; destruct b
  | |- context [match ?x with _ => _ end] =>
      is_plain x;
      match type of x with
      | response _ => destruct x
      | result _ => destruct x
      | option _ => destruct x
      | list _ => destruct x
      | exn => destruct x
      | Socket.outcome => destruct x
      end
  end.

Ltac coded :=
  unfold well_coded, api_request, bind, getitem, first, sys_exit;
  cbn [Table.get];
  repeat (coded_step; cbv beta iota);
  unfold EXIT_OK, EXIT_WARNING, EXIT_CRITICAL, EXIT_UNKNOWN; try exact I; try lia.

Lemma check_vm_backup_coded r vm_name : well_coded (check_vm_backup r vm_name).
Proof. unfold check_vm_backup. coded. Qed.

Lemma check_target_health_coded r target_name : well_coded (check_target_health r target_name).
Proof. unfold check_target_health. coded. Qed.

Lemma check_archive_status_coded r vm_name : well_coded (check_archive_status r vm_name).
Proof. unfold check_archive_status. coded. Qed.

Lemma check_policy_compliance_coded r policy_name :
  well_coded (check_policy_compliance r policy_name).
Proof. unfold check_policy_compliance. coded. Qed.

Lemma check_manager_protected_coded r : well_coded (check_manager_protected r).
Proof. unfold check_manager_protected. coded. Qed.

Lemma check_manager_compliance_coded r : well_coded (check_manager_compliance r).
Proof. unfold check_manager_compliance. coded. Qed.

Lemma check_version_coded r : well_coded (check_version r).
Proof. unfold check_version. coded. Qed.

Lemma check_shares_coded r w c : well_coded (check_shares r w c).
Proof. unfold check_shares. coded. Qed.

Lemma check_buckets_coded r w c : well_coded (check_buckets r w c).
Proof. unfold check_buckets. coded. Qed.

Lemma check_backup_validation_coded {rt : Runtime} r p w c : well_coded (check_backup_validation r p w c).
Proof. unfold check_backup_validation. coded. Qed.

Lemma check_jobs_coded {rt : Runtime} pct r p w c : well_coded (check_jobs pct r p w c).
Proof. unfold check_jobs, rate_2f. coded. Qed.

Lemma check_license_coded ld r w c : well_coded (check_license ld r w c).
Proof. unfold check_license. coded. Qed.

Lemma check_port_coded h p t o : well_coded (Ok (check_port h p t o)).
Proof. unfold check_port. coded. Qed.

Lemma check_unassigned_coded r_vms r_shares r_apps r_vgs w c :
  well_coded (check_unassigned r_vms r_shares r_apps r_vgs w c).
Proof.
  unfold check_unassigned, bind. rewrite Unassigned_collect_eq.
  unfold well_coded. repeat (coded_step; cbv beta iota).
  all: unfold EXIT_OK, EXIT_WARNING, EXIT_CRITICAL; lia.
Qed.

Lemma entity_dict_from_raises name_field es acc e :
  entity_dict_from name_field es acc = Raise e -> is_Exception e = true.
Proof.
  revert acc; induction es as [| x es IH]; intros acc; simpl; [discriminate |].
  unfold Entity.subscript, getitem, bind.
  destruct (Entity.field x name_field); [| intros H; injection H as <-; reflexivity].
  simpl. destruct (Entity.uuid x); [apply IH | intros H; injection H as <-; reflexivity].
Qed.

Lemma get_entity_uuid_raises {rt : Runtime} r name name_field e :
  get_entity_uuid r name name_field = Raise e -> is_Exception e = true.
Proof.
  unfold get_entity_uuid, api_request, bind.
  destruct r as [data | msg | text]; [| intros H; injection H as <-; reflexivity ..].
  destruct (entity_dict_from name_field (entities_or_empty data) []) as [d | x] eqn:Hd.
  - destruct (truthy_opt (Dict.get name d)); discriminate.
  - intros H; injection H as <-. exact (entity_dict_from_raises _ _ _ _ Hd).
Qed.

Lemma find_policy_raises {rt : Runtime} name_lower es e :
  find_policy name_lower es = Raise e -> is_Exception e = true.
Proof.
  induction es as [| x es IH]; simpl; [discriminate |].
  unfold Entity.subscript, getitem, bind.
  destruct (Entity.field x Entity.K_name); [| intros H; injection H as <-; reflexivity].
  destruct (lower s =? name_lower)%string; [| exact IH].
  destruct (Entity.field x Entity.K_uuid); [discriminate |].
  intros H; injection H as <-; reflexivity.
Qed.

Lemma well_coded_raise {A} (e : exn) (k : A -> result (Z * string)) :
  is_Exception e = true -> well_coded (bind (Raise e) k).
Proof. destruct e; simpl; (discriminate || intros _; exact I). Qed.

Lemma check_policy_advanced_coded {rt : Runtime} pct r relist detail policy_name w c :
  well_coded (check_policy_advanced pct r relist detail policy_name w c).
Proof.
  unfold check_policy_advanced.
  destruct r as [data | msg | text]; [| exact I ..]. cbn [api_request bind].
  destruct (find_policy (lower policy_name) (entities_or_empty data)) as [found | e] eqn:Hf;
    [| apply well_coded_raise; exact (find_policy_raises _ _ _ Hf)].
  cbn [bind]. destruct (negb (truthy_opt found)).
  - unfold policy_not_found, sys_exit, well_coded, EXIT_CRITICAL. lia.
  - unfold rate_2f. coded.
Qed.

Lemma target_not_found_coded relist name :
  well_coded (@target_not_found (Z * string) relist name).
Proof. unfold target_not_found, sys_exit, well_coded, EXIT_CRITICAL. lia. Qed.

Lemma resolved_coded {rt : Runtime} r name name_field (missing found : result (Z * string)) :
  well_coded missing -> well_coded found ->
  well_coded (uuid <- get_entity_uuid r name name_field ;;
              match uuid with
              | None => missing
              | Some _ => found
              end).
Proof.
  intros Hm Hf.
  destruct (get_entity_uuid r name name_field) as [[u |] | e] eqn:H; cbn [bind];
    [exact Hf | exact Hm |].
  apply (well_coded_raise e (fun _ : option string => missing)).
  exact (get_entity_uuid_raises _ _ _ _ H).
Qed.

Lemma dispatch_coded {rt : Runtime} pct ld (o : Values) (w : World.t) : well_coded (dispatch pct ld o w).
Proof.
  unfold dispatch.
  repeat match goal with
         | |- well_coded (if ?b then _ else _) => destruct b
         end;
    try apply resolved_coded;
    first [ match goal with
            | |- well_coded (sys_exit _ _) =>
                unfold sys_exit, well_coded, EXIT_CRITICAL, EXIT_UNKNOWN; lia
            end
          | apply check_vm_backup_coded | apply check_target_health_coded
          | apply check_archive_status_coded | apply check_policy_compliance_coded
          | apply check_policy_advanced_coded | apply check_manager_protected_coded
          | apply check_manager_compliance_coded | apply check_jobs_coded
          | apply check_license_coded | apply check_version_coded
          | apply check_backup_validation_coded | apply check_shares_coded
          | apply check_buckets_coded | apply check_unassigned_coded
          | apply target_not_found_coded
          | idtac ].
  match goal with
  | |- well_coded (match ?x with _ => _ end) => destruct x as [port |]
  end; [apply check_port_coded | unfold sys_exit, well_coded, EXIT_UNKNOWN; lia].
Qed.

(** The properties of a whole run are stated for runs without [-v], the
    setting the handlers are embedded at. *)

(** X24. Whatever the options and whatever the requests meet, the process
    ends with an exit status from 0 to 3. *)
Theorem main_exit_status {rt : Runtime}
        (percent_2f : Z -> Z -> option string) (local_date : Z -> option string)
        (str_exn : exn -> string) (options : Values) (w : World.t) :
  verbose options = false ->
  0 <= fst (main percent_2f local_date str_exn options w) <= 3.
Proof.
  intros Hquiet. unfold main, run.
  destruct (parse_arguments options) as [o' | e] eqn:Hparse; cbn [bind].
  - pose proof (dispatch_coded percent_2f local_date o' w) as Hcoded.
    destruct (dispatch percent_2f local_date o' w) as [[code output] | e]; cbn [bind].
    + exact Hcoded.
    + destruct e; simpl in *; unfold EXIT_CRITICAL, EXIT_UNKNOWN; lia.
  - destruct (parse_arguments_exits _ _ Hparse) as (code & out & -> & [-> | ->]); simpl; lia.
Qed.

(** What [parse_arguments] hands on, read off its shape: the options it
    was given, with the target defaulted for the types that need none. *)
Lemma parse_arguments_keeps {rt : Runtime} (o o' : Values) :
  parse_arguments o = Ok o' ->
  o' = set_vmtarget o (if opt_in (scantype o) types_without_vmtarget
                          && negb (truthy_opt (vmtarget o))
                       then scantype o else vmtarget o).
Proof.
  unfold parse_arguments.
  destruct o as [tok hst tgt sty tmo vrb w c per]; cbn [scantype vmtarget apitoken host].
  destruct (opt_in sty types_without_vmtarget); cbn [andb].
  - destruct (if opt_in sty types_without_token then _ else _) as [[] |]; cbn [bind];
      [| discriminate].
    destruct (negb (truthy_opt tgt)); cbn [bind];
      repeat match goal with
             | |- context [bind (when ?b ?m) _] => destruct (when b m) as [[] |]; cbn [bind]
             end; try discriminate; intros H; injection H as <-; reflexivity.
  - destruct (when _ _) as [[] |]; cbn [bind]; [| discriminate].
    repeat match goal with
           | |- context [bind (when ?b ?m) _] => destruct (when b m) as [[] |]; cbn [bind]
           end; try discriminate; intros H; injection H as <-; reflexivity.
Qed.

Lemma main_exit_status_witness :
  0 <= fst (main (fun _ _ => None) (fun _ => None) str_of_exn
                 (options_for "vm" (Some "web01") 0 0 24)
                 (offline "Connection timeout after 100s" Socket.SocketTimeout)) <= 3.
Proof.
  apply (main_exit_status _ _ _ (options_for "vm" (Some "web01") 0 0 24)).
  reflexivity.
Defined.

(** X25. When every request fails, every check that asks the API
    something first (all but port and unassigned) ends on the failure of
    its first request.  A failure [api_request] reports, which needs a
    positive timeout, gives exit 2 with the text [CRITICAL: API Error - ]
    and the message of the request; the [ValueError] of a timeout that is
    not positive, which [api_request] does not catch, gives exit 3 with
    the text [UNKNOWN: Unexpected error - ] and the text of the
    exception. *)
Theorem main_offline {rt : Runtime}
        (percent_2f : Z -> Z -> option string) (local_date : Z -> option string)
        (str_exn : exn -> string) (o o' : Values) (ty msg text : string)
        (connect : Socket.outcome) :
  verbose o = false ->
  parse_arguments o = Ok o' ->
  scantype o = Some ty ->
  ty <> "port" -> ty <> "unassigned" ->
  (ty = "manager" -> vmtarget o = Some "protected" \/ vmtarget o = Some "compliance") ->
  (0 < timeout o ->
   main percent_2f local_date str_exn o (offline msg connect)
   = (EXIT_CRITICAL, [Line ("CRITICAL: API Error - " ++ msg)]))
  /\ main percent_2f local_date str_exn o (bad_timeout text connect)
     = (EXIT_UNKNOWN, [Line ("UNKNOWN: Unexpected error - " ++ str_exn (ValueError text))]).
Proof.
  intros Hquiet Hparse Hty Hport Hun Hmanager.
  pose proof (parse_arguments_keeps _ _ Hparse) as Ho'.
  destruct (parse_arguments_known_type o o' Hparse) as (ty' & Hty' & Hin).
  assert (ty' = ty) by congruence; subst ty'; clear Hty'.
  unfold main, run. rewrite Hparse; cbn [bind]. subst o'.
  destruct o as [tok hst tgt sty tmo vrb w c per]; simpl in Hty, Hmanager; subst sty.
  unfold ALL_CHECK_TYPES in Hin; simpl in Hin.
  repeat (destruct Hin as [<- | Hin]; [| ]); try contradiction; try congruence;
    try (split; [intros _ |]; reflexivity).
  destruct (Hmanager eq_refl) as [-> | ->]; (split; [intros _ |]; reflexivity).
Qed.

(** X26. With every request failing, the unassigned check still answers:
    it reports zero objects in every category, and exits 0 as soon as the
    warning threshold is positive. *)
Theorem main_unassigned_offline {rt : Runtime}
        (percent_2f : Z -> Z -> option string) (local_date : Z -> option string)
        (str_exn : exn -> string) (o o' : Values) (msg : string)
        (connect : Socket.outcome) :
  verbose o = false ->
  parse_arguments o = Ok o' ->
  scantype o = Some "unassigned" ->
  0 < warning_threshold o ->
  exists output,
    main percent_2f local_date str_exn o (offline msg connect) = (EXIT_OK, [Line output])
    /\ startswith ("OK: 0 unassigned objects - 0 VMs, 0 shares, 0 buckets, 0 apps, 0 VGs "
                   ++ "|unassigned_total=0;") output = true.
Proof.
  intros Hquiet Hparse Hty Hw.
  pose proof (parse_arguments_keeps _ _ Hparse) as Ho'.
  destruct o as [tok hst tgt sty tmo vrb w c per]; simpl in Hty, Hw; subst sty.
  assert (Hc : w <= c).
  { destruct (truthy_opt tok) eqn:Htok, (truthy_opt hst) eqn:Hhst, (truthy_opt tgt) eqn:Htgt;
      unfold parse_arguments, validate_thresholds, check_period, parser_error, sys_exit, when,
        bind in Hparse;
      simpl in Hparse; rewrite ?Htok, ?Hhst, ?Htgt in Hparse; simpl in Hparse;
      try discriminate Hparse; split_ifs Hparse; arith_of_tests; lia. }
  unfold main, run. rewrite Hparse; cbn [bind]. subst o'.
  destruct w as [| w | w]; try lia. destruct c as [| c | c]; try lia.
  eexists. split; reflexivity.
Qed.

Lemma main_unassigned_offline_witness :
  exists output,
    main (fun _ _ => None) (fun _ => None) str_of_exn
         (options_for "unassigned" None 1 5 24) (offline "Connection timeout after 100s" Socket.GaiError)
    = (EXIT_OK, [Line output])
    /\ startswith ("OK: 0 unassigned objects - 0 VMs, 0 shares, 0 buckets, 0 apps, 0 VGs "
                   ++ "|unassigned_total=0;") output = true.
Proof.
  apply (main_unassigned_offline _ _ _ (options_for "unassigned" None 1 5 24)
           (options_for "unassigned" (Some "unassigned") 1 5 24)).
  - reflexivity.
  - reflexivity.
  - reflexivity.
  - simpl. lia.
Defined.

(** X27. The manager check looks at its [-n] value before it asks
    anything: a value other than [protected] and [compliance] ends the run
    with code 3, whatever the appliance would have answered. *)
Theorem main_manager_mode {rt : Runtime}
        (percent_2f : Z -> Z -> option string) (local_date : Z -> option string)
        (str_exn : exn -> string) (o o' : Values) (w : World.t) :
  verbose o = false ->
  parse_arguments o = Ok o' ->
  scantype o = Some "manager" ->
  vmtarget o <> Some "protected" ->
  vmtarget o <> Some "compliance" ->
  main percent_2f local_date str_exn o w
  = (EXIT_UNKNOWN, [Line "ERROR: For manager type, use -n protected or -n compliance"]).
Proof.
  intros Hquiet Hparse Hty Hp Hc.
  pose proof (parse_arguments_keeps _ _ Hparse) as Ho'.
  destruct o as [tok hst tgt sty tmo vrb wt ct per]; simpl in Hty, Hp, Hc; subst sty.
  unfold main, run. rewrite Hparse; cbn [bind]. subst o'.
  unfold dispatch. simpl.
  destruct (String.eqb_spec (opt_str tgt) "protected") as [E | _].
  { destruct tgt; simpl in E; [congruence | discriminate E]. }
  destruct (String.eqb_spec (opt_str tgt) "compliance") as [E | _].
  { destruct tgt; simpl in E; [congruence | discriminate E]. }
  reflexivity.
Qed.

Lemma main_manager_mode_witness :
  main (fun _ _ => None) (fun _ => None) str_of_exn
       (options_for "manager" (Some "Protected") 0 0 24) (offline "down" Socket.GaiError)
  = (EXIT_UNKNOWN, [Line "ERROR: For manager type, use -n protected or -n compliance"]).
Proof.
  apply (main_manager_mode _ _ _ (options_for "manager" (Some "Protected") 0 0 24)
           (options_for "manager" (Some "Protected") 0 0 24)).
  - reflexivity.
  - reflexivity.
  - reflexivity.
  - discriminate.
  - discriminate.
Defined.

Lemma entity_dict_from_malformed (name_field : Entity.key) (es : list Entity.t) (e : Entity.t) :
  In e es ->
  Entity.field e name_field = None \/ Entity.uuid e = None ->
  forall acc, exists key,
    entity_dict_from name_field es acc = Raise (KeyError key)
    /\ (key = Entity.key_name name_field \/ key = "uuid").
Proof.
  intros He Hbad.
  induction es as [| e0 es IH]; [destruct He |].
  intros acc. simpl. unfold Entity.subscript, getitem, bind.
  destruct (Entity.field e0 name_field) as [k |] eqn:Hk; [| eauto].
  change (Entity.field e0 Entity.K_uuid) with (Entity.uuid e0).
  destruct (Entity.uuid e0) as [v |] eqn:Hv; [| simpl; eauto].
  destruct He as [-> | He]; [destruct Hbad; congruence | apply (IH He)].
Qed.

Ltac resolved_cases Hparse Hres ty :=
  unfold resolved in Hres;
  destruct (String.eqb_spec ty "vm") as [-> | _];
    [| destruct (String.eqb_spec ty "archive") as [-> | _];
       [| destruct (String.eqb_spec ty "target") as [-> | _];
          [| destruct (String.eqb_spec ty "policy") as [-> | _]; [| discriminate Hres]]]];
  cbn [orb] in Hres; injection Hres as Hres <- <-.

(** X28. When the name given with [-n] is in no entry of the listing, the
    vm, archive, target and policy checks end with code 2 and a first line
    that says the object does not exist; its backups or its details are not
    read. *)
Theorem main_not_found {rt : Runtime}
        (percent_2f : Z -> Z -> option string) (local_date : Z -> option string)
        (str_exn : exn -> string) (o o' : Values) (w : World.t) (ty n : string)
        (r : response (listing Entity.t)) (key : Entity.key) (label : string) :
  verbose o = false ->
  parse_arguments o = Ok o' ->
  scantype o = Some ty ->
  vmtarget o = Some n ->
  resolved ty w = Some (r, key, label) ->
  get_entity_uuid r n key = Ok None ->
  exists line rest,
    main percent_2f local_date str_exn o w = (EXIT_CRITICAL, Line line :: rest)
    /\ startswith ("CRITICAL: " ++ label ++ " '" ++ n ++ "' does not exist") line = true.
Proof.
  intros Hquiet Hparse Hty Hn Hres Hnone.
  pose proof (parse_arguments_keeps _ _ Hparse) as Ho'.
  destruct o as [tok hst tgt sty tmo vrb wt ct per]; simpl in Hty, Hn; subst sty tgt.
  unfold main, run. rewrite Hparse; cbn [bind]. subst o'.
  resolved_cases Hparse Hres ty;
    rewrite <- Hres in Hnone;
    unfold dispatch; cbn -[get_entity_uuid target_not_found]; rewrite Hnone; cbn [bind].
  - eexists; eexists; split; [reflexivity | (simpl; rewrite startswith_app_both; reflexivity)].
  - eexists; eexists; split; [reflexivity | (simpl; rewrite startswith_app_both; reflexivity)].
  - unfold target_not_found, sys_exit.
    destruct (data <- api_request (World.targets_again w) ;; names_of (entities_or_empty data))
      as [[| a names] | x]; cbn [app];
      eexists; eexists; (split; [reflexivity | (simpl; rewrite startswith_app_both; reflexivity)]).
  - eexists; eexists; split; [reflexivity | (simpl; rewrite startswith_app_both; reflexivity)].
Qed.

(** X29. One entry without the name field or without a uuid in the
    listing makes the vm, archive, target and policy checks end with code
    3 and the text of the [KeyError], whatever name was asked. *)
Theorem main_malformed_entry {rt : Runtime}
        (percent_2f : Z -> Z -> option string) (local_date : Z -> option string)
        (str_exn : exn -> string) (o o' : Values) (w : World.t) (ty : string)
        (data : listing Entity.t) (key : Entity.key) (label : string) (e : Entity.t) :
  verbose o = false ->
  parse_arguments o = Ok o' ->
  scantype o = Some ty ->
  resolved ty w = Some (Json data, key, label) ->
  In e (entities_or_empty data) ->
  Entity.field e key = None \/ Entity.uuid e = None ->
  exists k,
    main percent_2f local_date str_exn o w
    = (EXIT_UNKNOWN, [Line ("UNKNOWN: Unexpected error - " ++ str_exn (KeyError k))])
    /\ (k = Entity.key_name key \/ k = "uuid").
Proof.
  intros Hquiet Hparse Hty Hres He Hbad.
  pose proof (parse_arguments_keeps _ _ Hparse) as Ho'.
  destruct o as [tok hst tgt sty tmo vrb wt ct per]; simpl in Hty; subst sty.
  unfold main, run. rewrite Hparse; cbn [bind]. subst o'.
  destruct (entity_dict_from_malformed key _ e He Hbad []) as (k & Hk & Hkey).
  exists k. split; [| exact Hkey].
  resolved_cases Hparse Hres ty;
    unfold dispatch; cbn -[get_entity_uuid target_not_found];
    rewrite Hres; unfold get_entity_uuid;
    cbn [api_request bind]; rewrite Hk; reflexivity.
Qed.

(** X30. An accepted port check never reads an API answer: the run is the
    socket test alone, on port 8443 when [-n] is the dummy ['port'] and on
    the port number [-n] spells otherwise, always within 1..65535, with
    the timeout capped at 30 seconds. *)
Theorem main_port {rt : Runtime}
        (percent_2f : Z -> Z -> option string) (local_date : Z -> option string)
        (str_exn : exn -> string) (o o' : Values) :
  verbose o = false ->
  parse_arguments o = Ok o' ->
  scantype o = Some "port" ->
  exists port,
    1 <= port <= 65535
    /\ (vmtarget o = Some "port" -> port = 8443)
    /\ (vmtarget o <> Some "port" -> int (opt_str (vmtarget o)) = Some port)
    /\ forall w,
         main percent_2f local_date str_exn o w
         = printed (check_port (opt_str (host o)) port (Z.min (timeout o) 30)
                               (World.connect w)).
Proof.
  intros Hquiet Hparse Hty.
  pose proof (parse_arguments_keeps _ _ Hparse) as Ho'.
  destruct o as [tok hst tgt sty tmo vrb wt ct per]; simpl in Hty; subst sty.
  cbn [vmtarget host timeout].
  assert (Hrun : forall w port,
             (if truthy_opt tgt && negb (opt_is tgt "port")
              then int (opt_str tgt) else Some 8443) = Some port ->
             main percent_2f local_date str_exn
                  {| apitoken := tok; host := hst; vmtarget := tgt; scantype := Some "port";
                     timeout := tmo; verbose := vrb; warning_threshold := wt;
                     critical_threshold := ct; period_hours := per |} w
             = printed (check_port (opt_str hst) port (Z.min tmo 30) (World.connect w))).
  { intros w port Hport. unfold main, run. rewrite Hparse; cbn [bind]. subst o'.
    unfold dispatch. cbn -[check_port int Z.min]. rewrite Hport.
    cbn [bind]. destruct (check_port _ _ _ _) as [code out]. reflexivity. }
  clear Ho'.
  destruct (truthy_opt tok) eqn:Htok, (truthy_opt hst) eqn:Hhst, (truthy_opt tgt) eqn:Htgt;
    unfold parse_arguments, validate_thresholds, check_period, parser_error, sys_exit, when,
      bind in Hparse;
    simpl in Hparse; rewrite ?Htok, ?Hhst, ?Htgt in Hparse; simpl in Hparse;
    try discriminate Hparse.
  destruct (opt_is tgt "port") eqn:Eport; simpl in Hparse;
    rewrite ?Htgt in Hparse; simpl in Hparse.
  - exists 8443. split; [lia |]. split; [reflexivity |]. split.
    + intros Hne. exfalso. apply Hne. now apply opt_is_true.
    + intros w. apply Hrun. reflexivity.
  - destruct (int (opt_str tgt)) as [p |] eqn:Eint; [| discriminate Hparse].
    simpl in Hparse.
    destruct ((p <? 1) || (p >? 65535)) eqn:Erange; [discriminate Hparse |].
    arith_of_tests.
    exists p. split; [lia |]. split; [| split].
    + intros ->. simpl in Eport. discriminate Eport.
    + reflexivity.
    + intros w. apply Hrun. reflexivity.
Qed.

Lemma main_offline_witness :
  main (fun _ _ => None) (fun _ => None) str_of_exn
       (options_for "jobs" None 5 10 24) (offline "Request timeout after 100 seconds" Socket.GaiError)
  = (EXIT_CRITICAL, [Line ("CRITICAL: API Error - " ++ "Request timeout after 100 seconds")])
  /\ main (fun _ _ => None) (fun _ => None) str_of_exn
          (options_for "jobs" None 5 10 24) (bad_timeout "bad timeout" Socket.GaiError)
     = (EXIT_UNKNOWN,
        [Line ("UNKNOWN: Unexpected error - " ++ str_of_exn (ValueError "bad timeout"))]).
Proof.
  destruct (main_offline (rt := ascii_runtime) (fun _ _ => None) (fun _ => None) str_of_exn
              (options_for "jobs" None 5 10 24) (options_for "jobs" (Some "jobs") 5 10 24)
              "jobs" "Request timeout after 100 seconds" "bad timeout" Socket.GaiError)
    as [Hfailed Hraised].
  - reflexivity.
  - reflexivity.
  - reflexivity.
  - discriminate.
  - discriminate.
  - discriminate.
  - split; [apply Hfailed; reflexivity | exact Hraised].
Defined.

Lemma main_not_found_witness :
  exists line rest,
    main (fun _ _ => None) (fun _ => None) str_of_exn
         (options_for "target" (Some "dev") 0 0 24) (with_targets targets_prod)
    = (EXIT_CRITICAL, Line line :: rest)
    /\ startswith ("CRITICAL: " ++ "Target" ++ " '" ++ "dev" ++ "' does not exist") line = true.
Proof.
  apply (main_not_found _ _ _ (options_for "target" (Some "dev") 0 0 24)
           (options_for "target" (Some "dev") 0 0 24) (with_targets targets_prod)
           "target" "dev" (Json targets_prod) Entity.K_name "Target").
  - reflexivity.
  - reflexivity.
  - reflexivity.
  - reflexivity.
  - reflexivity.
  - reflexivity.
Defined.

Lemma main_malformed_entry_witness :
  exists k,
    main (fun _ _ => None) (fun _ => None) str_of_exn
         (options_for "target" (Some "Prod") 0 0 24) (with_targets targets_unnamed)
    = (EXIT_UNKNOWN, [Line ("UNKNOWN: Unexpected error - " ++ str_of_exn (KeyError k))])
    /\ (k = Entity.key_name Entity.K_name \/ k = "uuid").
Proof.
  apply (main_malformed_entry _ _ _ (options_for "target" (Some "Prod") 0 0 24)
           (options_for "target" (Some "Prod") 0 0 24) (with_targets targets_unnamed)
           "target" targets_unnamed Entity.K_name "Target" (unassigned_vm "web01" None)).
  - reflexivity.
  - reflexivity.
  - reflexivity.
  - reflexivity.
  - simpl. right. left. reflexivity.
  - left. reflexivity.
Defined.

Lemma main_port_witness :
  exists port,
    1 <= port <= 65535
    /\ (vmtarget (options_for "port" (Some "9_443") 0 0 24) = Some "port" -> port = 8443)
    /\ (vmtarget (options_for "port" (Some "9_443") 0 0 24) <> Some "port" ->
        int (opt_str (vmtarget (options_for "port" (Some "9_443") 0 0 24))) = Some port)
    /\ forall w,
         main (fun _ _ => None) (fun _ => None) str_of_exn
              (options_for "port" (Some "9_443") 0 0 24) w
         = printed (check_port (opt_str (host (options_for "port" (Some "9_443") 0 0 24)))
                               port
                               (Z.min (timeout (options_for "port" (Some "9_443") 0 0 24)) 30)
                               (World.connect w)).
Proof.
  apply (main_port _ _ _ (options_for "port" (Some "9_443") 0 0 24)
           (options_for "port" (Some "9_443") 0 0 24)).
  - reflexivity.
  - reflexivity.
  - reflexivity.
Defined.
